(** * VideoSummary: the record store, the content pipeline and the summary routes

    A shallow embedding of [storage.ts] (class [MemStorage]) and of the
    routes module (function [processVideo] and the handlers registered by
    [registerRoutes]), together with the properties the specification states
    about them.

    Modelling choices, all taken from the TypeScript source:
    - a JavaScript [Map] is an association list in insertion order:
      [Array.from(map.values()).find(...)] depends on that order, and
      [Map.prototype.set] on a key already present keeps its position;
    - [T | null] and optional properties are [option]; an optional nullable
      property is [option (option T)];
    - [number] is [Z] (no arithmetic is done on durations or progress),
      [Date] is a clock reading in [Z], a [Buffer] is a string of bytes;
    - [randomUUID()], [new Date()], [process.cwd()], [path.join] and the
      services of [services/videoProcessor] and [services/openai] are
      collaborators of the pipeline: their answers come from an environment
      [Env], indexed by the number of consultations made so far, so that
      every behaviour of the outside world is covered;
    - values have their declared TypeScript types: a service that resolves
      resolves to a value of its result type, and a property listed in an
      update object holds a value of the property's type;
    - an [async] function is a state-and-exception computation [Async] over
      the process-wide store; a rejected promise is the outcome [Thrown].
      Every awaited promise settles, and one pipeline instance is run in
      isolation (no interleaving with other requests between two [await]s).
      A call that never settles is outside the model: the child-process
      wrappers of [services/videoProcessor] register no ['error'] listener,
      so a spawn that fails leaves their promise pending; the run is then
      suspended at that [await] for good, and the statements about runs
      below are about runs whose [try] block comes to an end;
    - the store also keeps a ghost [trace] of every [Map.set], every
      collaborator invocation, every [console.error] and every [setTimeout],
      in the order they happen;
    - the body of [POST /api/videos/youtube] is given by the five properties
      [urlInputSchema] reads; what the validator takes for a URL and the
      text of its error message are parameters;
    - the four functions of [services/openai] are guards around the outcome
      of their [try] block ([with_openai]); [cleanupTempFiles] is modelled on
      its own, [fs.unlink] answering by position and path.

    Not modelled: [POST /api/videos/upload] ([parseInt] of free text may be
    [NaN], which a [Z] duration cannot hold), the child-process wrappers of
    [services/videoProcessor] and the JSON handling inside the OpenAI
    wrappers. *)

From Stdlib Require Import String List ZArith Bool Lia DecimalString
  DecimalNat.
Import ListNotations.
Local Open Scope string_scope.
Local Open Scope Z_scope.

(** ** JavaScript values *)

Definition nullable (A : Type) : Type := option A.
Definition optional (A : Type) : Type := option A.
Definition Date : Type := Z.
Definition Buffer : Type := string.

(** [a ?? null] on an optional nullable property. *)
Definition nullish_null {A : Type} (o : optional (nullable A)) : nullable A :=
  match o with
  | Some v => v
  | None => None
  end.

(** Truthiness of a string: every string but the empty one. *)
Definition truthy (s : string) : bool :=
  match s with
  | EmptyString => false
  | String _ _ => true
  end.

(** [s || d] on an optional string. *)
Definition or_default (o : optional string) (d : string) : string :=
  match o with
  | Some s => if truthy s then s else d
  | None => d
  end.

(** [if (x) { ... x ... }] on [x : string | null]: the string the branch
    sees when [x] is truthy. *)
Definition truthy_value (o : nullable string) : option string :=
  match o with
  | Some s => if truthy s then Some s else None
  | None => None
  end.

(** One property of [{ ...record, ...updates }]: the update when the
    property is present in [updates], the old value otherwise. *)
Definition spread {A : Type} (old : A) (upd : optional A) : A :=
  match upd with
  | Some x => x
  | None => old
  end.

(** A thrown value: an [Error] instance with its message, or anything else. *)
Inductive JsExn : Type :=
| JsError (message : string)
| JsOther (shown : string).

(** [error instanceof Error ? error.message : fallback] *)
Definition message_or (fallback : string) (e : JsExn) : string :=
  match e with
  | JsError m => m
  | JsOther _ => fallback
  end.

(** ** JavaScript [Map<string, V>] *)

Module JsMap.
Section Map.
Context {V : Type}.

Definition t : Type := list (string * V).

Definition empty : t := [].

Fixpoint get (k : string) (m : t) : option V :=
  match m with
  | [] => None
  | (k', v) :: m' => if String.eqb k k' then Some v else get k m'
  end.

Fixpoint set (k : string) (v : V) (m : t) : t :=
  match m with
  | [] => [(k, v)]
  | (k', v') :: m' =>
      if String.eqb k k' then (k, v) :: m' else (k', v') :: set k v m'
  end.

Definition keys (m : t) : list string := map fst m.

Definition values (m : t) : list V := map snd m.

End Map.
Arguments t : clear implicits.
End JsMap.

(** ** The schema ([@shared/schema]) *)

Module Video.
Record t : Type := mk {
  id : string;
  title : string;
  originalUrl : nullable string;
  fileName : nullable string;
  duration : nullable Z;
  thumbnailUrl : nullable string;
  status : string;
  createdAt : nullable Date
}.
End Video.

Module InsertVideo.
Record t : Type := mk {
  title : string;
  originalUrl : optional (nullable string);
  fileName : optional (nullable string);
  duration : optional (nullable Z);
  thumbnailUrl : optional (nullable string);
  status : optional string
}.
End InsertVideo.

Module PartialVideo.
Record t : Type := mk {
  id : optional string;
  title : optional string;
  originalUrl : optional (nullable string);
  fileName : optional (nullable string);
  duration : optional (nullable Z);
  thumbnailUrl : optional (nullable string);
  status : optional string;
  createdAt : optional (nullable Date)
}.
Definition empty : t := mk None None None None None None None None.
End PartialVideo.

Module Summary.
Record t : Type := mk {
  id : string;
  videoId : string;
  content : string;
  style : string;
  targetDuration : Z;
  voiceId : string;
  speechSpeed : string;
  audioUrl : nullable string;
  finalVideoUrl : nullable string;
  isEdited : nullable bool;
  createdAt : nullable Date
}.
End Summary.

Module InsertSummary.
Record t : Type := mk {
  videoId : string;
  content : string;
  style : string;
  targetDuration : Z;
  voiceId : string;
  speechSpeed : optional string;
  isEdited : optional (nullable bool)
}.
End InsertSummary.

Module PartialSummary.
Record t : Type := mk {
  id : optional string;
  videoId : optional string;
  content : optional string;
  style : optional string;
  targetDuration : optional Z;
  voiceId : optional string;
  speechSpeed : optional string;
  audioUrl : optional (nullable string);
  finalVideoUrl : optional (nullable string);
  isEdited : optional (nullable bool);
  createdAt : optional (nullable Date)
}.
Definition empty : t :=
  mk None None None None None None None None None None None.
End PartialSummary.

(** The [result] column is [jsonb]; the only payload the program ever
    writes is [{ summaryId, audioUrl }]. *)
Module JobResult.
Record t : Type := mk {
  summaryId : string;
  audioUrl : string
}.
End JobResult.

Module ProcessingJob.
Record t : Type := mk {
  id : string;
  videoId : string;
  status : string;
  progress : nullable Z;
  currentStep : nullable string;
  error : nullable string;
  result : nullable JobResult.t;
  createdAt : nullable Date;
  updatedAt : nullable Date
}.
End ProcessingJob.

Module InsertProcessingJob.
Record t : Type := mk {
  videoId : string;
  status : string;
  progress : optional (nullable Z);
  currentStep : optional (nullable string);
  error : optional (nullable string);
  result : optional (nullable JobResult.t)
}.
End InsertProcessingJob.

Module PartialProcessingJob.
Record t : Type := mk {
  id : optional string;
  videoId : optional string;
  status : optional string;
  progress : optional (nullable Z);
  currentStep : optional (nullable string);
  error : optional (nullable string);
  result : optional (nullable JobResult.t);
  createdAt : optional (nullable Date);
  updatedAt : optional (nullable Date)
}.
Definition empty : t := mk None None None None None None None None None.
End PartialProcessingJob.

(** ** Collaborators *)

Module VideoMetadata.
Record t : Type := mk {
  title : string;
  duration : Z;
  thumbnail : string;
  audioPath : string
}.
End VideoMetadata.

Module FileMetadata.
Record t : Type := mk {
  duration : Z;
  title : string
}.
End FileMetadata.

Module VideoAnalysisResult.
Record t : Type := mk {
  title : string;
  keyPoints : list string;
  topics : list string;
  sentiment : string;
  duration : Z
}.
End VideoAnalysisResult.

Module SummaryResult.
Record t : Type := mk {
  content : string;
  keyHighlights : list string;
  callToAction : string
}.
End SummaryResult.

(** What an awaited promise settles to. *)
Inductive Outcome (A : Type) : Type :=
| Returned (a : A)
| Thrown (e : JsExn).
Arguments Returned {A} a.
Arguments Thrown {A} e.

(** The services the pipeline awaits. *)
Inductive Capability : Type :=
| DownloadYouTubeVideo
| GetVideoMetadata
| ExtractAudioFromFile
| ReadFile
| TranscribeAudio
| AnalyzeVideoContent
| GenerateSummary
| GenerateSpeech
| WriteFile.

(** The answers of the outside world.  The first argument of every oracle
    is the number of consultations made before this one. *)
Record Env : Type := mkEnv {
  uuid : nat -> string;
  clock : nat -> Date;
  cwd : string;
  path_join : list string -> string;
  downloadYouTubeVideo_oracle : nat -> string -> Outcome VideoMetadata.t;
  getVideoMetadata_oracle : nat -> string -> Outcome FileMetadata.t;
  extractAudioFromFile_oracle : nat -> string -> Outcome string;
  readFile_oracle : nat -> string -> Outcome Buffer;
  transcribeAudio_oracle : nat -> Buffer -> Outcome string;
  analyzeVideoContent_oracle :
    nat -> string -> string -> Outcome VideoAnalysisResult.t;
  generateSummary_oracle :
    nat -> string -> string -> Z -> VideoAnalysisResult.t ->
    Outcome SummaryResult.t;
  generateSpeech_oracle : nat -> string -> string -> string -> Outcome Buffer;
  writeFile_oracle : nat -> string -> Buffer -> Outcome unit;
  zodError_message : optional string -> string
}.

(** ** The process state *)

Inductive Event : Type :=
| EvSetVideo (key : string) (v : Video.t)
| EvSetSummary (key : string) (s : Summary.t)
| EvSetJob (key : string) (j : ProcessingJob.t)
| EvCall (c : Capability)
| EvConsoleError (e : JsExn)
| EvSetTimeout (paths : list string) (delay : Z).

Record World : Type := mkWorld {
  videos : JsMap.t Video.t;
  summaries : JsMap.t Summary.t;
  processingJobs : JsMap.t ProcessingJob.t;
  consulted : nat;
  trace : list Event
}.

(** [new MemStorage()] in a process that has done nothing yet. *)
Definition initial : World := mkWorld JsMap.empty JsMap.empty JsMap.empty 0 [].

(** ** Asynchronous computations *)

Definition Async (A : Type) : Type := World -> Outcome A * World.

Definition ret {A : Type} (a : A) : Async A := fun w => (Returned a, w).

Definition throw {A : Type} (e : JsExn) : Async A := fun w => (Thrown e, w).

Definition bind {A B : Type} (m : Async A) (k : A -> Async B) : Async B :=
  fun w =>
    match m w with
    | (Returned a, w') => k a w'
    | (Thrown e, w') => (Thrown e, w')
    end.

(** [try { body } catch (error) { handler }] *)
Definition try_catch {A : Type} (body : Async A) (handler : JsExn -> Async A)
  : Async A :=
  fun w =>
    match body w with
    | (Returned a, w') => (Returned a, w')
    | (Thrown e, w') => handler e w'
    end.

Declare Scope async_scope.
Delimit Scope async_scope with async.
Notation "x <- m ;; k" := (bind m (fun x => k))
  (at level 61, m at next level, right associativity) : async_scope.
Notation "m ;;; k" := (bind m (fun _ => k))
  (at level 61, right associativity) : async_scope.
Local Open Scope async_scope.

Definition log (ev : Event) : Async unit :=
  fun w =>
    (Returned tt,
     mkWorld (videos w) (summaries w) (processingJobs w) (consulted w)
       (trace w ++ [ev])).

(** One consultation of the outside world. *)
Definition consult {A : Type} (f : nat -> A) : Async A :=
  fun w =>
    (Returned (f (consulted w)),
     mkWorld (videos w) (summaries w) (processingJobs w) (S (consulted w))
       (trace w)).

(** Awaiting a service: the call is traced, then it settles. *)
Definition await (c : Capability) {A : Type} (f : nat -> Outcome A) : Async A :=
  log (EvCall c) ;;;
  r <- consult f ;;
  match r with
  | Returned a => ret a
  | Thrown e => throw e
  end.

Definition videos_get (k : string) : Async (option Video.t) :=
  fun w => (Returned (JsMap.get k (videos w)), w).

Definition videos_set (k : string) (v : Video.t) : Async unit :=
  fun w =>
    (Returned tt,
     mkWorld (JsMap.set k v (videos w)) (summaries w) (processingJobs w)
       (consulted w) (trace w ++ [EvSetVideo k v])).

Definition summaries_get (k : string) : Async (option Summary.t) :=
  fun w => (Returned (JsMap.get k (summaries w)), w).

Definition summaries_values : Async (list Summary.t) :=
  fun w => (Returned (JsMap.values (summaries w)), w).

Definition summaries_set (k : string) (s : Summary.t) : Async unit :=
  fun w =>
    (Returned tt,
     mkWorld (videos w) (JsMap.set k s (summaries w)) (processingJobs w)
       (consulted w) (trace w ++ [EvSetSummary k s])).

Definition processingJobs_get (k : string) : Async (option ProcessingJob.t) :=
  fun w => (Returned (JsMap.get k (processingJobs w)), w).

Definition processingJobs_values : Async (list ProcessingJob.t) :=
  fun w => (Returned (JsMap.values (processingJobs w)), w).

Definition processingJobs_set (k : string) (j : ProcessingJob.t) : Async unit :=
  fun w =>
    (Returned tt,
     mkWorld (videos w) (summaries w) (JsMap.set k j (processingJobs w))
       (consulted w) (trace w ++ [EvSetJob k j])).

(** ** [MemStorage] *)

Section Program.
Variable env : Env.

Definition randomUUID : Async string := consult (uuid env).

Definition newDate : Async Date := consult (clock env).

Definition mergeVideo (video : Video.t) (updates : PartialVideo.t) : Video.t :=
  Video.mk
    (spread (Video.id video) (PartialVideo.id updates))
    (spread (Video.title video) (PartialVideo.title updates))
    (spread (Video.originalUrl video) (PartialVideo.originalUrl updates))
    (spread (Video.fileName video) (PartialVideo.fileName updates))
    (spread (Video.duration video) (PartialVideo.duration updates))
    (spread (Video.thumbnailUrl video) (PartialVideo.thumbnailUrl updates))
    (spread (Video.status video) (PartialVideo.status updates))
    (spread (Video.createdAt video) (PartialVideo.createdAt updates)).

Definition mergeSummary (summary : Summary.t) (updates : PartialSummary.t)
  : Summary.t :=
  Summary.mk
    (spread (Summary.id summary) (PartialSummary.id updates))
    (spread (Summary.videoId summary) (PartialSummary.videoId updates))
    (spread (Summary.content summary) (PartialSummary.content updates))
    (spread (Summary.style summary) (PartialSummary.style updates))
    (spread (Summary.targetDuration summary)
       (PartialSummary.targetDuration updates))
    (spread (Summary.voiceId summary) (PartialSummary.voiceId updates))
    (spread (Summary.speechSpeed summary) (PartialSummary.speechSpeed updates))
    (spread (Summary.audioUrl summary) (PartialSummary.audioUrl updates))
    (spread (Summary.finalVideoUrl summary)
       (PartialSummary.finalVideoUrl updates))
    (spread (Summary.isEdited summary) (PartialSummary.isEdited updates))
    (spread (Summary.createdAt summary) (PartialSummary.createdAt updates)).

(** [{ ...job, ...updates, updatedAt: now }] *)
Definition mergeJob (job : ProcessingJob.t) (updates : PartialProcessingJob.t)
  (now : Date) : ProcessingJob.t :=
  ProcessingJob.mk
    (spread (ProcessingJob.id job) (PartialProcessingJob.id updates))
    (spread (ProcessingJob.videoId job) (PartialProcessingJob.videoId updates))
    (spread (ProcessingJob.status job) (PartialProcessingJob.status updates))
    (spread (ProcessingJob.progress job)
       (PartialProcessingJob.progress updates))
    (spread (ProcessingJob.currentStep job)
       (PartialProcessingJob.currentStep updates))
    (spread (ProcessingJob.error job) (PartialProcessingJob.error updates))
    (spread (ProcessingJob.result job) (PartialProcessingJob.result updates))
    (spread (ProcessingJob.createdAt job)
       (PartialProcessingJob.createdAt updates))
    (Some now).

Definition createVideo (insertVideo : InsertVideo.t) : Async Video.t :=
  id <- randomUUID ;;
  createdAt <- newDate ;;
  let video :=
    Video.mk id
      (InsertVideo.title insertVideo)
      (nullish_null (InsertVideo.originalUrl insertVideo))
      (nullish_null (InsertVideo.fileName insertVideo))
      (nullish_null (InsertVideo.duration insertVideo))
      (nullish_null (InsertVideo.thumbnailUrl insertVideo))
      (or_default (InsertVideo.status insertVideo) "uploading")
      (Some createdAt) in
  videos_set id video ;;;
  ret video.

Definition getVideo (id : string) : Async (option Video.t) :=
  videos_get id.

Definition updateVideo (id : string) (updates : PartialVideo.t)
  : Async Video.t :=
  video <- videos_get id ;;
  match video with
  | None => throw (JsError "Video not found")
  | Some video =>
      let updatedVideo := mergeVideo video updates in
      videos_set id updatedVideo ;;;
      ret updatedVideo
  end.

Definition createSummary (insertSummary : InsertSummary.t) : Async Summary.t :=
  id <- randomUUID ;;
  createdAt <- newDate ;;
  let summary :=
    Summary.mk id
      (InsertSummary.videoId insertSummary)
      (InsertSummary.content insertSummary)
      (InsertSummary.style insertSummary)
      (InsertSummary.targetDuration insertSummary)
      (InsertSummary.voiceId insertSummary)
      (or_default (InsertSummary.speechSpeed insertSummary) "1.0")
      None
      None
      (Some false)
      (Some createdAt) in
  summaries_set id summary ;;;
  ret summary.

Definition getSummary (id : string) : Async (option Summary.t) :=
  summaries_get id.

Definition getSummaryByVideoId (videoId : string) : Async (option Summary.t) :=
  all <- summaries_values ;;
  ret (find (fun summary => String.eqb (Summary.videoId summary) videoId) all).

Definition updateSummary (id : string) (updates : PartialSummary.t)
  : Async Summary.t :=
  summary <- summaries_get id ;;
  match summary with
  | None => throw (JsError "Summary not found")
  | Some summary =>
      let updatedSummary := mergeSummary summary updates in
      summaries_set id updatedSummary ;;;
      ret updatedSummary
  end.

Definition createProcessingJob (insertJob : InsertProcessingJob.t)
  : Async ProcessingJob.t :=
  id <- randomUUID ;;
  createdAt <- newDate ;;
  updatedAt <- newDate ;;
  let job :=
    ProcessingJob.mk id
      (InsertProcessingJob.videoId insertJob)
      (InsertProcessingJob.status insertJob)
      (nullish_null (InsertProcessingJob.progress insertJob))
      (nullish_null (InsertProcessingJob.currentStep insertJob))
      (nullish_null (InsertProcessingJob.error insertJob))
      (nullish_null (InsertProcessingJob.result insertJob))
      (Some createdAt)
      (Some updatedAt) in
  processingJobs_set id job ;;;
  ret job.

Definition getProcessingJob (id : string) : Async (option ProcessingJob.t) :=
  processingJobs_get id.

Definition getProcessingJobByVideoId (videoId : string)
  : Async (option ProcessingJob.t) :=
  all <- processingJobs_values ;;
  ret (find (fun job => String.eqb (ProcessingJob.videoId job) videoId) all).

Definition updateProcessingJob (id : string) (updates : PartialProcessingJob.t)
  : Async ProcessingJob.t :=
  job <- processingJobs_get id ;;
  match job with
  | None => throw (JsError "Processing job not found")
  | Some job =>
      now <- newDate ;;
      let updatedJob := mergeJob job updates now in
      processingJobs_set id updatedJob ;;;
      ret updatedJob
  end.

End Program.

(** ** The content pipeline ([processVideo]) *)

Section Pipeline.
Variable env : Env.

Definition downloadYouTubeVideo (url : string) : Async VideoMetadata.t :=
  await DownloadYouTubeVideo (fun n => downloadYouTubeVideo_oracle env n url).

Definition getVideoMetadata (filePath : string) : Async FileMetadata.t :=
  await GetVideoMetadata (fun n => getVideoMetadata_oracle env n filePath).

Definition extractAudioFromFile (filePath : string) : Async string :=
  await ExtractAudioFromFile
    (fun n => extractAudioFromFile_oracle env n filePath).

Definition readFile (p : string) : Async Buffer :=
  await ReadFile (fun n => readFile_oracle env n p).

Definition transcribeAudio (audioBuffer : Buffer) : Async string :=
  await TranscribeAudio (fun n => transcribeAudio_oracle env n audioBuffer).

Definition analyzeVideoContent (transcript videoTitle : string)
  : Async VideoAnalysisResult.t :=
  await AnalyzeVideoContent
    (fun n => analyzeVideoContent_oracle env n transcript videoTitle).

Definition generateSummary (transcript style : string) (targetDuration : Z)
  (analysis : VideoAnalysisResult.t) : Async SummaryResult.t :=
  await GenerateSummary
    (fun n => generateSummary_oracle env n transcript style targetDuration
                analysis).

Definition generateSpeech (text voice speed : string) : Async Buffer :=
  await GenerateSpeech (fun n => generateSpeech_oracle env n text voice speed).

Definition writeFile (p : string) (data : Buffer) : Async unit :=
  await WriteFile (fun n => writeFile_oracle env n p data).

Definition console_error (e : JsExn) : Async unit := log (EvConsoleError e).

Definition setTimeout_cleanup (paths : list string) (delay : Z) : Async unit :=
  log (EvSetTimeout paths delay).

(** [{ progress, currentStep }] *)
Definition progressUpdate (progress : Z) (currentStep : string)
  : PartialProcessingJob.t :=
  PartialProcessingJob.mk None None None (Some (Some progress))
    (Some (Some currentStep)) None None None None.

(** [{ status: "completed", progress: 100, currentStep: "completed",
       result: { summaryId, audioUrl } }] *)
Definition completedUpdate (summaryId audioUrl : string)
  : PartialProcessingJob.t :=
  PartialProcessingJob.mk None None (Some "completed") (Some (Some 100))
    (Some (Some "completed")) None
    (Some (Some (JobResult.mk summaryId audioUrl))) None None.

(** [{ status: "failed", error: message }] *)
Definition failedUpdate (message : string) : PartialProcessingJob.t :=
  PartialProcessingJob.mk None None (Some "failed") None None
    (Some (Some message)) None None None.

(** [{ status }] *)
Definition statusUpdate (status : string) : PartialVideo.t :=
  PartialVideo.mk None None None None None None (Some status) None.

(** [{ title, duration, thumbnailUrl }] *)
Definition metadataUpdate (metadata : VideoMetadata.t) : PartialVideo.t :=
  PartialVideo.mk None (Some (VideoMetadata.title metadata)) None None
    (Some (Some (VideoMetadata.duration metadata)))
    (Some (Some (VideoMetadata.thumbnail metadata))) None None.

(** [{ duration }] *)
Definition durationUpdate (duration : Z) : PartialVideo.t :=
  PartialVideo.mk None None None None (Some (Some duration)) None None None.

(** [{ content }] *)
Definition contentUpdate (content : string) : PartialSummary.t :=
  PartialSummary.mk None None (Some content) None None None None None None
    None None.

(** [{ audioUrl, finalVideoUrl }] *)
Definition mediaUpdate (audioUrl finalVideoUrl : string) : PartialSummary.t :=
  PartialSummary.mk None None None None None None None (Some (Some audioUrl))
    (Some (Some finalVideoUrl)) None None.

(** [{ audioUrl }] *)
Definition audioUpdate (audioUrl : string) : PartialSummary.t :=
  PartialSummary.mk None None None None None None None (Some (Some audioUrl))
    None None None.

(** [{ content, isEdited: true }] *)
Definition editUpdate (content : string) : PartialSummary.t :=
  PartialSummary.mk None None (Some content) None None None None None None
    (Some (Some true)) None.

(** The job draft of step 2. *)
Definition jobDraft (videoId : string) : InsertProcessingJob.t :=
  InsertProcessingJob.mk videoId "processing" (Some (Some 0))
    (Some (Some "analyzing")) None None.

(** The summary draft used when the item has no summary yet. *)
Definition defaultSummaryDraft (videoId : string) : InsertSummary.t :=
  InsertSummary.mk videoId "" "informative" 60 "alloy" (Some "1.0") None.

(** Lines 60-81: the audio of the item, by whichever source is populated. *)
Definition acquireAudio (videoId : string) (video : Video.t) : Async string :=
  match truthy_value (Video.originalUrl video) with
  | Some originalUrl =>
      metadata <- downloadYouTubeVideo originalUrl ;;
      updateVideo videoId (metadataUpdate metadata) ;;;
      ret (VideoMetadata.audioPath metadata)
  | None =>
      match truthy_value (Video.fileName video) with
      | Some fileName =>
          let filePath := path_join env [cwd env; "temp/uploads"; fileName] in
          metadata <- getVideoMetadata filePath ;;
          audioPath <- extractAudioFromFile filePath ;;
          updateVideo videoId
            (durationUpdate (FileMetadata.duration metadata)) ;;;
          ret audioPath
      | None => throw (JsError "No video source available")
      end
  end.

(** Lines 103-113: the summary of the item, created with the defaults when
    there is none. *)
Definition fetchOrCreateSummary (videoId : string) : Async Summary.t :=
  summary <- getSummaryByVideoId videoId ;;
  match summary with
  | Some summary => ret summary
  | None => createSummary env (defaultSummaryDraft videoId)
  end.

(** Lines 83-176, once the job exists and the audio is at hand. *)
Definition summarize (videoId : string) (video : Video.t)
  (job : ProcessingJob.t) (audioPath : string) : Async unit :=
  updateProcessingJob env (ProcessingJob.id job)
    (progressUpdate 30 "transcribing") ;;;
  audioBuffer <- readFile audioPath ;;
  transcript <- transcribeAudio audioBuffer ;;
  updateProcessingJob env (ProcessingJob.id job)
    (progressUpdate 50 "summarizing") ;;;
  analysis <- analyzeVideoContent transcript (Video.title video) ;;
  summary <- fetchOrCreateSummary videoId ;;
  summaryResult <- generateSummary transcript (Summary.style summary)
                     (Summary.targetDuration summary) analysis ;;
  updateSummary (Summary.id summary)
    (contentUpdate (SummaryResult.content summaryResult)) ;;;
  updateProcessingJob env (ProcessingJob.id job)
    (progressUpdate 70 "generating_audio") ;;;
  speechBuffer <- generateSpeech (SummaryResult.content summaryResult)
                    (Summary.voiceId summary) (Summary.speechSpeed summary) ;;
  let audioOutputPath :=
    path_join env [cwd env; "temp"; videoId ++ "_speech.mp3"] in
  writeFile audioOutputPath speechBuffer ;;;
  updateProcessingJob env (ProcessingJob.id job)
    (progressUpdate 90 "creating_video") ;;;
  updateSummary (Summary.id summary)
    (mediaUpdate audioOutputPath audioOutputPath) ;;;
  updateProcessingJob env (ProcessingJob.id job)
    (completedUpdate (Summary.id summary) audioOutputPath) ;;;
  updateVideo videoId (statusUpdate "completed") ;;;
  setTimeout_cleanup [audioPath; audioOutputPath] (24 * 60 * 60 * 1000).

(** The [try] block of [processVideo]. *)
Definition processVideo_try (videoId : string) : Async unit :=
  video <- getVideo videoId ;;
  match video with
  | None => throw (JsError "Video not found")
  | Some video =>
      job <- createProcessingJob env (jobDraft videoId) ;;
      updateProcessingJob env (ProcessingJob.id job)
        (progressUpdate 10 "analyzing") ;;;
      audioPath <- acquireAudio videoId video ;;
      summarize videoId video job audioPath
  end.

(** The [catch] block of [processVideo]. *)
Definition processVideo_catch (videoId : string) (error : JsExn) : Async unit :=
  console_error error ;;;
  job <- getProcessingJobByVideoId videoId ;;
  match job with
  | Some job =>
      updateProcessingJob env (ProcessingJob.id job)
        (failedUpdate (message_or "Unknown error" error)) ;;;
      ret tt
  | None => ret tt
  end ;;;
  updateVideo videoId (statusUpdate "failed") ;;;
  ret tt.

Definition processVideo (videoId : string) : Async unit :=
  try_catch (processVideo_try videoId) (processVideo_catch videoId).

(** ** The routes on summaries and the status route *)

Inductive Json : Type :=
| JsonMessage (message : string)
| JsonSummary (summary : Summary.t)
| JsonStatus (video : Video.t) (summary : option Summary.t)
    (processing : option ProcessingJob.t).

Record Response : Type := mkResponse {
  statusCode : Z;
  json : Json
}.

(** [summaryUpdateSchema.parse(req.body)]: [content] must be a string of
    length at least 1.  The body is given by its [content] property, absent
    when the property is missing or is not a string. *)
Definition summaryUpdateSchema_parse (content : optional string)
  : Async string :=
  match content with
  | Some s => if truthy s then ret s
              else throw (JsError (zodError_message env content))
  | None => throw (JsError (zodError_message env content))
  end.

(** [GET /api/videos/:id] *)
Definition get_video_route (id : string) : Async Response :=
  try_catch
    (video <- getVideo id ;;
     match video with
     | None => ret (mkResponse 404 (JsonMessage "Video not found"))
     | Some video =>
         summary <- getSummaryByVideoId (Video.id video) ;;
         job <- getProcessingJobByVideoId (Video.id video) ;;
         ret (mkResponse 200 (JsonStatus video summary job))
     end)
    (fun error =>
       ret (mkResponse 500
              (JsonMessage (message_or "Failed to get video" error)))).

(** [PATCH /api/summaries/:id] *)
Definition patch_summary_route (id : string) (content : optional string)
  : Async Response :=
  try_catch
    (data <- summaryUpdateSchema_parse content ;;
     summary <- updateSummary id (editUpdate data) ;;
     ret (mkResponse 200 (JsonSummary summary)))
    (fun error =>
       ret (mkResponse 400
              (JsonMessage (message_or "Invalid request data" error)))).

(** [POST /api/summaries/:id/regenerate-audio] *)
Definition regenerate_audio_route (id : string) : Async Response :=
  try_catch
    (summary <- getSummary id ;;
     match summary with
     | None => ret (mkResponse 404 (JsonMessage "Summary not found"))
     | Some summary =>
         speechBuffer <- generateSpeech (Summary.content summary)
                           (Summary.voiceId summary)
                           (Summary.speechSpeed summary) ;;
         let audioOutputPath :=
           path_join env
             [cwd env; "temp"; Summary.videoId summary ++ "_speech_updated.mp3"]
         in
         writeFile audioOutputPath speechBuffer ;;;
         updatedSummary <- updateSummary (Summary.id summary)
                             (audioUpdate audioOutputPath) ;;
         ret (mkResponse 200 (JsonSummary updatedSummary))
     end)
    (fun error =>
       ret (mkResponse 500
              (JsonMessage (message_or "Failed to regenerate audio" error)))).

(** What [POST /api/videos/youtube] and [POST /api/videos/upload] do with
    the store before they start [processVideo] in the background: one video
    from the route's draft, one summary for it with the requested settings. *)
Definition submit (draft : InsertVideo.t) (style : string)
  (targetDuration : Z) (voiceId : string) (speechSpeed : optional string)
  : Async (string * string) :=
  video <- createVideo env draft ;;
  summary <- createSummary env
               (InsertSummary.mk (Video.id video) "" style targetDuration
                  voiceId speechSpeed None) ;;
  ret (Video.id video, Summary.id summary).

(** The drafts the two creation routes pass to [createVideo]. *)
Definition youtubeVideoDraft (url : string) : InsertVideo.t :=
  InsertVideo.mk "Processing..." (Some (Some url)) (Some None) (Some None)
    (Some None) (Some "processing").

Definition uploadVideoDraft (originalname filename : string) : InsertVideo.t :=
  InsertVideo.mk originalname (Some None) (Some (Some filename)) (Some None)
    (Some None) (Some "processing").

End Pipeline.

(** ** Well-formed stores *)

(** Every entry is filed under the [id] of its record and no key occurs
    twice: what [new Map()], [set(id, { ..., id })] and updates that leave
    [id] alone maintain. *)
Definition filed {V : Type} (id_of : V -> string) (m : JsMap.t V) : Prop :=
  NoDup (JsMap.keys m) /\ Forall (fun kv => id_of (snd kv) = fst kv) m.

Definition wf_store (w : World) : Prop :=
  filed Video.id (videos w) /\
  filed Summary.id (summaries w) /\
  filed ProcessingJob.id (processingJobs w).

(** The predicates of the two [find] scans. *)
Definition summary_of (videoId : string) (summary : Summary.t) : bool :=
  String.eqb (Summary.videoId summary) videoId.

Definition job_of (videoId : string) (job : ProcessingJob.t) : bool :=
  String.eqb (ProcessingJob.videoId job) videoId.

(** ** Reading the trace *)

(** The writes to the job map, oldest first: key and record. *)
Fixpoint job_writes (evs : list Event) : list (string * ProcessingJob.t) :=
  match evs with
  | [] => []
  | EvSetJob k j :: evs' => (k, j) :: job_writes evs'
  | _ :: evs' => job_writes evs'
  end.

(** The writes to the summary map, oldest first. *)
Fixpoint summary_writes (evs : list Event) : list (string * Summary.t) :=
  match evs with
  | [] => []
  | EvSetSummary k s :: evs' => (k, s) :: summary_writes evs'
  | _ :: evs' => summary_writes evs'
  end.

(** The writes to the video map, oldest first. *)
Fixpoint video_writes (evs : list Event) : list (string * Video.t) :=
  match evs with
  | [] => []
  | EvSetVideo k v :: evs' => (k, v) :: video_writes evs'
  | _ :: evs' => video_writes evs'
  end.

(** The services invoked, oldest first. *)
Fixpoint calls (evs : list Event) : list Capability :=
  match evs with
  | [] => []
  | EvCall c :: evs' => c :: calls evs'
  | _ :: evs' => calls evs'
  end.

(** The values handed to [console.error], oldest first. *)
Fixpoint console_errors (evs : list Event) : list JsExn :=
  match evs with
  | [] => []
  | EvConsoleError e :: evs' => e :: console_errors evs'
  | _ :: evs' => console_errors evs'
  end.

Definition progress_step (j : ProcessingJob.t)
  : nullable Z * nullable string :=
  (ProcessingJob.progress j, ProcessingJob.currentStep j).

(** The checkpoints of section 4.3, creation included. *)
Definition checkpoints : list (nullable Z * nullable string) :=
  [ (Some 0, Some "analyzing");
    (Some 10, Some "analyzing");
    (Some 30, Some "transcribing");
    (Some 50, Some "summarizing");
    (Some 70, Some "generating_audio");
    (Some 90, Some "creating_video");
    (Some 100, Some "completed") ].

(** The summary the pipeline works on, and the summary map once it has
    it: the first summary of the item in the map [before], which stays as it
    is, or, when the item has none, a new one with the defaults, filed under
    the identifier and stamped with the clock reading of consultations [n]
    and [n + 1]. *)
Definition working_summary (env : Env) (videoId : string)
  (before : JsMap.t Summary.t) (n : nat) (s : Summary.t)
  (after : JsMap.t Summary.t) : Prop :=
  (find (summary_of videoId) (JsMap.values before) = Some s /\
   after = before) \/
  (find (summary_of videoId) (JsMap.values before) = None /\
   s = Summary.mk (uuid env n) videoId "" "informative" 60 "alloy" "1.0"
         None None (Some false) (Some (clock env (S n))) /\
   after = JsMap.set (Summary.id s) s before).

(** What the [catch] block of [processVideo] relies on: the item is in the
    store, the job map is well formed and holds a job of the item. *)
Definition failure_ready (videoId : string) (w : World) : Prop :=
  JsMap.get videoId (videos w) <> None /\
  filed ProcessingJob.id (processingJobs w) /\
  find (job_of videoId) (JsMap.values (processingJobs w)) <> None.


(** The place of each service in the order of the pipeline. *)
Definition stage (c : Capability) : nat :=
  match c with
  | DownloadYouTubeVideo => 0
  | GetVideoMetadata => 1
  | ExtractAudioFromFile => 2
  | ReadFile => 3
  | TranscribeAudio => 4
  | AnalyzeVideoContent => 5
  | GenerateSummary => 6
  | GenerateSpeech => 7
  | WriteFile => 8
  end%nat.

(** Between the state [w0] and the state [w] nothing was handed to
    [console.error], only services of a stage below [k] were invoked, and
    none of them twice. *)
Definition quiet_since (w0 : World) (k : nat) (w : World) : Prop :=
  exists evs,
    trace w = (trace w0 ++ evs)%list /\
    console_errors evs = [] /\
    Forall (fun c => (stage c < k)%nat) (calls evs) /\
    NoDup (calls evs).

(** A computation that takes states with [P] to states with [Q], whether it
    returns or throws. *)
Definition establishes {A : Type} (P : World -> Prop) (m : Async A)
  (Q : World -> Prop) : Prop :=
  forall w, P w -> Q (snd (m w)).

(** A computation that maintains a property of the state. *)
Definition preserves {A : Type} (I : World -> Prop) (m : Async A) : Prop :=
  establishes I m I.

(** Every key of the store is an answer [randomUUID()] gave earlier. *)
Definition minted (env : Env) (w : World) : Prop :=
  forall k,
    In k (JsMap.keys (videos w)) \/ In k (JsMap.keys (summaries w)) \/
    In k (JsMap.keys (processingJobs w)) ->
    exists n, (n < consulted w)%nat /\ k = uuid env n.

(** The states the process can be in: it starts with empty maps, and every
    request and every run of the pipeline takes it from one state to the
    next. *)
Inductive reachable (env : Env) : World -> Prop :=
| reach_initial : reachable env initial
| reach_submit w draft style targetDuration voiceId speechSpeed :
    reachable env w ->
    reachable env
      (snd (submit env draft style targetDuration voiceId speechSpeed w))
| reach_processVideo w videoId :
    reachable env w -> reachable env (snd (processVideo env videoId w))
| reach_get_video w id :
    reachable env w -> reachable env (snd (get_video_route id w))
| reach_patch_summary w id content :
    reachable env w ->
    reachable env (snd (patch_summary_route env id content w))
| reach_regenerate_audio w id :
    reachable env w -> reachable env (snd (regenerate_audio_route env id w)).

(** ** A concrete deployment, for examples *)

Module Scenario.

Definition decimal (n : nat) : string :=
  DecimalString.NilEmpty.string_of_uint (Nat.to_uint n).

Definition settle {A : Type} (c : Capability) (failing : option Capability)
  (a : A) : Outcome A :=
  match failing with
  | Some c' =>
      match c, c' with
      | DownloadYouTubeVideo, DownloadYouTubeVideo
      | GetVideoMetadata, GetVideoMetadata
      | ExtractAudioFromFile, ExtractAudioFromFile
      | ReadFile, ReadFile
      | TranscribeAudio, TranscribeAudio
      | AnalyzeVideoContent, AnalyzeVideoContent
      | GenerateSummary, GenerateSummary
      | GenerateSpeech, GenerateSpeech
      | WriteFile, WriteFile => Thrown (JsError "service unavailable")
      | _, _ => Returned a
      end
  | None => Returned a
  end.

(** Identifiers [id0], [id1], ...; a clock that advances by one per reading;
    services that answer with fixed values, the summary text being
    [content]; the service [failing], if any, rejects. *)
Definition env (content : string) (failing : option Capability) : Env :=
  mkEnv
    (fun n => "id" ++ decimal n)
    (fun n => 1700000000000 + Z.of_nat n)
    "/app"
    (String.concat "/")
    (fun _ _ => settle DownloadYouTubeVideo failing
                  (VideoMetadata.mk "A talk" 600 "/app/temp/x.webp"
                     "/app/temp/x.mp3"))
    (fun _ _ => settle GetVideoMetadata failing (FileMetadata.mk 600 "talk.mp4"))
    (fun _ _ => settle ExtractAudioFromFile failing "/app/temp/y.mp3")
    (fun _ _ => settle ReadFile failing "bytes")
    (fun _ _ => settle TranscribeAudio failing "hello world")
    (fun _ _ _ => settle AnalyzeVideoContent failing
                    (VideoAnalysisResult.mk "A talk" ["p"] ["t"] "neutral" 600))
    (fun _ _ _ _ _ => settle GenerateSummary failing
                        (SummaryResult.mk content ["h"] "subscribe"))
    (fun _ _ _ _ => settle GenerateSpeech failing "mp3")
    (fun _ _ _ => settle WriteFile failing tt)
    (fun _ => "String must contain at least 1 character(s)").

Definition world_of {A : Type} (r : Outcome A * World) : World := snd r.

(** The store after [POST /api/videos/youtube] has created its two records
    (the video under [id0], the summary under [id2]). *)
Definition submitted : World :=
  world_of
    (submit (env "" None) (youtubeVideoDraft "https://youtu.be/abc")
       "educational" 30 "nova" (Some "1.1") initial).

(** A store holding one video without any source. *)
Definition sourceless : World :=
  world_of
    (createVideo (env "text" None)
       (InsertVideo.mk "empty" None None None None None) initial).

End Scenario.

(** ** Why a run of the pipeline fails *)

(** The timers set by [setTimeout], oldest first: the paths to clean up and
    the delay in milliseconds. *)
Fixpoint timers (evs : list Event) : list (list string * Z) :=
  match evs with
  | [] => []
  | EvSetTimeout paths delay :: evs' => (paths, delay) :: timers evs'
  | _ :: evs' => timers evs'
  end.

(** The service invoked last, if any was. *)
Definition last_call (evs : list Event) : option Capability :=
  last (map Some (calls evs)) None.

(** What can make the [try] block of [processVideo] throw once the item was
    found: its own [throw] for an item without source, the not-found error
    of [updateSummary], or the rejection of a service. *)
Inductive Cause : Type :=
| NoSource
| SummaryMissing
| Rejection (c : Capability).

(** The service [c] answers some invocation by rejecting with [e]. *)
Definition rejected (env : Env) (c : Capability) (e : JsExn) : Prop :=
  match c with
  | DownloadYouTubeVideo =>
      exists n url, downloadYouTubeVideo_oracle env n url = Thrown e
  | GetVideoMetadata =>
      exists n filePath, getVideoMetadata_oracle env n filePath = Thrown e
  | ExtractAudioFromFile =>
      exists n filePath, extractAudioFromFile_oracle env n filePath = Thrown e
  | ReadFile => exists n path, readFile_oracle env n path = Thrown e
  | TranscribeAudio =>
      exists n audioBuffer, transcribeAudio_oracle env n audioBuffer = Thrown e
  | AnalyzeVideoContent =>
      exists n transcript title,
        analyzeVideoContent_oracle env n transcript title = Thrown e
  | GenerateSummary =>
      exists n transcript style targetDuration analysis,
        generateSummary_oracle env n transcript style targetDuration analysis =
        Thrown e
  | GenerateSpeech =>
      exists n text voice speed,
        generateSpeech_oracle env n text voice speed = Thrown e
  | WriteFile => exists n path data, writeFile_oracle env n path data = Thrown e
  end.

Definition raised (env : Env) (cause : Cause) (e : JsExn) : Prop :=
  match cause with
  | NoSource => e = JsError "No video source available"
  | SummaryMissing => e = JsError "Summary not found"
  | Rejection c => rejected env c e
  end.

(** The service invoked last when the run stops for [cause]. *)
Definition last_call_of (cause : Cause) : option Capability :=
  match cause with
  | NoSource => None
  | SummaryMissing => Some GenerateSummary
  | Rejection c => Some c
  end.

(** The checkpoint the job is at when the run stops for [cause]. *)
Definition checkpoint_of (cause : Cause) : nullable Z * nullable string :=
  match cause with
  | NoSource
  | Rejection DownloadYouTubeVideo
  | Rejection GetVideoMetadata
  | Rejection ExtractAudioFromFile => (Some 10, Some "analyzing")
  | Rejection ReadFile
  | Rejection TranscribeAudio => (Some 30, Some "transcribing")
  | Rejection AnalyzeVideoContent
  | Rejection GenerateSummary
  | SummaryMissing => (Some 50, Some "summarizing")
  | Rejection GenerateSpeech
  | Rejection WriteFile => (Some 70, Some "generating_audio")
  end.

(** The summary map when the run stops for [cause]: untouched up to the
    analysis; holding the working summary, unchanged, when the summary
    generator rejects; the same, the working summary not being filed under
    its own [id], when [updateSummary] does not find it; holding it with the
    generated text once speech synthesis has started. *)
Definition summaries_at (env : Env) (videoId : string) (cause : Cause)
  (before after : JsMap.t Summary.t) : Prop :=
  match cause with
  | Rejection GenerateSpeech | Rejection WriteFile =>
      exists n s m x content,
        working_summary env videoId before n s m /\
        JsMap.get (Summary.id s) m = Some x /\
        after =
          JsMap.set (Summary.id s) (mergeSummary x (contentUpdate content)) m
  | Rejection GenerateSummary =>
      exists n s, working_summary env videoId before n s after
  | SummaryMissing =>
      exists n s,
        working_summary env videoId before n s after /\
        JsMap.get (Summary.id s) after = None
  | _ => after = before
  end.

(** ** Updates in a row *)

(** One property of [{ ...first, ...second }] for two update objects. *)
Definition overlay {A : Type} (first second : optional A) : optional A :=
  match second with
  | Some x => Some x
  | None => first
  end.

Definition overlayVideo (u1 u2 : PartialVideo.t) : PartialVideo.t :=
  PartialVideo.mk
    (overlay (PartialVideo.id u1) (PartialVideo.id u2))
    (overlay (PartialVideo.title u1) (PartialVideo.title u2))
    (overlay (PartialVideo.originalUrl u1) (PartialVideo.originalUrl u2))
    (overlay (PartialVideo.fileName u1) (PartialVideo.fileName u2))
    (overlay (PartialVideo.duration u1) (PartialVideo.duration u2))
    (overlay (PartialVideo.thumbnailUrl u1) (PartialVideo.thumbnailUrl u2))
    (overlay (PartialVideo.status u1) (PartialVideo.status u2))
    (overlay (PartialVideo.createdAt u1) (PartialVideo.createdAt u2)).

Definition overlaySummary (u1 u2 : PartialSummary.t) : PartialSummary.t :=
  PartialSummary.mk
    (overlay (PartialSummary.id u1) (PartialSummary.id u2))
    (overlay (PartialSummary.videoId u1) (PartialSummary.videoId u2))
    (overlay (PartialSummary.content u1) (PartialSummary.content u2))
    (overlay (PartialSummary.style u1) (PartialSummary.style u2))
    (overlay (PartialSummary.targetDuration u1)
       (PartialSummary.targetDuration u2))
    (overlay (PartialSummary.voiceId u1) (PartialSummary.voiceId u2))
    (overlay (PartialSummary.speechSpeed u1) (PartialSummary.speechSpeed u2))
    (overlay (PartialSummary.audioUrl u1) (PartialSummary.audioUrl u2))
    (overlay (PartialSummary.finalVideoUrl u1)
       (PartialSummary.finalVideoUrl u2))
    (overlay (PartialSummary.isEdited u1) (PartialSummary.isEdited u2))
    (overlay (PartialSummary.createdAt u1) (PartialSummary.createdAt u2)).

Definition overlayJob (u1 u2 : PartialProcessingJob.t)
  : PartialProcessingJob.t :=
  PartialProcessingJob.mk
    (overlay (PartialProcessingJob.id u1) (PartialProcessingJob.id u2))
    (overlay (PartialProcessingJob.videoId u1)
       (PartialProcessingJob.videoId u2))
    (overlay (PartialProcessingJob.status u1) (PartialProcessingJob.status u2))
    (overlay (PartialProcessingJob.progress u1)
       (PartialProcessingJob.progress u2))
    (overlay (PartialProcessingJob.currentStep u1)
       (PartialProcessingJob.currentStep u2))
    (overlay (PartialProcessingJob.error u1) (PartialProcessingJob.error u2))
    (overlay (PartialProcessingJob.result u1) (PartialProcessingJob.result u2))
    (overlay (PartialProcessingJob.createdAt u1)
       (PartialProcessingJob.createdAt u2))
    (overlay (PartialProcessingJob.updatedAt u1)
       (PartialProcessingJob.updatedAt u2)).

(** ** What every reachable store satisfies *)

(** Every summary and every job belongs to an item of the video map. *)
Definition owned (w : World) : Prop :=
  Forall (fun kv => In (Summary.videoId (snd kv)) (JsMap.keys (videos w)))
    (summaries w) /\
  Forall (fun kv => In (ProcessingJob.videoId (snd kv)) (JsMap.keys (videos w)))
    (processingJobs w).

(** The statuses and checkpoints the program writes to a job. *)
Definition job_sound (job : ProcessingJob.t) : Prop :=
  In (ProcessingJob.status job) ["processing"; "completed"; "failed"] /\
  In (progress_step job) checkpoints.

(** An update object that keeps a job sound: it leaves [videoId] alone, its
    [status], if any, is one of the three, and it sets [progress] and
    [currentStep] together, to a checkpoint, or not at all. *)
Definition job_update_sound (updates : PartialProcessingJob.t) : Prop :=
  PartialProcessingJob.videoId updates = None /\
  match PartialProcessingJob.status updates with
  | Some status => In status ["processing"; "completed"; "failed"]
  | None => True
  end /\
  match PartialProcessingJob.progress updates,
        PartialProcessingJob.currentStep updates with
  | Some progress, Some currentStep => In (progress, currentStep) checkpoints
  | None, None => True
  | _, _ => False
  end.

(** The store is sound, and the items [known] are in it. *)
Definition sound (known : list string) (w : World) : Prop :=
  owned w /\
  Forall (fun kv => job_sound (snd kv)) (processingJobs w) /\
  incl known (JsMap.keys (videos w)).

(** ** [POST /api/videos/youtube] *)

(** The request body as [urlInputSchema] sees it: its five properties, each
    absent when the body lacks it or holds something that is not a string. *)
Module UrlInputBody.
Record t : Type := mk {
  url : optional string;
  style : optional string;
  targetDuration : optional string;
  voiceId : optional string;
  speechSpeed : optional string
}.
End UrlInputBody.

(** [z.enum(["30", "60", "90"])] *)
Inductive TargetDuration : Type :=
| Seconds30
| Seconds60
| Seconds90.

(** [z.infer<typeof urlInputSchema>] *)
Module UrlInputRequest.
Record t : Type := mk {
  url : string;
  style : string;
  targetDuration : TargetDuration;
  voiceId : string;
  speechSpeed : string
}.
End UrlInputRequest.

(** What the creation route answers: [{ videoId, summaryId }], or a status
    with [{ message }]. *)
Inductive CreationReply : Type :=
| Created (videoId summaryId : string)
| Refused (status : Z) (message : string).

Section YoutubeRoute.
Variable env : Env.

(** [z.string().url()]: whether the validator takes the string for a URL. *)
Variable isUrl : string -> bool.

(** The message of the [ZodError] thrown for a body. *)
Variable urlInputError : UrlInputBody.t -> string.

(** [z.enum(allowed)] on a string. *)
Definition enum (allowed : list string) (s : string) : bool :=
  existsb (String.eqb s) allowed.

Definition targetDuration_enum (s : string) : option TargetDuration :=
  if String.eqb s "30" then Some Seconds30
  else if String.eqb s "60" then Some Seconds60
  else if String.eqb s "90" then Some Seconds90
  else None.

(** [parseInt] on the three strings of the enumeration. *)
Definition parseInt (d : TargetDuration) : Z :=
  match d with
  | Seconds30 => 30
  | Seconds60 => 60
  | Seconds90 => 90
  end.

(** The data [urlInputSchema] accepts, if it accepts the body. *)
Definition urlInputSchema_data (body : UrlInputBody.t)
  : option UrlInputRequest.t :=
  match UrlInputBody.url body, UrlInputBody.style body,
        UrlInputBody.targetDuration body, UrlInputBody.voiceId body,
        UrlInputBody.speechSpeed body with
  | Some url, Some style, Some targetDuration, Some voiceId, Some speechSpeed =>
      match targetDuration_enum targetDuration with
      | Some duration =>
          if isUrl url &&
             enum ["informative"; "entertaining"; "educational"] style &&
             enum ["0.9"; "1.0"; "1.1"] speechSpeed
          then Some (UrlInputRequest.mk url style duration voiceId speechSpeed)
          else None
      | None => None
      end
  | _, _, _, _, _ => None
  end.

(** [urlInputSchema.parse(req.body)] *)
Definition urlInputSchema_parse (body : UrlInputBody.t)
  : Async UrlInputRequest.t :=
  match urlInputSchema_data body with
  | Some data => ret data
  | None => throw (JsError (urlInputError body))
  end.

(** The route.  Beside the answer it returns the argument of the call
    [processVideo(video.id)] it starts and does not await, if it gets
    there. *)
Definition youtube_route (body : UrlInputBody.t)
  : Async (CreationReply * option string) :=
  try_catch
    (data <- urlInputSchema_parse body ;;
     ids <- submit env (youtubeVideoDraft (UrlInputRequest.url data))
              (UrlInputRequest.style data)
              (parseInt (UrlInputRequest.targetDuration data))
              (UrlInputRequest.voiceId data)
              (Some (UrlInputRequest.speechSpeed data)) ;;
     ret (Created (fst ids) (snd ids), Some (fst ids)))
    (fun error =>
       ret (Refused 400 (message_or "Invalid request data" error), None)).

End YoutubeRoute.

(** ** The wrappers of [services/openai] *)




(** ** [cleanupTempFiles] *)

(** What [cleanupTempFiles] hands to [console.warn]: the path and the error
    of an [unlink] that failed, or the error caught around [Promise.all]. *)
Inductive Warning : Type :=
| WarnCleanup (filePath : string) (err : JsExn)
| WarnError (error : JsExn).

(** [promise.catch(handler)] on a settled promise, with the warnings the
    handler logs. *)
Definition promise_catch {A : Type} (promise : Outcome A)
  (handler : JsExn -> Outcome A * list Warning) : Outcome A * list Warning :=
  match promise with
  | Returned a => (Returned a, [])
  | Thrown err => handler err
  end.

(** [console.warn(...)]: it logs and returns [undefined]. *)
Definition console_warn (warning : Warning) : Outcome unit * list Warning :=
  (Returned tt, [warning]).

(** [Promise.all] on settled promises: the values, or a rejection if there
    is one. *)
Fixpoint promise_all {A : Type} (promises : list (Outcome A))
  : Outcome (list A) :=
  match promises with
  | [] => Returned []
  | promise :: rest =>
      match promise, promise_all rest with
      | Returned a, Returned values => Returned (a :: values)
      | Thrown err, _ => Thrown err
      | Returned _, Thrown err => Thrown err
      end
  end.

Section Cleanup.

(** [fs.unlink], by the position of the call and the path. *)
Variable unlink : nat -> string -> Outcome unit.

(** [filePaths.map(filePath => fs.unlink(filePath).catch(err =>
    console.warn(...)))], from position [i] on. *)
Fixpoint unlink_each (i : nat) (filePaths : list string)
  : list (Outcome unit * list Warning) :=
  match filePaths with
  | [] => []
  | filePath :: rest =>
      promise_catch (unlink i filePath)
        (fun err => console_warn (WarnCleanup filePath err))
      :: unlink_each (S i) rest
  end.

(** The function: its outcome and the warnings it logged, those of the
    single paths in the order of the paths. *)
Definition cleanupTempFiles (filePaths : list string)
  : Outcome unit * list Warning :=
  let settled := unlink_each 0 filePaths in
  let warnings := flat_map snd settled in
  match promise_all (map fst settled) with
  | Returned _ => (Returned tt, warnings)
  | Thrown error => (Returned tt, (warnings ++ [WarnError error])%list)
  end.

End Cleanup.

(** * Properties *)

(** ** Facts on [JsMap] *)

Section JsMapFacts.
Context {V : Type}.
Implicit Types (m : JsMap.t V) (k : string) (v : V).

Lemma get_set_same k v m : JsMap.get k (JsMap.set k v m) = Some v.
Proof.
  induction m as [|[k' v'] m IH]; simpl.
  - now rewrite String.eqb_refl.
  - destruct (String.eqb k k') eqn:E; simpl.
    + now rewrite String.eqb_refl.
    + now rewrite E.
Qed.

Lemma get_set_other k k' v m :
  k <> k' -> JsMap.get k' (JsMap.set k v m) = JsMap.get k' m.
Proof.
  intros Hne. induction m as [|[k0 v0] m IH]; simpl.
  - destruct (String.eqb_spec k' k); congruence.
  - destruct (String.eqb_spec k k0) as [->|]; simpl.
    + destruct (String.eqb_spec k' k0); congruence.
    + now rewrite IH.
Qed.

Lemma get_None_keys k m : JsMap.get k m = None <-> ~ In k (JsMap.keys m).
Proof.
  induction m as [|[k' v'] m IH]; simpl.
  - tauto.
  - destruct (String.eqb_spec k k') as [->|Hne].
    + split; [discriminate | intros H; exfalso; auto].
    + rewrite IH. split; [intros H [E|I]; congruence | tauto].
Qed.

Lemma get_Some_In k v m : JsMap.get k m = Some v -> In (k, v) m.
Proof.
  induction m as [|[k' v'] m IH]; simpl; [discriminate|].
  destruct (String.eqb_spec k k') as [->|Hne].
  - intros [= ->]. now left.
  - intros H. right. auto.
Qed.

Lemma In_keys k v m : In (k, v) m -> In k (JsMap.keys m).
Proof. intros H. apply (in_map fst) in H. exact H. Qed.

Lemma NoDup_In_get k v m :
  NoDup (JsMap.keys m) -> In (k, v) m -> JsMap.get k m = Some v.
Proof.
  induction m as [|[k' v'] m IH]; simpl; [tauto|].
  intros Hnd [E|I].
  - injection E as -> ->. now rewrite String.eqb_refl.
  - inversion Hnd as [|? ? Hni Hnd']; subst.
    destruct (String.eqb_spec k k') as [->|Hne].
    + exfalso. apply Hni. eapply In_keys; eauto.
    + auto.
Qed.

Lemma keys_set_present k v v0 m :
  JsMap.get k m = Some v0 -> JsMap.keys (JsMap.set k v m) = JsMap.keys m.
Proof.
  induction m as [|[k' v'] m IH]; simpl; [discriminate|].
  destruct (String.eqb_spec k k') as [->|Hne]; simpl.
  - reflexivity.
  - intros H. now rewrite IH.
Qed.

Lemma set_absent k v m :
  JsMap.get k m = None -> JsMap.set k v m = (m ++ [(k, v)])%list.
Proof.
  induction m as [|[k' v'] m IH]; simpl; [reflexivity|].
  destruct (String.eqb_spec k k') as [->|Hne]; [discriminate|].
  intros H. now rewrite IH.
Qed.

Lemma set_set_same k v v' m :
  JsMap.set k v (JsMap.set k v' m) = JsMap.set k v m.
Proof.
  induction m as [|[k0 v0] m IH]; simpl.
  - now rewrite String.eqb_refl.
  - destruct (String.eqb k k0) eqn:E; simpl.
    + now rewrite String.eqb_refl.
    + now rewrite E, IH.
Qed.

Lemma In_set k v k' v' m :
  In (k', v') (JsMap.set k v m) -> (k' = k /\ v' = v) \/ In (k', v') m.
Proof.
  induction m as [|[k0 v0] m IH]; simpl.
  - intros [[= <- <-]|[]]. now left.
  - destruct (String.eqb_spec k k0) as [->|Hne]; simpl.
    + intros [[= <- <-]|I]; auto.
    + intros [E|I]; auto. destruct (IH I); auto.
Qed.

Lemma In_keys_set k v k' m :
  In k' (JsMap.keys (JsMap.set k v m)) -> k' = k \/ In k' (JsMap.keys m).
Proof.
  induction m as [|[k0 v0] m IH]; simpl.
  - intros [<-|[]]. now left.
  - destruct (String.eqb_spec k k0) as [->|Hne]; simpl.
    + intros [<-|I]; auto.
    + intros [E|I]; auto. destruct (IH I); auto.
Qed.

Lemma NoDup_keys_set k v m :
  NoDup (JsMap.keys m) -> NoDup (JsMap.keys (JsMap.set k v m)).
Proof.
  induction m as [|[k0 v0] m IH]; simpl; intros Hnd.
  - constructor; [simpl; tauto | constructor].
  - inversion Hnd as [|? ? Hni Hnd']; subst.
    destruct (String.eqb_spec k k0) as [->|Hne]; simpl.
    + now constructor.
    + constructor; auto.
      intros I. apply In_keys_set in I. destruct I; congruence.
Qed.

Variable id_of : V -> string.

Lemma filed_set k v m :
  id_of v = k -> filed id_of m -> filed id_of (JsMap.set k v m).
Proof.
  intros Hid [Hnd Hall]. split; [now apply NoDup_keys_set|].
  apply Forall_forall. intros [k' v'] I. simpl.
  apply In_set in I. destruct I as [[-> ->]|I]; [assumption|].
  rewrite Forall_forall in Hall. exact (Hall _ I).
Qed.

Lemma filed_get k v m :
  filed id_of m -> JsMap.get k m = Some v -> id_of v = k.
Proof.
  intros [_ Hall] H. apply get_Some_In in H.
  rewrite Forall_forall in Hall. exact (Hall _ H).
Qed.

Variable p : V -> bool.

Lemma find_values_In v m :
  find p (JsMap.values m) = Some v -> exists k, In (k, v) m /\ p v = true.
Proof.
  induction m as [|[k0 v0] m IH]; simpl; [discriminate|].
  destruct (p v0) eqn:E.
  - intros [= <-]. exists k0. auto.
  - intros H. destruct (IH H) as (k & I & Hp). exists k. auto.
Qed.

(** What a [find] scan returns is filed under its own [id]. *)
Lemma find_filed_get v m :
  filed id_of m -> find p (JsMap.values m) = Some v ->
  JsMap.get (id_of v) m = Some v.
Proof.
  intros [Hnd Hall] H. destruct (find_values_In _ _ H) as (k & I & _).
  rewrite Forall_forall in Hall. specialize (Hall _ I). simpl in Hall.
  subst k. now apply NoDup_In_get.
Qed.

(** Overwriting the record a scan returns by one that still satisfies the
    predicate makes the scan return the new record. *)
Lemma find_set_found v v' m :
  filed id_of m -> find p (JsMap.values m) = Some v -> p v' = true ->
  find p (JsMap.values (JsMap.set (id_of v) v' m)) = Some v'.
Proof.
  induction m as [|[k0 v0] m IH]; simpl; [discriminate|].
  intros [Hnd Hall] H Hp.
  inversion Hnd as [|? ? Hni Hnd']; subst.
  inversion Hall as [|? ? Hk0 Hall']; subst. simpl in Hk0.
  destruct (p v0) eqn:E.
  - injection H as <-. rewrite Hk0, String.eqb_refl. simpl. now rewrite Hp.
  - destruct (String.eqb_spec (id_of v) k0) as [Heq|Hne].
    + exfalso. apply Hni. rewrite <- Heq.
      destruct (find_values_In _ _ H) as (k & I & _).
      rewrite Forall_forall in Hall'. specialize (Hall' _ I). simpl in Hall'.
      subst k. eapply In_keys; eauto.
    + simpl. rewrite E. apply IH; [split|..]; assumption.
Qed.

(** Overwriting a record by one with the same verdict of the predicate
    keeps the scan successful. *)
Lemma find_set_some k v v0 m :
  JsMap.get k m = Some v0 -> p v = p v0 ->
  find p (JsMap.values m) <> None ->
  find p (JsMap.values (JsMap.set k v m)) <> None.
Proof.
  induction m as [|[k0 x] m IH]; simpl; [discriminate|].
  destruct (String.eqb_spec k k0) as [->|Hne]; simpl.
  - intros [= ->] Hp Hf. rewrite Hp. destruct (p v0); [discriminate | exact Hf].
  - intros Hg Hp Hf. destruct (p x); [discriminate | now apply IH].
Qed.

(** A record added or overwritten that satisfies the predicate makes the
    scan succeed. *)
Lemma find_set_new k v m :
  p v = true -> find p (JsMap.values (JsMap.set k v m)) <> None.
Proof.
  intros Hp. induction m as [|[k0 x] m IH]; simpl.
  - now rewrite Hp.
  - destruct (String.eqb_spec k k0) as [->|Hne]; simpl.
    + now rewrite Hp.
    + destruct (p x); [discriminate | assumption].
Qed.

End JsMapFacts.

(** ** How each store operation runs *)

Section Runs.
Variable env : Env.

Lemma bind_run {A B : Type} (m : Async A) (k : A -> Async B) (w : World) :
  bind m k w =
  match m w with
  | (Returned a, w') => k a w'
  | (Thrown e, w') => (Thrown e, w')
  end.
Proof. reflexivity. Qed.

Lemma updateVideo_run id updates w :
  updateVideo id updates w =
  match JsMap.get id (videos w) with
  | None => (Thrown (JsError "Video not found"), w)
  | Some video =>
      (Returned (mergeVideo video updates),
       mkWorld (JsMap.set id (mergeVideo video updates) (videos w))
         (summaries w) (processingJobs w) (consulted w)
         (trace w ++ [EvSetVideo id (mergeVideo video updates)]))
  end.
Proof.
  unfold updateVideo, bind, videos_get.
  destruct (JsMap.get id (videos w)); reflexivity.
Qed.

Lemma updateSummary_run id updates w :
  updateSummary id updates w =
  match JsMap.get id (summaries w) with
  | None => (Thrown (JsError "Summary not found"), w)
  | Some summary =>
      (Returned (mergeSummary summary updates),
       mkWorld (videos w)
         (JsMap.set id (mergeSummary summary updates) (summaries w))
         (processingJobs w) (consulted w)
         (trace w ++ [EvSetSummary id (mergeSummary summary updates)]))
  end.
Proof.
  unfold updateSummary, bind, summaries_get.
  destruct (JsMap.get id (summaries w)); reflexivity.
Qed.

Lemma updateProcessingJob_run id updates w :
  updateProcessingJob env id updates w =
  match JsMap.get id (processingJobs w) with
  | None => (Thrown (JsError "Processing job not found"), w)
  | Some job =>
      let updatedJob := mergeJob job updates (clock env (consulted w)) in
      (Returned updatedJob,
       mkWorld (videos w) (summaries w)
         (JsMap.set id updatedJob (processingJobs w)) (S (consulted w))
         (trace w ++ [EvSetJob id updatedJob]))
  end.
Proof.
  unfold updateProcessingJob, bind, processingJobs_get.
  destruct (JsMap.get id (processingJobs w)); reflexivity.
Qed.

Lemma createVideo_run insertVideo w :
  createVideo env insertVideo w =
  let id := uuid env (consulted w) in
  let video :=
    Video.mk id (InsertVideo.title insertVideo)
      (nullish_null (InsertVideo.originalUrl insertVideo))
      (nullish_null (InsertVideo.fileName insertVideo))
      (nullish_null (InsertVideo.duration insertVideo))
      (nullish_null (InsertVideo.thumbnailUrl insertVideo))
      (or_default (InsertVideo.status insertVideo) "uploading")
      (Some (clock env (S (consulted w)))) in
  (Returned video,
   mkWorld (JsMap.set id video (videos w)) (summaries w) (processingJobs w)
     (S (S (consulted w))) (trace w ++ [EvSetVideo id video])).
Proof. reflexivity. Qed.

Lemma createSummary_run insertSummary w :
  createSummary env insertSummary w =
  let id := uuid env (consulted w) in
  let summary :=
    Summary.mk id (InsertSummary.videoId insertSummary)
      (InsertSummary.content insertSummary)
      (InsertSummary.style insertSummary)
      (InsertSummary.targetDuration insertSummary)
      (InsertSummary.voiceId insertSummary)
      (or_default (InsertSummary.speechSpeed insertSummary) "1.0")
      None None (Some false) (Some (clock env (S (consulted w)))) in
  (Returned summary,
   mkWorld (videos w) (JsMap.set id summary (summaries w)) (processingJobs w)
     (S (S (consulted w))) (trace w ++ [EvSetSummary id summary])).
Proof. reflexivity. Qed.

Lemma createProcessingJob_run insertJob w :
  createProcessingJob env insertJob w =
  let id := uuid env (consulted w) in
  let job :=
    ProcessingJob.mk id (InsertProcessingJob.videoId insertJob)
      (InsertProcessingJob.status insertJob)
      (nullish_null (InsertProcessingJob.progress insertJob))
      (nullish_null (InsertProcessingJob.currentStep insertJob))
      (nullish_null (InsertProcessingJob.error insertJob))
      (nullish_null (InsertProcessingJob.result insertJob))
      (Some (clock env (S (consulted w))))
      (Some (clock env (S (S (consulted w))))) in
  (Returned job,
   mkWorld (videos w) (summaries w) (JsMap.set id job (processingJobs w))
     (S (S (S (consulted w)))) (trace w ++ [EvSetJob id job])).
Proof. reflexivity. Qed.

Lemma await_run (c : Capability) {A : Type} (f : nat -> Outcome A) w :
  await c f w =
  (f (consulted w),
   mkWorld (videos w) (summaries w) (processingJobs w) (S (consulted w))
     (trace w ++ [EvCall c])).
Proof. unfold await, bind, log, consult. simpl. now destruct (f (consulted w)). Qed.

End Runs.

(** ** The record store *)

Section Store.
Variable env : Env.

(** C5. [getVideo], [getSummary] and [getProcessingJob] never throw and
    leave the store as it is; in a well-formed store each returns the record
    filed under the identifier when there is one, and [undefined] (here
    [None]) exactly when the identifier is not a key of the map. *)
Theorem lookups_never_throw (id : string) (w : World) (Hwf : wf_store w) :
  (getVideo id w = (Returned (JsMap.get id (videos w)), w) /\
   (forall v, In (id, v) (videos w) <-> JsMap.get id (videos w) = Some v) /\
   (~ In id (JsMap.keys (videos w)) <-> JsMap.get id (videos w) = None)) /\
  (getSummary id w = (Returned (JsMap.get id (summaries w)), w) /\
   (forall s, In (id, s) (summaries w) <->
              JsMap.get id (summaries w) = Some s) /\
   (~ In id (JsMap.keys (summaries w)) <->
    JsMap.get id (summaries w) = None)) /\
  (getProcessingJob id w = (Returned (JsMap.get id (processingJobs w)), w) /\
   (forall j, In (id, j) (processingJobs w) <->
              JsMap.get id (processingJobs w) = Some j) /\
   (~ In id (JsMap.keys (processingJobs w)) <->
    JsMap.get id (processingJobs w) = None)).
Proof.
  destruct Hwf as ([Hv _] & [Hs _] & [Hj _]).
  repeat split;
    try (intros H; first [ now apply NoDup_In_get
                         | now apply get_Some_In
                         | now apply get_None_keys ]).
Qed.

(** C6. Each [update*] on an identifier that is not in its map throws its
    not-found error and leaves the whole state untouched; on an identifier
    that is there it returns the record in which every property, [id]
    included, is the one given in [updates] when [updates] lists it and the
    stored one otherwise, files that record under the same key and touches
    no other map; [updateProcessingJob] moreover stamps [updatedAt] with a
    new clock reading, whatever [updates] says about it.  (An update object
    lists a property with a value of the property's type.) *)
Theorem updates_merge_or_fail (id : string) (w : World)
  (uv : PartialVideo.t) (us : PartialSummary.t) (uj : PartialProcessingJob.t) :
  let over := fun (A : Type) (given : option A) (stored : A) =>
                match given with
                | Some x => x
                | None => stored
                end in
  match JsMap.get id (videos w) with
  | None => updateVideo id uv w = (Thrown (JsError "Video not found"), w)
  | Some video =>
      let updatedVideo :=
        Video.mk
          (over _ (PartialVideo.id uv) (Video.id video))
          (over _ (PartialVideo.title uv) (Video.title video))
          (over _ (PartialVideo.originalUrl uv) (Video.originalUrl video))
          (over _ (PartialVideo.fileName uv) (Video.fileName video))
          (over _ (PartialVideo.duration uv) (Video.duration video))
          (over _ (PartialVideo.thumbnailUrl uv) (Video.thumbnailUrl video))
          (over _ (PartialVideo.status uv) (Video.status video))
          (over _ (PartialVideo.createdAt uv) (Video.createdAt video)) in
      exists w',
        updateVideo id uv w = (Returned updatedVideo, w') /\
        videos w' = JsMap.set id updatedVideo (videos w) /\
        JsMap.get id (videos w') = Some updatedVideo /\
        (forall k, k <> id -> JsMap.get k (videos w') = JsMap.get k (videos w)) /\
        summaries w' = summaries w /\ processingJobs w' = processingJobs w
  end /\
  match JsMap.get id (summaries w) with
  | None => updateSummary id us w = (Thrown (JsError "Summary not found"), w)
  | Some summary =>
      let updatedSummary :=
        Summary.mk
          (over _ (PartialSummary.id us) (Summary.id summary))
          (over _ (PartialSummary.videoId us) (Summary.videoId summary))
          (over _ (PartialSummary.content us) (Summary.content summary))
          (over _ (PartialSummary.style us) (Summary.style summary))
          (over _ (PartialSummary.targetDuration us)
             (Summary.targetDuration summary))
          (over _ (PartialSummary.voiceId us) (Summary.voiceId summary))
          (over _ (PartialSummary.speechSpeed us) (Summary.speechSpeed summary))
          (over _ (PartialSummary.audioUrl us) (Summary.audioUrl summary))
          (over _ (PartialSummary.finalVideoUrl us)
             (Summary.finalVideoUrl summary))
          (over _ (PartialSummary.isEdited us) (Summary.isEdited summary))
          (over _ (PartialSummary.createdAt us) (Summary.createdAt summary)) in
      exists w',
        updateSummary id us w = (Returned updatedSummary, w') /\
        summaries w' = JsMap.set id updatedSummary (summaries w) /\
        JsMap.get id (summaries w') = Some updatedSummary /\
        (forall k, k <> id ->
           JsMap.get k (summaries w') = JsMap.get k (summaries w)) /\
        videos w' = videos w /\ processingJobs w' = processingJobs w
  end /\
  match JsMap.get id (processingJobs w) with
  | None =>
      updateProcessingJob env id uj w =
      (Thrown (JsError "Processing job not found"), w)
  | Some job =>
      let now := clock env (consulted w) in
      let updatedJob :=
        ProcessingJob.mk
          (over _ (PartialProcessingJob.id uj) (ProcessingJob.id job))
          (over _ (PartialProcessingJob.videoId uj) (ProcessingJob.videoId job))
          (over _ (PartialProcessingJob.status uj) (ProcessingJob.status job))
          (over _ (PartialProcessingJob.progress uj)
             (ProcessingJob.progress job))
          (over _ (PartialProcessingJob.currentStep uj)
             (ProcessingJob.currentStep job))
          (over _ (PartialProcessingJob.error uj) (ProcessingJob.error job))
          (over _ (PartialProcessingJob.result uj) (ProcessingJob.result job))
          (over _ (PartialProcessingJob.createdAt uj)
             (ProcessingJob.createdAt job))
          (Some now) in
      exists w',
        updateProcessingJob env id uj w = (Returned updatedJob, w') /\
        processingJobs w' = JsMap.set id updatedJob (processingJobs w) /\
        JsMap.get id (processingJobs w') = Some updatedJob /\
        (forall k, k <> id ->
           JsMap.get k (processingJobs w') = JsMap.get k (processingJobs w)) /\
        videos w' = videos w /\ summaries w' = summaries w /\
        ProcessingJob.updatedAt updatedJob = Some now
  end.
Proof.
  intros over.
  rewrite updateVideo_run, updateSummary_run, updateProcessingJob_run.
  split; [|split].
  - destruct (JsMap.get id (videos w)) as [video|]; [|reflexivity].
    cbv zeta. eexists. split; [reflexivity|]. cbn [videos summaries processingJobs].
    split; [reflexivity|]. split; [apply get_set_same|].
    split; [|split; reflexivity].
    intros k Hk. apply get_set_other. congruence.
  - destruct (JsMap.get id (summaries w)) as [summary|]; [|reflexivity].
    cbv zeta. eexists. split; [reflexivity|]. cbn [videos summaries processingJobs].
    split; [reflexivity|]. split; [apply get_set_same|].
    split; [|split; reflexivity].
    intros k Hk. apply get_set_other. congruence.
  - destruct (JsMap.get id (processingJobs w)) as [job|]; [|reflexivity].
    cbv zeta. eexists. split; [reflexivity|]. cbn [videos summaries processingJobs].
    split; [reflexivity|]. split; [apply get_set_same|].
    split; [|repeat split].
    intros k Hk. apply get_set_other. congruence.
Qed.

End Store.

(** Well-formedness of a store given by its entries. *)
Ltac concrete_filed :=
  split;
  [ repeat (constructor; [simpl; intuition discriminate|]); constructor
  | repeat (constructor; [reflexivity|]); constructor ].

Ltac concrete_wf := split; [|split]; concrete_filed.

Lemma initial_wf : wf_store initial.
Proof. concrete_wf. Qed.

Lemma submitted_wf : wf_store Scenario.submitted.
Proof. concrete_wf. Qed.

Section Creation.
Variable env : Env.

(** C4 (amended). [createVideo] files the record under the identifier
    [randomUUID()] answers with.  When that identifier is not yet a key of
    the video map, the record is appended, every record already stored stays
    where it was, the optional properties are null-coalesced, [status] is
    the draft's when it is a non-empty string and ["uploading"] otherwise,
    [createdAt] is a fresh clock reading, and [getVideo] on the returned
    identifier gives the returned record back. *)
Theorem createVideo_files_record (draft : InsertVideo.t) (w : World)
  (Hfresh : JsMap.get (uuid env (consulted w)) (videos w) = None) :
  exists video w',
    createVideo env draft w = (Returned video, w') /\
    Video.id video = uuid env (consulted w) /\
    ~ In (Video.id video) (JsMap.keys (videos w)) /\
    Video.title video = InsertVideo.title draft /\
    Video.originalUrl video =
      match InsertVideo.originalUrl draft with
      | Some (Some url) => Some url
      | _ => None
      end /\
    Video.fileName video =
      match InsertVideo.fileName draft with
      | Some (Some name) => Some name
      | _ => None
      end /\
    Video.duration video =
      match InsertVideo.duration draft with
      | Some (Some d) => Some d
      | _ => None
      end /\
    Video.thumbnailUrl video =
      match InsertVideo.thumbnailUrl draft with
      | Some (Some t) => Some t
      | _ => None
      end /\
    Video.status video =
      match InsertVideo.status draft with
      | Some s => if String.eqb s "" then "uploading" else s
      | None => "uploading"
      end /\
    Video.createdAt video = Some (clock env (S (consulted w))) /\
    videos w' = (videos w ++ [(Video.id video, video)])%list /\
    summaries w' = summaries w /\
    processingJobs w' = processingJobs w /\
    getVideo (Video.id video) w' = (Returned (Some video), w').
Proof.
  rewrite createVideo_run. cbv zeta. eexists. eexists.
  split; [reflexivity|]. cbn [Video.id Video.title Video.originalUrl
    Video.fileName Video.duration Video.thumbnailUrl Video.status
    Video.createdAt videos summaries processingJobs].
  repeat split.
  - now apply get_None_keys.
  - now destruct (InsertVideo.originalUrl draft) as [[?|]|].
  - now destruct (InsertVideo.fileName draft) as [[?|]|].
  - now destruct (InsertVideo.duration draft) as [[?|]|].
  - now destruct (InsertVideo.thumbnailUrl draft) as [[?|]|].
  - unfold or_default. destruct (InsertVideo.status draft) as [[|? ?]|];
      reflexivity.
  - now apply set_absent.
  - unfold getVideo, videos_get. cbn [videos]. now rewrite get_set_same.
Qed.

(** Both creation routes pass a draft whose status is ["processing"], and
    that is the status of the record they get back. *)
Lemma route_drafts_processing (w : World) (url originalname filename : string) :
  exists v1 w1 v2 w2,
    createVideo env (youtubeVideoDraft url) w = (Returned v1, w1) /\
    Video.status v1 = "processing" /\
    createVideo env (uploadVideoDraft originalname filename) w =
      (Returned v2, w2) /\
    Video.status v2 = "processing".
Proof.
  do 4 eexists. rewrite !createVideo_run. cbv zeta.
  repeat split; reflexivity.
Qed.

End Creation.

(** C4 as stated fails: a draft is free to carry any status text, and
    [createVideo] keeps it.  Here the draft says ["completed"], and the
    record returned, and found again by [getVideo], has that status. *)
Lemma createVideo_status_counterexample :
  let draft := InsertVideo.mk "clip" None None None None (Some "completed") in
  let run := createVideo (Scenario.env "text" None) draft initial in
  let video :=
    Video.mk "id0" "clip" None None None None "completed"
      (Some 1700000000001) in
  fst run = Returned video /\
  getVideo (Video.id video) (snd run) = (Returned (Some video), snd run) /\
  ~ (Video.status video = "uploading" \/ Video.status video = "processing").
Proof.
  cbv zeta. split; [reflexivity|]. split; [reflexivity|].
  simpl. intros [H|H]; discriminate H.
Qed.

(** The first record of a fresh process: the draft of the YouTube route is
    filed under [id0]. *)
Lemma createVideo_files_record_witness :
  exists video w',
    createVideo (Scenario.env "text" None)
      (youtubeVideoDraft "https://youtu.be/abc") initial =
      (Returned video, w') /\
    Video.id video = "id0" /\ Video.status video = "processing" /\
    getVideo "id0" w' = (Returned (Some video), w').
Proof.
  destruct (createVideo_files_record (Scenario.env "text" None)
              (youtubeVideoDraft "https://youtu.be/abc") initial eq_refl)
    as (video & w' & Hrun & Hid & _ & _ & _ & _ & _ & _ & Hst & _ & _ & _ & _ & Hget).
  exists video, w'. rewrite <- Hid at 2. auto.
Defined.

(** Looking up a stored video and an unknown summary after one submission. *)
Lemma lookups_never_throw_witness :
  getVideo "id0" Scenario.submitted =
    (Returned (JsMap.get "id0" (videos Scenario.submitted)),
     Scenario.submitted) /\
  getSummary "nope" Scenario.submitted =
    (Returned (JsMap.get "nope" (summaries Scenario.submitted)),
     Scenario.submitted).
Proof.
  destruct (lookups_never_throw "id0" _ submitted_wf)
    as ((Hv & _) & _).
  destruct (lookups_never_throw "nope" _ submitted_wf)
    as (_ & (Hs & _) & _).
  split; assumption.
Defined.

(** ** The summary routes *)

Section Routes.
Variable env : Env.

(** C7. [PATCH /api/summaries/:id] with a non-empty [content] on a stored
    summary answers 200 with the summary whose [content] is the given text,
    character for character, and whose [isEdited] is [true], every other
    property being as before; [getSummary] on the same identifier then
    returns exactly that record. *)
Theorem patch_summary_sets_edited (id content : string) (s : Summary.t)
  (w : World)
  (Hstored : JsMap.get id (summaries w) = Some s)
  (Hnonempty : content <> "") :
  let edited :=
    Summary.mk (Summary.id s) (Summary.videoId s) content (Summary.style s)
      (Summary.targetDuration s) (Summary.voiceId s) (Summary.speechSpeed s)
      (Summary.audioUrl s) (Summary.finalVideoUrl s) (Some true)
      (Summary.createdAt s) in
  exists w',
    patch_summary_route env id (Some content) w =
      (Returned (mkResponse 200 (JsonSummary edited)), w') /\
    getSummary id w' = (Returned (Some edited), w') /\
    Summary.content edited = content /\
    Summary.isEdited edited = Some true /\
    videos w' = videos w /\ processingJobs w' = processingJobs w.
Proof.
  intros edited.
  unfold patch_summary_route, try_catch, summaryUpdateSchema_parse.
  destruct content as [|c content]; [congruence|].
  cbn [truthy]. rewrite bind_run. unfold ret at 1.
  rewrite bind_run, updateSummary_run, Hstored.
  eexists. split; [reflexivity|].
  unfold getSummary, summaries_get. cbn [summaries videos processingJobs].
  rewrite get_set_same. repeat split.
Qed.

(** C8 (amended). [POST /api/summaries/:id/regenerate-audio] on a stored
    summary, filed under its own [id].  When speech synthesis and the file
    write both resolve, it answers 200, having set [audioUrl] to
    [path.join(cwd, "temp", videoId + "_speech_updated.mp3")], a reference
    fixed by the summary's [videoId] alone, and having left [content] and
    every other property as they were; the summary map changes at that key
    only.  When synthesis rejects, or synthesis resolves and the write
    rejects, it answers 500 with the message of the rejection, and the
    summary map is as before. *)
Theorem regenerate_audio_sets_fixed_path (id : string) (s : Summary.t)
  (w : World)
  (Hstored : JsMap.get id (summaries w) = Some s)
  (Hfiled : Summary.id s = id) :
  let audioOutputPath :=
    path_join env [cwd env; "temp"; Summary.videoId s ++ "_speech_updated.mp3"]
  in
  let updated :=
    Summary.mk (Summary.id s) (Summary.videoId s) (Summary.content s)
      (Summary.style s) (Summary.targetDuration s) (Summary.voiceId s)
      (Summary.speechSpeed s) (Some audioOutputPath) (Summary.finalVideoUrl s)
      (Summary.isEdited s) (Summary.createdAt s) in
  let failure := fun (e : JsExn) =>
    exists w',
      regenerate_audio_route env id w =
        (Returned
           (mkResponse 500
              (JsonMessage (message_or "Failed to regenerate audio" e))),
         w') /\
      summaries w' = summaries w in
  match generateSpeech_oracle env (consulted w) (Summary.content s)
          (Summary.voiceId s) (Summary.speechSpeed s) with
  | Returned speechBuffer =>
      match writeFile_oracle env (S (consulted w)) audioOutputPath
              speechBuffer with
      | Returned _ =>
          exists w',
            regenerate_audio_route env id w =
              (Returned (mkResponse 200 (JsonSummary updated)), w') /\
            summaries w' = JsMap.set id updated (summaries w) /\
            getSummary id w' = (Returned (Some updated), w') /\
            Summary.content updated = Summary.content s /\
            Summary.audioUrl updated = Some audioOutputPath
      | Thrown e => failure e
      end
  | Thrown e => failure e
  end.
Proof.
  intros audioOutputPath updated failure. subst failure. cbv beta.
  assert (Hspeech : forall w1,
            (generateSpeech env (Summary.content s) (Summary.voiceId s)
               (Summary.speechSpeed s)) w = w1 ->
            regenerate_audio_route env id w =
            try_catch
              (fun w0 =>
                 match w1 with
                 | (Returned speechBuffer, w2) =>
                     (writeFile env audioOutputPath speechBuffer ;;;
                      updatedSummary <- updateSummary (Summary.id s)
                                          (audioUpdate audioOutputPath) ;;
                      ret (mkResponse 200 (JsonSummary updatedSummary))) w2
                 | (Thrown e, w2) => (Thrown e, w2)
                 end)
              (fun error =>
                 ret (mkResponse 500
                        (JsonMessage
                           (message_or "Failed to regenerate audio" error))))
              w).
  { intros w1 <-. unfold regenerate_audio_route, try_catch, getSummary.
    rewrite bind_run. unfold summaries_get at 1. rewrite Hstored.
    cbv zeta. rewrite bind_run. reflexivity. }
  rewrite (Hspeech _ eq_refl). clear Hspeech.
  unfold try_catch, generateSpeech, writeFile. rewrite await_run.
  destruct (generateSpeech_oracle env (consulted w) (Summary.content s)
              (Summary.voiceId s) (Summary.speechSpeed s)) as [speech|e].
  - rewrite bind_run, await_run. cbn [consulted].
    destruct (writeFile_oracle env (S (consulted w)) audioOutputPath speech)
      as [[]|e'].
    + rewrite bind_run, updateSummary_run. cbn [summaries].
      rewrite Hfiled, Hstored. cbv beta iota zeta.
      eexists. split; [reflexivity|].
      cbn [summaries]. unfold getSummary, summaries_get. cbn [summaries].
      split; [reflexivity|]. rewrite get_set_same. repeat split.
    + eexists. split; reflexivity.
  - eexists. split; reflexivity.
Qed.

End Routes.

(** C8 as stated fails: regenerating twice gives the same audio reference.
    After one regeneration the summary [id2] holds
    ["/app/temp/id0_speech_updated.mp3"]; the next regeneration answers 200
    with that very reference. *)
Lemma regenerate_audio_counterexample :
  let env := Scenario.env "text" None in
  let once := snd (regenerate_audio_route env "id2"
                     Scenario.submitted) in
  let stored := option_map Summary.audioUrl (JsMap.get "id2" (summaries once)) in
  let again :=
    match fst (regenerate_audio_route env "id2" once) with
    | Returned (mkResponse 200 (JsonSummary s)) => Some (Summary.audioUrl s)
    | _ => None
    end in
  stored = Some (Some "/app/temp/id0_speech_updated.mp3") /\
  again = Some (Some "/app/temp/id0_speech_updated.mp3") /\
  ~ (again <> stored).
Proof.
  cbv zeta. split; [reflexivity|]. split; [reflexivity|].
  intros H. apply H. reflexivity.
Qed.

(** Editing the summary of the submitted item. *)
Lemma patch_summary_sets_edited_witness :
  fst (patch_summary_route (Scenario.env "text" None) "id2"
         (Some "My own words") Scenario.submitted) =
    Returned
      (mkResponse 200
         (JsonSummary
            (Summary.mk "id2" "id0" "My own words" "educational" 30 "nova"
               "1.1" None None (Some true) (Some 1700000000003)))).
Proof.
  destruct (patch_summary_sets_edited (Scenario.env "text" None) "id2"
              "My own words" _ Scenario.submitted eq_refl)
    as (w' & Hrun & _).
  - discriminate.
  - rewrite Hrun. reflexivity.
Defined.

(** Regenerating the audio of the submitted item, all services answering. *)
Lemma regenerate_audio_sets_fixed_path_witness :
  fst (regenerate_audio_route (Scenario.env "text" None) "id2"
         Scenario.submitted) =
    Returned
      (mkResponse 200
         (JsonSummary
            (Summary.mk "id2" "id0" "" "educational" 30 "nova" "1.1"
               (Some "/app/temp/id0_speech_updated.mp3") None (Some false)
               (Some 1700000000003)))).
Proof.
  pose proof (regenerate_audio_sets_fixed_path (Scenario.env "text" None)
                "id2"
                (Summary.mk "id2" "id0" "" "educational" 30 "nova" "1.1" None
                   None (Some false) (Some 1700000000003))
                Scenario.submitted eq_refl eq_refl) as H.
  cbv zeta in H. cbn [Scenario.env generateSpeech_oracle writeFile_oracle
                      Scenario.settle] in H.
  destruct H as (w' & Hrun & _). rewrite Hrun. reflexivity.
Defined.

(** ** Taking a run apart *)

Section Inversion.
Variable env : Env.

Lemma bind_inv {A B : Type} (m : Async A) (k : A -> Async B) w r w' :
  bind m k w = (r, w') ->
  (exists a w1, m w = (Returned a, w1) /\ k a w1 = (r, w')) \/
  (exists e, m w = (Thrown e, w') /\ r = Thrown e).
Proof.
  unfold bind. destruct (m w) as [[a|e] w1]; intros H.
  - left. eauto.
  - right. injection H as <- <-. eauto.
Qed.

Lemma bind_inv_returned {A B : Type} (m : Async A) (k : A -> Async B) w b w' :
  bind m k w = (Returned b, w') ->
  exists a w1, m w = (Returned a, w1) /\ k a w1 = (Returned b, w').
Proof.
  intros H. apply bind_inv in H.
  destruct H as [H|(e & _ & H)]; [exact H | discriminate H].
Qed.

Lemma await_inv (c : Capability) {A : Type} (f : nat -> Outcome A) w r w' :
  await c f w = (r, w') ->
  f (consulted w) = r /\
  w' = mkWorld (videos w) (summaries w) (processingJobs w) (S (consulted w))
         (trace w ++ [EvCall c]).
Proof. rewrite await_run. intros [= <- <-]. split; reflexivity. Qed.

Lemma updateVideo_inv id updates w video' w' :
  updateVideo id updates w = (Returned video', w') ->
  exists video,
    JsMap.get id (videos w) = Some video /\
    video' = mergeVideo video updates /\
    w' = mkWorld (JsMap.set id video' (videos w)) (summaries w)
           (processingJobs w) (consulted w)
           (trace w ++ [EvSetVideo id video']).
Proof.
  rewrite updateVideo_run.
  destruct (JsMap.get id (videos w)) as [video|]; [|discriminate].
  intros [= <- <-]. eauto.
Qed.

Lemma updateSummary_inv id updates w summary' w' :
  updateSummary id updates w = (Returned summary', w') ->
  exists summary,
    JsMap.get id (summaries w) = Some summary /\
    summary' = mergeSummary summary updates /\
    w' = mkWorld (videos w) (JsMap.set id summary' (summaries w))
           (processingJobs w) (consulted w)
           (trace w ++ [EvSetSummary id summary']).
Proof.
  rewrite updateSummary_run.
  destruct (JsMap.get id (summaries w)) as [summary|]; [|discriminate].
  intros [= <- <-]. eauto.
Qed.

Lemma updateProcessingJob_inv id updates w job' w' :
  updateProcessingJob env id updates w = (Returned job', w') ->
  exists job,
    JsMap.get id (processingJobs w) = Some job /\
    job' = mergeJob job updates (clock env (consulted w)) /\
    w' = mkWorld (videos w) (summaries w)
           (JsMap.set id job' (processingJobs w)) (S (consulted w))
           (trace w ++ [EvSetJob id job']).
Proof.
  rewrite updateProcessingJob_run.
  destruct (JsMap.get id (processingJobs w)) as [job|]; [|discriminate].
  cbv zeta. intros [= <- <-]. eauto.
Qed.

(** A successful acquisition invokes the services of one variant, updates
    the item and writes nothing else. *)
Lemma acquireAudio_inv videoId video w audioPath w' :
  acquireAudio env videoId video w = (Returned audioPath, w') ->
  exists evs stored updated,
    JsMap.get videoId (videos w) = Some stored /\
    Video.id updated = Video.id stored /\
    videos w' = JsMap.set videoId updated (videos w) /\
    summaries w' = summaries w /\
    processingJobs w' = processingJobs w /\
    trace w' = (trace w ++ evs)%list /\
    job_writes evs = [] /\
    console_errors evs = [] /\
    (calls evs = [DownloadYouTubeVideo] \/
     calls evs = [GetVideoMetadata; ExtractAudioFromFile]).
Proof.
  unfold acquireAudio.
  destruct (truthy_value (Video.originalUrl video)) as [url|].
  - intros H.
    apply bind_inv_returned in H. destruct H as (metadata & w1 & H1 & H).
    apply await_inv in H1. destruct H1 as [_ ->].
    apply bind_inv_returned in H. destruct H as (v' & w2 & H2 & H).
    apply updateVideo_inv in H2. destruct H2 as (stored & Hs & -> & ->).
    injection H as <- <-. cbn in *.
    eexists [_; _], stored, (mergeVideo stored (metadataUpdate metadata)).
    rewrite <- app_assoc. repeat split; eauto.
  - destruct (truthy_value (Video.fileName video)) as [name|];
      [|discriminate].
    cbv zeta. intros H.
    apply bind_inv_returned in H. destruct H as (metadata & w1 & H1 & H).
    apply await_inv in H1. destruct H1 as [_ ->].
    apply bind_inv_returned in H. destruct H as (path & w2 & H2 & H).
    apply await_inv in H2. destruct H2 as [_ ->].
    apply bind_inv_returned in H. destruct H as (v' & w3 & H3 & H).
    apply updateVideo_inv in H3. destruct H3 as (stored & Hs & -> & ->).
    injection H as <- <-. cbn in *.
    eexists [_; _; _], stored,
      (mergeVideo stored (durationUpdate (FileMetadata.duration metadata))).
    rewrite <- !app_assoc. repeat split; eauto.
Qed.

End Inversion.

(** ** Successful runs of the pipeline *)

Section TraceFacts.

Lemma job_writes_app evs1 evs2 :
  job_writes (evs1 ++ evs2) = (job_writes evs1 ++ job_writes evs2)%list.
Proof.
  induction evs1 as [|ev evs1 IH]; [reflexivity|].
  destruct ev; simpl; now rewrite ?IH.
Qed.

Lemma calls_app evs1 evs2 :
  calls (evs1 ++ evs2) = (calls evs1 ++ calls evs2)%list.
Proof.
  induction evs1 as [|ev evs1 IH]; [reflexivity|].
  destruct ev; simpl; now rewrite ?IH.
Qed.

Lemma console_errors_app evs1 evs2 :
  console_errors (evs1 ++ evs2) =
  (console_errors evs1 ++ console_errors evs2)%list.
Proof.
  induction evs1 as [|ev evs1 IH]; [reflexivity|].
  destruct ev; simpl; now rewrite ?IH.
Qed.

End TraceFacts.

Section Success.
Variable env : Env.

Lemma find_set_fresh {V : Type} (p : V -> bool) k v (m : JsMap.t V) :
  find p (JsMap.values m) = None -> p v = true ->
  find p (JsMap.values (JsMap.set k v m)) = Some v.
Proof.
  intros Hf Hp. induction m as [|[k0 x] m IH]; simpl in *.
  - now rewrite Hp.
  - destruct (p x) eqn:E; [discriminate|].
    destruct (String.eqb_spec k k0) as [->|Hne]; simpl.
    + now rewrite Hp.
    + rewrite E. auto.
Qed.

Lemma fetchOrCreateSummary_inv videoId w s w' :
  fetchOrCreateSummary env videoId w = (Returned s, w') ->
  exists evs,
    working_summary env videoId (summaries w) (consulted w) s (summaries w') /\
    videos w' = videos w /\
    processingJobs w' = processingJobs w /\
    trace w' = (trace w ++ evs)%list /\
    job_writes evs = [] /\ calls evs = [] /\ console_errors evs = [].
Proof.
  unfold fetchOrCreateSummary, getSummaryByVideoId, bind, summaries_values, ret,
    working_summary.
  fold (summary_of videoId).
  destruct (find (summary_of videoId) (JsMap.values (summaries w))) as [s0|].
  - intros [= <- <-]. exists []. rewrite app_nil_r. repeat split. left. auto.
  - rewrite createSummary_run. cbv zeta. intros [= <- <-].
    eexists [_]. cbn. repeat split. right. auto.
Qed.

Ltac step H a w Hs :=
  apply bind_inv_returned in H; destruct H as (a & w & Hs & H).

Ltac tidy := cbn [videos summaries processingJobs consulted trace] in *.

Ltac job_step H j w Hs :=
  step H j w Hs; apply updateProcessingJob_inv in Hs;
  let j0 := fresh "j" in
  let Hj := fresh "Hj" in
  destruct Hs as (j0 & Hj & -> & ->); tidy;
  rewrite ?get_set_same in Hj; injection Hj as <-.

Ltac await_step H a w Hs :=
  step H a w Hs; apply await_inv in Hs; destruct Hs as [Hs ->]; tidy.

(** What a run of the [try] block that reaches its end has done. *)
Lemma processVideo_try_inv videoId w w' :
  processVideo_try env videoId w = (Returned tt, w') ->
  let jid := uuid env (consulted w) in
  let audioOutputPath :=
    path_join env [cwd env; "temp"; videoId ++ "_speech.mp3"] in
  exists video evs j0 j10 j30 j50 j70 j90 j100,
  exists s x res n n' transcript analysis m vfinal,
    JsMap.get videoId (videos w) = Some video /\
    trace w' = (trace w ++ evs)%list /\
    job_writes evs =
      [(jid, j0); (jid, j10); (jid, j30); (jid, j50); (jid, j70); (jid, j90);
       (jid, j100)] /\
    map progress_step [j0; j10; j30; j50; j70; j90; j100] = checkpoints /\
    map ProcessingJob.status [j0; j10; j30; j50; j70; j90; j100] =
      ["processing"; "processing"; "processing"; "processing"; "processing";
       "processing"; "completed"] /\
    ProcessingJob.videoId j100 = videoId /\
    ProcessingJob.result j100 =
      Some (JobResult.mk (Summary.id s) audioOutputPath) /\
    processingJobs w' = JsMap.set jid j100 (processingJobs w) /\
    (calls evs =
       [DownloadYouTubeVideo; ReadFile; TranscribeAudio; AnalyzeVideoContent;
        GenerateSummary; GenerateSpeech; WriteFile] \/
     calls evs =
       [GetVideoMetadata; ExtractAudioFromFile; ReadFile; TranscribeAudio;
        AnalyzeVideoContent; GenerateSummary; GenerateSpeech; WriteFile]) /\
    console_errors evs = [] /\
    working_summary env videoId (summaries w) n s m /\
    JsMap.get (Summary.id s) m = Some x /\
    generateSummary_oracle env n' transcript (Summary.style s)
      (Summary.targetDuration s) analysis = Returned res /\
    summaries w' =
      JsMap.set (Summary.id s)
        (mergeSummary (mergeSummary x (contentUpdate (SummaryResult.content res)))
           (mediaUpdate audioOutputPath audioOutputPath)) m /\
    JsMap.get videoId (videos w') = Some vfinal /\
    Video.status vfinal = "completed" /\
    Video.id vfinal = Video.id video.
Proof.
  intros H. cbv zeta. unfold processVideo_try, getVideo in H.
  step H found w0 Hget. unfold videos_get in Hget. injection Hget as <- <-.
  destruct (JsMap.get videoId (videos w)) as [video|] eqn:Hvideo;
    [|discriminate H].
  step H job w1 Hjob. rewrite createProcessingJob_run in Hjob. cbv zeta in Hjob.
  injection Hjob as <- <-.
  cbn [ProcessingJob.id] in H.
  job_step H j10 w2 H2.
  step H audioPath w3 H3. apply acquireAudio_inv in H3.
  destruct H3 as (evs3 & stored & updated & Hstored & Hid3 & Hv3 & Hs3 & Hj3 &
                  Ht3 & Hw3 & He3 & Hc3).
  tidy. unfold summarize in H. cbn [ProcessingJob.id] in H.
  step H j30 w4 H4; apply updateProcessingJob_inv in H4.
  destruct H4 as (j & Hj & -> & ->). tidy.
  rewrite Hj3, get_set_same in Hj. injection Hj as <-.
  await_step H audioBuffer w5 H5.
  await_step H transcript w6 H6.
  job_step H j50 w7 H7.
  await_step H analysis w8 H8.
  step H s w9 H9. apply fetchOrCreateSummary_inv in H9.
  destruct H9 as (evs9 & Hws & Hv9 & Hj9 & Ht9 & Hw9 & Hc9 & He9). tidy.
  await_step H res w10 H10.
  step H s1 w11 H11. apply updateSummary_inv in H11.
  destruct H11 as (x & Hx & -> & ->). tidy.
  step H j70 w12 H12; apply updateProcessingJob_inv in H12.
  destruct H12 as (j & Hj & -> & ->). tidy.
  rewrite Hj9, get_set_same in Hj. injection Hj as <-.
  await_step H speechBuffer w13 H13. cbv zeta in H.
  await_step H written w14 H14.
  job_step H j90 w15 H15.
  step H s2 w16 H16. apply updateSummary_inv in H16.
  destruct H16 as (x2 & Hx2 & -> & ->). tidy.
  rewrite get_set_same in Hx2. injection Hx2 as <-.
  job_step H j100 w17 H17.
  step H v' w18 H18. apply updateVideo_inv in H18.
  destruct H18 as (v & Hv & -> & ->). tidy.
  unfold setTimeout_cleanup, log in H. injection H as <-. tidy.
  rewrite Hv9, Hv3 in Hv. rewrite get_set_same in Hv. injection Hv as <-.
  rewrite Hs3 in Hws.
  rewrite ?Hj9, ?Hj3, ?Hv9, ?Hv3, ?Ht9, ?Ht3, ?set_set_same.
  exists video. eexists. do 7 eexists. exists s, x, res. do 2 eexists.
  exists transcript, analysis. do 2 eexists.
  split; [reflexivity|].
  split; [rewrite <- !app_assoc; reflexivity|].
  split.
  { repeat (progress (rewrite ?job_writes_app, ?Hw3, ?Hw9; simpl)).
    reflexivity. }
  split; [reflexivity|]. split; [reflexivity|]. split; [reflexivity|].
  split; [reflexivity|]. split; [reflexivity|].
  split.
  { repeat (progress (rewrite ?calls_app, ?Hc9; simpl)).
    destruct Hc3 as [-> | ->]; [left | right]; reflexivity. }
  split.
  { repeat (progress (rewrite ?console_errors_app, ?He3, ?He9; simpl)).
    reflexivity. }
  split; [exact Hws|]. split; [exact Hx|]. split; [exact H10|].
  split; [reflexivity|].
  split; [apply get_set_same|]. split; [reflexivity|].
  cbn. rewrite Hid3. congruence.
Qed.

End Success.

Section Completion.
Variable env : Env.

Lemma working_summary_filed videoId before n s after :
  filed Summary.id before ->
  working_summary env videoId before n s after ->
  filed Summary.id after /\
  find (summary_of videoId) (JsMap.values after) = Some s /\
  JsMap.get (Summary.id s) after = Some s.
Proof.
  intros Hf [[Hfind ->]|(Hnone & Hs & ->)].
  - split; [assumption|]. split; [assumption|].
    eapply find_filed_get; eauto.
  - split; [now apply filed_set|].
    split; [|apply get_set_same].
    apply find_set_fresh; [assumption|].
    subst s. unfold summary_of. cbn. apply String.eqb_refl.
Qed.

(** C1 (amended). A run of [processVideo] whose [try] block reaches its end
    writes the job map seven times, always under the identifier of the job
    it created, with the (progress, currentStep) pairs (0, analyzing),
    (10, analyzing), (30, transcribing), (50, summarizing),
    (70, generating_audio), (90, creating_video), (100, completed), in this
    order, the last record having status [completed] and being the one left
    in the store; nothing is handed to [console.error]; and the summary
    found for the item afterwards carries, as [content], the text the
    summary generator returned. *)
Theorem completed_run_checkpoints (videoId : string) (w w' : World)
  (Hfiled : filed Summary.id (summaries w))
  (Hrun : processVideo_try env videoId w = (Returned tt, w')) :
  exists evs jid j0 j10 j30 j50 j70 j90 j100,
  exists s res n transcript style targetDuration analysis,
    processVideo env videoId w = (Returned tt, w') /\
    trace w' = (trace w ++ evs)%list /\
    job_writes evs =
      [(jid, j0); (jid, j10); (jid, j30); (jid, j50); (jid, j70); (jid, j90);
       (jid, j100)] /\
    map progress_step [j0; j10; j30; j50; j70; j90; j100] = checkpoints /\
    ProcessingJob.status j100 = "completed" /\
    getProcessingJob jid w' = (Returned (Some j100), w') /\
    console_errors evs = [] /\
    getSummaryByVideoId videoId w' = (Returned (Some s), w') /\
    generateSummary_oracle env n transcript style targetDuration analysis =
      Returned res /\
    Summary.content s = SummaryResult.content res.
Proof.
  pose proof (processVideo_try_inv env _ _ _ Hrun) as Hinv. cbv zeta in Hinv.
  destruct Hinv as (video & evs & j0 & j10 & j30 & j50 & j70 & j90 & j100 &
    s & x & res & n & n' & transcript & analysis & m & vfinal & Hvideo &
    Htrace & Hwrites & Hsteps & Hstatus & Hvid & Hresult & Hjobs & Hcalls &
    Herrors & Hws & Hx & Hres & Hsum & Hfinal & Hcompleted & _).
  destruct (working_summary_filed _ _ _ _ _ Hfiled Hws) as (Hm & Hfind & Hget).
  rewrite Hget in Hx. injection Hx as <-.
  exists evs, (uuid env (consulted w)), j0, j10, j30, j50, j70, j90, j100.
  eexists. exists res, n', transcript, (Summary.style s),
    (Summary.targetDuration s), analysis.
  split; [unfold processVideo, try_catch; now rewrite Hrun|].
  split; [assumption|]. split; [assumption|]. split; [assumption|].
  split; [now injection Hstatus|].
  split.
  { unfold getProcessingJob, processingJobs_get. rewrite Hjobs.
    now rewrite get_set_same. }
  split; [assumption|].
  split.
  { unfold getSummaryByVideoId, bind, summaries_values, ret.
    fold (summary_of videoId). rewrite Hsum.
    erewrite find_set_found; eauto.
    unfold summary_of. cbn.
    destruct (find_values_In _ _ _ Hfind) as (_ & _ & Hp). exact Hp. }
  split; [exact Hres|]. reflexivity.
Qed.

Lemma In_find_some {V : Type} (p : V -> bool) k v (m : JsMap.t V) :
  In (k, v) m -> p v = true -> find p (JsMap.values m) <> None.
Proof.
  induction m as [|[k0 x] m IH]; simpl; [tauto|].
  intros [[= -> ->]|I] Hp.
  - now rewrite Hp.
  - destruct (p x); [discriminate | auto].
Qed.

(** C10. A run of the [try] block that reaches its end leaves, on every
    summary of the item that was in the store before, the identifier, the
    owning item, the style, the target duration, the voice, the speech
    speed, the edited flag and the creation stamp as they were: the only
    properties it may change are [content], [audioUrl], [finalVideoUrl]. *)
Theorem completed_run_keeps_settings (videoId key : string) (w w' : World)
  (s0 : Summary.t)
  (Hstored : JsMap.get key (summaries w) = Some s0)
  (Hitem : Summary.videoId s0 = videoId)
  (Hrun : processVideo_try env videoId w = (Returned tt, w')) :
  exists s1,
    JsMap.get key (summaries w') = Some s1 /\
    Summary.id s1 = Summary.id s0 /\
    Summary.videoId s1 = Summary.videoId s0 /\
    Summary.style s1 = Summary.style s0 /\
    Summary.targetDuration s1 = Summary.targetDuration s0 /\
    Summary.voiceId s1 = Summary.voiceId s0 /\
    Summary.speechSpeed s1 = Summary.speechSpeed s0 /\
    Summary.isEdited s1 = Summary.isEdited s0 /\
    Summary.createdAt s1 = Summary.createdAt s0.
Proof.
  pose proof (processVideo_try_inv env _ _ _ Hrun) as Hinv. cbv zeta in Hinv.
  destruct Hinv as (video & evs & j0 & j10 & j30 & j50 & j70 & j90 & j100 &
    s & x & res & n & n' & transcript & analysis & m & vfinal & _ &
    _ & _ & _ & _ & _ & _ & _ & _ & _ & Hws & Hx & _ & Hsum & _).
  destruct Hws as [[Hfind ->]|(Hnone & _)].
  - rewrite Hsum.
    destruct (String.eqb_spec (Summary.id s) key) as [Heq|Hne].
    + rewrite Heq in *. rewrite Hstored in Hx. injection Hx as <-.
      rewrite get_set_same. eexists. split; [reflexivity|].
      repeat split.
    + rewrite get_set_other by assumption. exists s0. repeat split.
      assumption.
  - exfalso. apply get_Some_In in Hstored.
    apply (In_find_some (summary_of videoId)) in Hstored; [contradiction|].
    unfold summary_of. rewrite Hitem. apply String.eqb_refl.
Qed.

End Completion.

(** C1 as stated fails on its last clause: nothing in the pipeline looks at
    the text the summary generator returns.  When the generator answers with
    the empty text and the other services succeed, the [try] block reaches
    its end, the job is completed at 100, and the item's summary has empty
    content. *)
Lemma completed_run_empty_content_counterexample :
  let run := processVideo (Scenario.env "" None) "id0"
               Scenario.submitted in
  fst (processVideo_try (Scenario.env "" None) "id0"
         Scenario.submitted) = Returned tt /\
  fst run = Returned tt /\
  option_map (fun j => (ProcessingJob.status j, ProcessingJob.progress j))
    (find (job_of "id0") (JsMap.values (processingJobs (snd run)))) =
    Some ("completed", Some 100) /\
  option_map Summary.content
    (find (summary_of "id0") (JsMap.values (summaries (snd run)))) = Some "" /\
  ~ (option_map Summary.content
       (find (summary_of "id0") (JsMap.values (summaries (snd run)))) <>
     Some "").
Proof.
  cbv zeta.
  split; [vm_compute; reflexivity|]. split; [vm_compute; reflexivity|].
  split; [vm_compute; reflexivity|]. split; [vm_compute; reflexivity|].
  intros H. apply H. vm_compute. reflexivity.
Qed.

(** The pipeline on the submitted item, all services answering. *)
Lemma completed_run_checkpoints_witness :
  let w' := snd (processVideo_try (Scenario.env "A short summary." None) "id0"
                   Scenario.submitted) in
  processVideo (Scenario.env "A short summary." None) "id0"
    Scenario.submitted = (Returned tt, w') /\
  option_map Summary.content
    (find (summary_of "id0") (JsMap.values (summaries w'))) =
    Some "A short summary.".
Proof.
  intros w'.
  destruct (completed_run_checkpoints (Scenario.env "A short summary." None)
              "id0" Scenario.submitted w'
              ltac:(concrete_filed) ltac:(vm_compute; reflexivity))
    as (evs & jid & j0 & j10 & j30 & j50 & j70 & j90 & j100 & s & res & n &
        transcript & style & targetDuration & analysis & Hrun & _).
  split; [exact Hrun | vm_compute; reflexivity].
Defined.

(** The settings the submission asked for are still there after the run. *)
Lemma completed_run_keeps_settings_witness :
  exists s1,
    JsMap.get "id2"
      (summaries
         (snd (processVideo_try (Scenario.env "A short summary." None) "id0"
                 Scenario.submitted))) = Some s1 /\
    Summary.style s1 = "educational" /\
    Summary.voiceId s1 = "nova".
Proof.
  destruct (completed_run_keeps_settings (Scenario.env "A short summary." None)
              "id0" "id2" Scenario.submitted
              (snd (processVideo_try (Scenario.env "A short summary." None)
                      "id0" Scenario.submitted))
              (Summary.mk "id2" "id0" "" "educational" 30 "nova" "1.1" None
                 None (Some false) (Some 1700000000003))
              ltac:(vm_compute; reflexivity) ltac:(vm_compute; reflexivity)
              ltac:(vm_compute; reflexivity))
    as (s1 & Hget & _ & _ & Hstyle & _ & Hvoice & _).
  exists s1. repeat split; assumption.
Defined.

(** ** Failing runs of the pipeline *)

Section Failure.
Variable env : Env.
Variable videoId : string.

Lemma preserves_ret {A : Type} (I : World -> Prop) (a : A) :
  preserves I (ret a).
Proof. intros w H. exact H. Qed.

Lemma preserves_throw {A : Type} (I : World -> Prop) (e : JsExn) :
  preserves I (@throw A e).
Proof. intros w H. exact H. Qed.

Lemma preserves_bind {A B : Type} (I : World -> Prop) (m : Async A)
  (k : A -> Async B) :
  preserves I m -> (forall a, preserves I (k a)) -> preserves I (bind m k).
Proof.
  intros Hm Hk w H. unfold bind. specialize (Hm w H).
  destruct (m w) as [[a|e] w1]; simpl in *.
  - apply Hk, Hm.
  - exact Hm.
Qed.

Lemma ready_await (c : Capability) {A : Type} (f : nat -> Outcome A) :
  preserves (failure_ready videoId) (await c f).
Proof. intros w H. rewrite await_run. exact H. Qed.

Lemma ready_log (ev : Event) : preserves (failure_ready videoId) (log ev).
Proof. intros w H. exact H. Qed.

Lemma ready_updateVideo id updates :
  preserves (failure_ready videoId) (updateVideo id updates).
Proof.
  intros w (Hv & Hj). rewrite updateVideo_run.
  destruct (JsMap.get id (videos w)) as [video|] eqn:E; [|now split].
  split; [|exact Hj]. simpl.
  destruct (String.eqb_spec id videoId) as [->|Hne].
  - rewrite get_set_same. discriminate.
  - now rewrite get_set_other.
Qed.

Lemma ready_updateSummary id updates :
  preserves (failure_ready videoId) (updateSummary id updates).
Proof.
  intros w H. rewrite updateSummary_run.
  destruct (JsMap.get id (summaries w)); exact H.
Qed.

Lemma ready_fetchOrCreateSummary :
  preserves (failure_ready videoId) (fetchOrCreateSummary env videoId).
Proof.
  intros w H.
  unfold fetchOrCreateSummary, getSummaryByVideoId, bind, summaries_values, ret.
  destruct (find _ (JsMap.values (summaries w))); [exact H|].
  rewrite createSummary_run. exact H.
Qed.

Lemma ready_updateProcessingJob id updates :
  PartialProcessingJob.id updates = None ->
  PartialProcessingJob.videoId updates = None ->
  preserves (failure_ready videoId) (updateProcessingJob env id updates).
Proof.
  intros Hid Hvid w (Hv & Hf & Hj). rewrite updateProcessingJob_run.
  destruct (JsMap.get id (processingJobs w)) as [job|] eqn:E;
    [|exact (conj Hv (conj Hf Hj))].
  cbv zeta. split; [exact Hv|]. simpl. split.
  - apply filed_set; [|exact Hf].
    unfold mergeJob. cbn. rewrite Hid. cbn. eapply filed_get; eauto.
  - eapply find_set_some; eauto.
    unfold job_of, mergeJob. cbn. now rewrite Hvid.
Qed.

Lemma ready_acquireAudio video :
  preserves (failure_ready videoId) (acquireAudio env videoId video).
Proof.
  unfold acquireAudio.
  destruct (truthy_value (Video.originalUrl video)).
  - apply preserves_bind; [apply ready_await|]. intros metadata.
    apply preserves_bind; [apply ready_updateVideo|]. intros _.
    apply preserves_ret.
  - destruct (truthy_value (Video.fileName video)); [|apply preserves_throw].
    cbv zeta.
    apply preserves_bind; [apply ready_await|]. intros metadata.
    apply preserves_bind; [apply ready_await|]. intros audioPath.
    apply preserves_bind; [apply ready_updateVideo|]. intros _.
    apply preserves_ret.
Qed.

Lemma ready_summarize video job audioPath :
  preserves (failure_ready videoId) (summarize env videoId video job audioPath).
Proof.
  unfold summarize, readFile, transcribeAudio, analyzeVideoContent,
    generateSummary, generateSpeech, writeFile, setTimeout_cleanup.
  repeat first
    [ apply ready_log
    | apply preserves_bind;
      [ first [ apply ready_await
              | apply ready_updateVideo
              | apply ready_updateSummary
              | apply ready_fetchOrCreateSummary
              | apply ready_updateProcessingJob; reflexivity ]
      | intros ? ] ].
Qed.

Lemma establishes_bind {A B : Type} (P Q R : World -> Prop) (m : Async A)
  (k : A -> Async B) :
  establishes P m Q -> (forall w, Q w -> R w) ->
  (forall a, establishes Q (k a) R) -> establishes P (bind m k) R.
Proof.
  intros Hm HQR Hk w H. unfold bind. specialize (Hm w H).
  destruct (m w) as [[a|e] w1]; simpl in *.
  - apply Hk, Hm.
  - apply HQR, Hm.
Qed.

Lemma quiet_refl (w0 : World) (k : nat) : quiet_since w0 k w0.
Proof.
  exists []. rewrite app_nil_r. repeat split; constructor.
Qed.

Lemma quiet_mono (w0 w : World) (k k' : nat) :
  (k <= k')%nat -> quiet_since w0 k w -> quiet_since w0 k' w.
Proof.
  intros Hle (evs & Ht & He & Hk & Hn). exists evs. repeat split; auto.
  eapply Forall_impl; [|exact Hk]. cbn. intros c Hc. lia.
Qed.

(** A write, or a timer: no service, no [console.error]. *)
Lemma quiet_extend (w0 w : World) k v s j n (ev : Event) :
  console_errors [ev] = [] -> calls [ev] = [] ->
  quiet_since w0 k w ->
  quiet_since w0 k (mkWorld v s j n (trace w ++ [ev])).
Proof.
  intros Hev Hcall (evs & Ht & He & Hk & Hn). exists (evs ++ [ev])%list.
  cbn [trace].
  rewrite Ht, app_assoc, console_errors_app, calls_app, He, Hev, Hcall,
    !app_nil_r.
  split; [reflexivity|]. split; [reflexivity|]. split; assumption.
Qed.

(** The invocation of a service of a stage not reached before. *)
Lemma quiet_call (w0 w : World) k v s j n (c : Capability) :
  (k <= stage c)%nat ->
  quiet_since w0 k w ->
  quiet_since w0 (S (stage c)) (mkWorld v s j n (trace w ++ [EvCall c])).
Proof.
  intros Hle (evs & Ht & He & Hk & Hn). exists (evs ++ [EvCall c])%list.
  cbn [trace].
  rewrite Ht, app_assoc, console_errors_app, calls_app, He. cbn [calls].
  split; [reflexivity|]. split; [reflexivity|]. split.
  - apply Forall_app. split.
    + eapply Forall_impl; [|exact Hk]. cbn. intros c' Hc'. lia.
    + constructor; [lia | constructor].
  - apply NoDup_app; [assumption | repeat constructor; simpl; tauto |].
    intros c' Hin [<-|[]]. rewrite Forall_forall in Hk.
    specialize (Hk _ Hin). cbn in Hk. lia.
Qed.

Lemma quiet_await w0 k (c : Capability) {A : Type} (f : nat -> Outcome A) :
  (k <= stage c)%nat ->
  establishes (quiet_since w0 k) (await c f) (quiet_since w0 (S (stage c))).
Proof. intros Hle w H. rewrite await_run. now apply (quiet_call w0 w k). Qed.

Lemma quiet_updateVideo w0 k id updates :
  establishes (quiet_since w0 k) (updateVideo id updates) (quiet_since w0 k).
Proof.
  intros w H. rewrite updateVideo_run.
  destruct (JsMap.get id (videos w)); [now apply quiet_extend | exact H].
Qed.

Lemma quiet_updateSummary w0 k id updates :
  establishes (quiet_since w0 k) (updateSummary id updates) (quiet_since w0 k).
Proof.
  intros w H. rewrite updateSummary_run.
  destruct (JsMap.get id (summaries w)); [now apply quiet_extend | exact H].
Qed.

Lemma quiet_updateProcessingJob w0 k id updates :
  establishes (quiet_since w0 k) (updateProcessingJob env id updates)
    (quiet_since w0 k).
Proof.
  intros w H. rewrite updateProcessingJob_run.
  destruct (JsMap.get id (processingJobs w));
    [now apply quiet_extend | exact H].
Qed.

Lemma quiet_fetchOrCreateSummary w0 k :
  establishes (quiet_since w0 k) (fetchOrCreateSummary env videoId)
    (quiet_since w0 k).
Proof.
  intros w H.
  unfold fetchOrCreateSummary, getSummaryByVideoId, bind, summaries_values, ret.
  destruct (find _ (JsMap.values (summaries w))); [exact H|].
  rewrite createSummary_run. now apply quiet_extend.
Qed.

Ltac quiet_weaken :=
  let w := fresh "w" in
  let H := fresh "H" in
  intros w H; eapply quiet_mono; [|exact H]; cbn [stage]; lia.

Ltac quiet_steps :=
  repeat first
    [ eapply establishes_bind;
      [ first [ apply quiet_await; cbn [stage]; lia
              | apply quiet_updateVideo
              | apply quiet_updateSummary
              | apply quiet_fetchOrCreateSummary
              | apply quiet_updateProcessingJob ]
      | quiet_weaken
      | intros ? ] ].

Lemma quiet_acquireAudio w0 video :
  establishes (quiet_since w0 0) (acquireAudio env videoId video)
    (quiet_since w0 3).
Proof.
  unfold acquireAudio, downloadYouTubeVideo, getVideoMetadata,
    extractAudioFromFile.
  destruct (truthy_value (Video.originalUrl video)).
  - quiet_steps. quiet_weaken.
  - destruct (truthy_value (Video.fileName video)); [|quiet_weaken].
    cbv zeta. quiet_steps. quiet_weaken.
Qed.

Lemma quiet_summarize w0 video job audioPath :
  establishes (quiet_since w0 3) (summarize env videoId video job audioPath)
    (quiet_since w0 9).
Proof.
  unfold summarize, readFile, transcribeAudio, analyzeVideoContent,
    generateSummary, generateSpeech, writeFile, setTimeout_cleanup.
  quiet_steps.
  intros w H. now apply quiet_extend.
Qed.

(** The [try] block hands nothing to [console.error] and invokes no service
    twice, however it ends. *)
Lemma quiet_try (w : World) :
  quiet_since w 9 (snd (processVideo_try env videoId w)).
Proof.
  unfold processVideo_try, getVideo. rewrite bind_run.
  unfold videos_get at 1.
  destruct (JsMap.get videoId (videos w)); [|apply quiet_refl].
  rewrite bind_run, createProcessingJob_run. cbv zeta.
  eapply (establishes_bind (quiet_since w 0) (quiet_since w 0)).
  - apply quiet_updateProcessingJob.
  - quiet_weaken.
  - intros _. eapply establishes_bind;
      [apply quiet_acquireAudio | quiet_weaken |].
    intros audioPath. apply quiet_summarize.
  - apply quiet_extend; [reflexivity | reflexivity | apply quiet_refl].
Qed.

(** Once the item was found, the [try] block leaves the state ready for the
    [catch] block, however it ends. *)
Lemma ready_after_try (w : World) (video : Video.t) :
  filed ProcessingJob.id (processingJobs w) ->
  JsMap.get videoId (videos w) = Some video ->
  failure_ready videoId (snd (processVideo_try env videoId w)).
Proof.
  intros Hf Hv.
  unfold processVideo_try, getVideo. rewrite bind_run.
  unfold videos_get at 1. rewrite Hv.
  rewrite bind_run, createProcessingJob_run. cbv zeta.
  apply preserves_bind.
  - apply ready_updateProcessingJob; reflexivity.
  - intros _. apply preserves_bind; [apply ready_acquireAudio|].
    intros audioPath. apply ready_summarize.
  - split; [simpl; rewrite Hv; discriminate|]. simpl. split.
    + apply filed_set; [reflexivity | exact Hf].
    + apply find_set_new. unfold job_of. cbn. apply String.eqb_refl.
Qed.

(** The [catch] block in a state that is ready for it. *)
Lemma processVideo_catch_run (e : JsExn) (w : World) :
  failure_ready videoId w ->
  exists job video,
    find (job_of videoId) (JsMap.values (processingJobs w)) = Some job /\
    JsMap.get (ProcessingJob.id job) (processingJobs w) = Some job /\
    JsMap.get videoId (videos w) = Some video /\
    let job' :=
      mergeJob job (failedUpdate (message_or "Unknown error" e))
        (clock env (consulted w)) in
    let video' := mergeVideo video (statusUpdate "failed") in
    processVideo_catch env videoId e w =
    (Returned tt,
     mkWorld (JsMap.set videoId video' (videos w)) (summaries w)
       (JsMap.set (ProcessingJob.id job) job' (processingJobs w))
       (S (consulted w))
       (trace w ++
        [EvConsoleError e; EvSetJob (ProcessingJob.id job) job';
         EvSetVideo videoId video'])).
Proof.
  intros (Hv & Hf & Hj).
  destruct (find (job_of videoId) (JsMap.values (processingJobs w)))
    as [job|] eqn:Hfind; [|contradiction].
  destruct (JsMap.get videoId (videos w)) as [video|] eqn:Hvideo;
    [|contradiction].
  pose proof (find_filed_get _ _ _ _ Hf Hfind) as Hget.
  exists job, video. repeat split; try assumption. cbv zeta.
  unfold job_of in Hfind.
  unfold processVideo_catch, console_error, getProcessingJobByVideoId,
    updateProcessingJob, updateVideo, newDate.
  unfold bind, log, consult, processingJobs_values, processingJobs_get,
    processingJobs_set, videos_get, videos_set, ret, throw.
  cbn -[mergeJob mergeVideo JsMap.get JsMap.set JsMap.values find]. rewrite Hfind.
  cbn -[mergeJob mergeVideo JsMap.get JsMap.set JsMap.values find]. rewrite Hget.
  cbn -[mergeJob mergeVideo JsMap.get JsMap.set JsMap.values find]. rewrite Hvideo.
  cbn -[mergeJob mergeVideo JsMap.get JsMap.set JsMap.values find].
  rewrite <- !app_assoc. reflexivity.
Qed.

Lemma job_of_failed (job : ProcessingJob.t) message now :
  job_of videoId job = true ->
  job_of videoId (mergeJob job (failedUpdate message) now) = true.
Proof. intros H. exact H. Qed.

(** C2 (amended). When the item is in the store and the [try] block throws,
    at whatever stage after the lookup, [processVideo] hands the thrown
    value to [console.error] once, which is the only time in the whole run,
    marks the first job of the item [failed] with the message of the thrown
    value (["Unknown error"] when it is not an [Error]), refreshing its
    [updatedAt], marks the item [failed], and returns normally.  The
    [catch] block invokes no service and writes nothing else, and no
    service was invoked twice before it. *)
Theorem failed_run_is_recorded (w w1 : World) (e : JsExn) (video : Video.t)
  (Hfiled : filed ProcessingJob.id (processingJobs w))
  (Hvideo : JsMap.get videoId (videos w) = Some video)
  (Hthrown : processVideo_try env videoId w = (Thrown e, w1)) :
  exists job video1 w' before,
    getProcessingJobByVideoId videoId w1 = (Returned (Some job), w1) /\
    getVideo videoId w1 = (Returned (Some video1), w1) /\
    let job' :=
      mergeJob job (failedUpdate (message_or "Unknown error" e))
        (clock env (consulted w1)) in
    let video' := mergeVideo video1 (statusUpdate "failed") in
    processVideo env videoId w = (Returned tt, w') /\
    trace w' =
      (trace w ++ before ++
       [EvConsoleError e; EvSetJob (ProcessingJob.id job) job';
        EvSetVideo videoId video'])%list /\
    console_errors before = [] /\
    NoDup (calls before) /\
    ProcessingJob.status job' = "failed" /\
    ProcessingJob.error job' = Some (message_or "Unknown error" e) /\
    ProcessingJob.updatedAt job' = Some (clock env (consulted w1)) /\
    Video.status video' = "failed" /\
    getProcessingJobByVideoId videoId w' = (Returned (Some job'), w') /\
    getVideo videoId w' = (Returned (Some video'), w') /\
    summaries w' = summaries w1.
Proof.
  pose proof (ready_after_try w video Hfiled Hvideo) as Hready.
  pose proof (quiet_try w) as (before & Hbefore & Hquiet & _ & Honce).
  rewrite Hthrown in Hready, Hbefore. cbn [snd] in Hready, Hbefore.
  destruct (processVideo_catch_run e w1 Hready)
    as (job & video1 & Hfind & Hget & Hvideo1 & Hcatch).
  cbv zeta in Hcatch. destruct Hready as (_ & Hf1 & _).
  exists job, video1. eexists. exists before. cbv zeta.
  split.
  { unfold getProcessingJobByVideoId, bind, processingJobs_values, ret.
    fold (job_of videoId). now rewrite Hfind. }
  split; [unfold getVideo, videos_get; now rewrite Hvideo1|].
  split; [unfold processVideo, try_catch; rewrite Hthrown; exact Hcatch|].
  cbn [trace videos summaries processingJobs].
  split; [now rewrite Hbefore, <- app_assoc|].
  split; [exact Hquiet|]. split; [exact Honce|].
  split; [reflexivity|]. split; [reflexivity|]. split; [reflexivity|].
  split; [reflexivity|].
  split.
  { unfold getProcessingJobByVideoId, bind, processingJobs_values, ret.
    cbn [processingJobs]. fold (job_of videoId).
    erewrite find_set_found; eauto.
    apply job_of_failed.
    destruct (find_values_In _ _ _ Hfind) as (_ & _ & Hp). exact Hp. }
  split; [|reflexivity].
  unfold getVideo, videos_get. cbn [videos]. now rewrite get_set_same.
Qed.

(** The [try] block on an item without any source. *)
Lemma sourceless_try (w : World) (video : Video.t) :
  JsMap.get videoId (videos w) = Some video ->
  Video.originalUrl video = None ->
  Video.fileName video = None ->
  let jid := uuid env (consulted w) in
  let j0 :=
    ProcessingJob.mk jid videoId "processing" (Some 0) (Some "analyzing")
      None None (Some (clock env (S (consulted w))))
      (Some (clock env (S (S (consulted w))))) in
  let j10 :=
    mergeJob j0 (progressUpdate 10 "analyzing")
      (clock env (S (S (S (consulted w))))) in
  processVideo_try env videoId w =
  (Thrown (JsError "No video source available"),
   mkWorld (videos w) (summaries w)
     (JsMap.set jid j10 (JsMap.set jid j0 (processingJobs w)))
     (S (S (S (S (consulted w)))))
     (trace w ++ [EvSetJob jid j0; EvSetJob jid j10])).
Proof.
  intros Hvideo Hurl Hfile. cbv zeta.
  unfold processVideo_try, getVideo, createProcessingJob, updateProcessingJob,
    acquireAudio, randomUUID, newDate.
  unfold bind, consult, videos_get, processingJobs_get, processingJobs_set,
    ret, throw.
  cbn -[mergeJob JsMap.get JsMap.set]. rewrite Hvideo.
  cbn -[mergeJob JsMap.get JsMap.set]. rewrite get_set_same.
  cbn -[mergeJob JsMap.get JsMap.set]. rewrite Hurl, Hfile.
  cbn -[mergeJob JsMap.get JsMap.set].
  rewrite <- app_assoc. reflexivity.
Qed.

(** C3. On an item whose source URL and uploaded-file reference are both
    null, [processVideo] returns normally having invoked no service at all,
    handed the no-source error to [console.error], marked the first job of
    the item [failed] with the message ["No video source available"] and
    marked the item [failed]. *)
Theorem sourceless_item_fails (w : World) (video : Video.t)
  (Hfiled : filed ProcessingJob.id (processingJobs w))
  (Hvideo : JsMap.get videoId (videos w) = Some video)
  (Hurl : Video.originalUrl video = None)
  (Hfile : Video.fileName video = None) :
  exists w' evs job' video',
    processVideo env videoId w = (Returned tt, w') /\
    trace w' = (trace w ++ evs)%list /\
    calls evs = [] /\
    console_errors evs = [JsError "No video source available"] /\
    summary_writes evs = [] /\
    getProcessingJobByVideoId videoId w' = (Returned (Some job'), w') /\
    ProcessingJob.status job' = "failed" /\
    ProcessingJob.error job' = Some "No video source available" /\
    getVideo videoId w' = (Returned (Some video'), w') /\
    Video.status video' = "failed" /\
    summaries w' = summaries w.
Proof.
  pose proof (sourceless_try w video Hvideo Hurl Hfile) as Htry.
  cbv zeta in Htry.
  pose proof (ready_after_try w video Hfiled Hvideo) as Hready.
  rewrite Htry in Hready. cbn [snd] in Hready.
  destruct (processVideo_catch_run (JsError "No video source available") _
              Hready)
    as (job & video1 & Hfind & Hget & Hvideo1 & Hcatch).
  cbv zeta in Hcatch. destruct Hready as (_ & Hf1 & _).
  cbn [videos summaries processingJobs consulted trace] in *.
  do 2 eexists. exists (mergeJob job (failedUpdate "No video source available")
    (clock env (S (S (S (S (consulted w))))))).
  exists (mergeVideo video1 (statusUpdate "failed")).
  split; [unfold processVideo, try_catch; rewrite Htry; exact Hcatch|].
  cbn [trace videos summaries processingJobs].
  split; [rewrite <- app_assoc; reflexivity|].
  split; [reflexivity|]. split; [reflexivity|]. split; [reflexivity|].
  split.
  { unfold getProcessingJobByVideoId, bind, processingJobs_values, ret.
    cbn [processingJobs]. fold (job_of videoId).
    erewrite find_set_found; eauto.
    apply job_of_failed.
    destruct (find_values_In _ _ _ Hfind) as (_ & _ & Hp). exact Hp. }
  split; [reflexivity|]. split; [reflexivity|].
  split; [|split; reflexivity].
  unfold getVideo, videos_get. cbn [videos]. now rewrite get_set_same.
Qed.

(** C9. On an identifier under which no video is stored, [processVideo]
    creates no job and writes no video and no summary; the [catch] block
    logs the not-found error, marks failed the first job that refers to the
    identifier if there is one, and then its own [updateVideo] throws
    ["Video not found"]: the promise of [processVideo] rejects. *)
Theorem unknown_video_rejects (w : World)
  (Hfiled : filed ProcessingJob.id (processingJobs w))
  (Habsent : JsMap.get videoId (videos w) = None) :
  exists w' evs,
    processVideo env videoId w = (Thrown (JsError "Video not found"), w') /\
    trace w' = (trace w ++ evs)%list /\
    console_errors evs = [JsError "Video not found"] /\
    calls evs = [] /\
    video_writes evs = [] /\
    summary_writes evs = [] /\
    videos w' = videos w /\
    summaries w' = summaries w /\
    JsMap.keys (processingJobs w') = JsMap.keys (processingJobs w) /\
    processingJobs w' =
      match find (job_of videoId) (JsMap.values (processingJobs w)) with
      | Some job =>
          JsMap.set (ProcessingJob.id job)
            (mergeJob job (failedUpdate "Video not found")
               (clock env (consulted w)))
            (processingJobs w)
      | None => processingJobs w
      end.
Proof.
  unfold processVideo, try_catch, processVideo_try, getVideo.
  rewrite bind_run. unfold videos_get at 1. rewrite Habsent. unfold throw at 1.
  unfold processVideo_catch, console_error, getProcessingJobByVideoId,
    updateProcessingJob, updateVideo, newDate.
  unfold bind, log, consult, processingJobs_values, processingJobs_get,
    processingJobs_set, videos_get, videos_set, ret, throw.
  cbn -[mergeJob mergeVideo JsMap.get JsMap.set JsMap.values find].
  fold (job_of videoId).
  destruct (find (job_of videoId) (JsMap.values (processingJobs w)))
    as [job|] eqn:Hfind.
  - pose proof (find_filed_get _ _ _ _ Hfiled Hfind) as Hget.
    cbn -[mergeJob mergeVideo JsMap.get JsMap.set JsMap.values find].
    rewrite Hget.
    cbn -[mergeJob mergeVideo JsMap.get JsMap.set JsMap.values find].
    rewrite Habsent.
    do 2 eexists. split; [reflexivity|].
    cbn [trace videos summaries processingJobs].
    split; [rewrite <- app_assoc; reflexivity|].
    repeat (split; [reflexivity|]).
    split; [|reflexivity].
    eapply keys_set_present; eauto.
  - cbn -[mergeJob mergeVideo JsMap.get JsMap.set JsMap.values find].
    rewrite Habsent.
    do 2 eexists. split; [reflexivity|].
    cbn [trace videos summaries processingJobs].
    repeat (split; [reflexivity|]). reflexivity.
Qed.

End Failure.

(** C2 as stated fails at step 1: when the lookup of the item is what
    throws, there is no item to mark failed, no job is written, and the
    error thrown by the [catch] block leaves [processVideo] as a rejected
    promise. *)
Lemma failed_run_counterexample :
  let run := processVideo (Scenario.env "text" None) "nope"
               Scenario.submitted in
  fst (processVideo_try (Scenario.env "text" None) "nope"
         Scenario.submitted) =
    Thrown (JsError "Video not found") /\
  fst run = Thrown (JsError "Video not found") /\
  JsMap.get "nope" (videos (snd run)) = None /\
  processingJobs (snd run) = [] /\
  ~ (exists w', run = (Returned tt, w')).
Proof.
  cbv zeta.
  split; [vm_compute; reflexivity|]. split; [vm_compute; reflexivity|].
  split; [vm_compute; reflexivity|]. split; [vm_compute; reflexivity|].
  intros (w' & H). apply (f_equal fst) in H. vm_compute in H. discriminate H.
Qed.

(** The pipeline on the submitted item when transcription is down. *)
Lemma failed_run_is_recorded_witness :
  let env := Scenario.env "text" (Some TranscribeAudio) in
  let w := Scenario.submitted in
  fst (processVideo env "id0" w) = Returned tt /\
  option_map (fun j => (ProcessingJob.status j, ProcessingJob.error j))
    (find (job_of "id0")
       (JsMap.values (processingJobs (snd (processVideo env "id0" w))))) =
    Some ("failed", Some "service unavailable").
Proof.
  cbv zeta.
  destruct (failed_run_is_recorded (Scenario.env "text" (Some TranscribeAudio))
              "id0" Scenario.submitted
              (snd (processVideo_try (Scenario.env "text" (Some TranscribeAudio))
                      "id0" Scenario.submitted))
              (JsError "service unavailable")
              (Video.mk "id0" "Processing..." (Some "https://youtu.be/abc")
                 None None None "processing" (Some 1700000000001))
              ltac:(concrete_filed) ltac:(vm_compute; reflexivity)
              ltac:(vm_compute; reflexivity))
    as (job & video1 & w' & before & _ & _ & Hrun & _).
  split; [rewrite Hrun; reflexivity | vm_compute; reflexivity].
Defined.

(** The pipeline on an item that has neither URL nor file. *)
Lemma sourceless_item_fails_witness :
  let run := processVideo (Scenario.env "text" None) "id0" Scenario.sourceless in
  fst run = Returned tt /\
  option_map Video.status (JsMap.get "id0" (videos (snd run))) = Some "failed".
Proof.
  cbv zeta.
  destruct (sourceless_item_fails (Scenario.env "text" None) "id0"
              Scenario.sourceless
              (Video.mk "id0" "empty" None None None None "uploading"
                 (Some 1700000000001))
              ltac:(concrete_filed) ltac:(vm_compute; reflexivity)
              eq_refl eq_refl)
    as (w' & evs & job' & video' & Hrun & _).
  split; [rewrite Hrun; reflexivity | vm_compute; reflexivity].
Defined.

(** The pipeline on an identifier nobody was given. *)
Lemma unknown_video_rejects_witness :
  fst (processVideo (Scenario.env "text" None) "nope"
         Scenario.submitted) =
  Thrown (JsError "Video not found").
Proof.
  destruct (unknown_video_rejects (Scenario.env "text" None) "nope"
              Scenario.submitted
              ltac:(concrete_filed) ltac:(vm_compute; reflexivity))
    as (w' & evs & Hrun & _).
  rewrite Hrun. reflexivity.
Defined.

(** ** Every reachable store is well formed *)

Section Invariant.
Variable env : Env.

Lemma preserves_try_catch {A : Type} (I : World -> Prop) (body : Async A)
  (handler : JsExn -> Async A) :
  preserves I body -> (forall e, preserves I (handler e)) ->
  preserves I (try_catch body handler).
Proof.
  intros Hb Hh w H. unfold try_catch. specialize (Hb w H).
  destruct (body w) as [[a|e] w1]; simpl in *.
  - exact Hb.
  - apply Hh, Hb.
Qed.

Lemma wf_await (c : Capability) {A : Type} (f : nat -> Outcome A) :
  preserves wf_store (await c f).
Proof. intros w H. rewrite await_run. exact H. Qed.

Lemma wf_log (ev : Event) : preserves wf_store (log ev).
Proof. intros w H. exact H. Qed.

Lemma wf_updateVideo id updates :
  PartialVideo.id updates = None -> preserves wf_store (updateVideo id updates).
Proof.
  intros Hid w (Hv & Hs & Hj). rewrite updateVideo_run.
  destruct (JsMap.get id (videos w)) as [video|] eqn:E;
    [|exact (conj Hv (conj Hs Hj))].
  split; [|exact (conj Hs Hj)]. simpl. apply filed_set; [|exact Hv].
  unfold mergeVideo. cbn. rewrite Hid. cbn. eapply filed_get; eauto.
Qed.

Lemma wf_updateSummary id updates :
  PartialSummary.id updates = None ->
  preserves wf_store (updateSummary id updates).
Proof.
  intros Hid w (Hv & Hs & Hj). rewrite updateSummary_run.
  destruct (JsMap.get id (summaries w)) as [summary|] eqn:E;
    [|exact (conj Hv (conj Hs Hj))].
  split; [exact Hv|]. split; [|exact Hj]. simpl.
  apply filed_set; [|exact Hs].
  unfold mergeSummary. cbn. rewrite Hid. cbn. eapply filed_get; eauto.
Qed.

Lemma wf_updateProcessingJob id updates :
  PartialProcessingJob.id updates = None ->
  preserves wf_store (updateProcessingJob env id updates).
Proof.
  intros Hid w (Hv & Hs & Hj). rewrite updateProcessingJob_run.
  destruct (JsMap.get id (processingJobs w)) as [job|] eqn:E;
    [|exact (conj Hv (conj Hs Hj))].
  cbv zeta. split; [exact Hv|]. split; [exact Hs|]. simpl.
  apply filed_set; [|exact Hj].
  unfold mergeJob. cbn. rewrite Hid. cbn. eapply filed_get; eauto.
Qed.

Lemma wf_createVideo draft : preserves wf_store (createVideo env draft).
Proof.
  intros w (Hv & Hs & Hj). rewrite createVideo_run. cbv zeta.
  split; [|exact (conj Hs Hj)]. simpl. now apply filed_set.
Qed.

Lemma wf_createSummary draft : preserves wf_store (createSummary env draft).
Proof.
  intros w (Hv & Hs & Hj). rewrite createSummary_run. cbv zeta.
  split; [exact Hv|]. split; [|exact Hj]. simpl. now apply filed_set.
Qed.

Lemma wf_createProcessingJob draft :
  preserves wf_store (createProcessingJob env draft).
Proof.
  intros w (Hv & Hs & Hj). rewrite createProcessingJob_run. cbv zeta.
  split; [exact Hv|]. split; [exact Hs|]. simpl. now apply filed_set.
Qed.

Lemma wf_getSummaryByVideoId videoId :
  preserves wf_store (getSummaryByVideoId videoId).
Proof. intros w H. exact H. Qed.

Lemma wf_getProcessingJobByVideoId videoId :
  preserves wf_store (getProcessingJobByVideoId videoId).
Proof. intros w H. exact H. Qed.

Lemma wf_get_video id : preserves wf_store (getVideo id).
Proof. intros w H. exact H. Qed.

Lemma wf_get_summary id : preserves wf_store (getSummary id).
Proof. intros w H. exact H. Qed.

Ltac wf_steps :=
  repeat match goal with
    | |- preserves _ (bind _ _) => apply preserves_bind; [|intros ?]
    | |- preserves _ (ret _) => apply preserves_ret
    | |- preserves _ (throw _) => apply preserves_throw
    | |- preserves _ (log _) => apply wf_log
    | |- preserves _ (await _ _) => apply wf_await
    | |- preserves _ (getVideo _) => apply wf_get_video
    | |- preserves _ (getSummary _) => apply wf_get_summary
    | |- preserves _ (getSummaryByVideoId _) => apply wf_getSummaryByVideoId
    | |- preserves _ (getProcessingJobByVideoId _) =>
        apply wf_getProcessingJobByVideoId
    | |- preserves _ (createVideo _ _) => apply wf_createVideo
    | |- preserves _ (createSummary _ _) => apply wf_createSummary
    | |- preserves _ (createProcessingJob _ _) => apply wf_createProcessingJob
    | |- preserves _ (updateVideo _ _) => apply wf_updateVideo; reflexivity
    | |- preserves _ (updateSummary _ _) => apply wf_updateSummary; reflexivity
    | |- preserves _ (updateProcessingJob _ _ _) =>
        apply wf_updateProcessingJob; reflexivity
    | |- preserves _ (match ?x with _ => _ end) => destruct x
    end.

Lemma wf_processVideo videoId : preserves wf_store (processVideo env videoId).
Proof.
  unfold processVideo, processVideo_try, processVideo_catch, summarize,
    acquireAudio, fetchOrCreateSummary, downloadYouTubeVideo, getVideoMetadata,
    extractAudioFromFile, readFile, transcribeAudio, analyzeVideoContent,
    generateSummary, generateSpeech, writeFile, console_error,
    setTimeout_cleanup.
  apply preserves_try_catch; [|intros e]; cbv zeta; wf_steps.
Qed.

Lemma wf_submit draft style targetDuration voiceId speechSpeed :
  preserves wf_store
    (submit env draft style targetDuration voiceId speechSpeed).
Proof. unfold submit. wf_steps. Qed.

Lemma wf_get_video_route id : preserves wf_store (get_video_route id).
Proof.
  unfold get_video_route. apply preserves_try_catch; [|intros e]; wf_steps.
Qed.

Lemma wf_patch_summary_route id content :
  preserves wf_store (patch_summary_route env id content).
Proof.
  unfold patch_summary_route, summaryUpdateSchema_parse.
  apply preserves_try_catch; [|intros e]; wf_steps.
Qed.

Lemma wf_regenerate_audio_route id :
  preserves wf_store (regenerate_audio_route env id).
Proof.
  unfold regenerate_audio_route, generateSpeech, writeFile.
  apply preserves_try_catch; [|intros e]; cbv zeta; wf_steps.
Qed.

(** Whatever requests were served and whatever the services answered, every
    record of the store is filed under its own identifier and no key occurs
    twice. *)
Theorem reachable_wf (w : World) : reachable env w -> wf_store w.
Proof.
  induction 1 as [|w ? ? ? ? ? _ IH|w ? _ IH|w ? _ IH|w ? ? _ IH|w ? _ IH].
  - apply initial_wf.
  - now apply wf_submit.
  - now apply wf_processVideo.
  - now apply wf_get_video_route.
  - now apply wf_patch_summary_route.
  - now apply wf_regenerate_audio_route.
Qed.

(** X1. What [GET /api/videos/:id] shows after a run of the [try] block that
    reached its end, when the item had no job before: the item, its summary
    and its job, all three completed. *)
Lemma completed_run_status_route (videoId : string) (w w' : World) :
  wf_store w ->
  find (job_of videoId) (JsMap.values (processingJobs w)) = None ->
  processVideo_try env videoId w = (Returned tt, w') ->
  exists video summary job,
    get_video_route videoId w' =
      (Returned (mkResponse 200 (JsonStatus video (Some summary) (Some job))),
       w') /\
    Video.status video = "completed" /\
    ProcessingJob.status job = "completed" /\
    ProcessingJob.progress job = Some 100 /\
    Summary.audioUrl summary =
      Some (path_join env [cwd env; "temp"; videoId ++ "_speech.mp3"]).
Proof.
  intros (Hfv & Hfs & Hfj) Hnojob Hrun.
  pose proof (processVideo_try_inv env _ _ _ Hrun) as Hinv. cbv zeta in Hinv.
  destruct Hinv as (video & evs & j0 & j10 & j30 & j50 & j70 & j90 & j100 &
    s & x & res & n & n' & transcript & analysis & m & vfinal & Hvideo &
    Htrace & Hwrites & Hsteps & Hstatus & Hvid & Hresult & Hjobs & Hcalls &
    Herrors & Hws & Hx & Hres & Hsum & Hfinal & Hcompleted & Hid).
  destruct (working_summary_filed _ _ _ _ _ _ Hfs Hws) as (Hm & Hfind & Hget).
  rewrite Hget in Hx. injection Hx as <-.
  pose proof (filed_get _ _ _ _ Hfv Hvideo) as Hkey.
  exists vfinal. do 2 eexists.
  unfold get_video_route, try_catch, getVideo, getSummaryByVideoId,
    getProcessingJobByVideoId.
  unfold bind, videos_get, summaries_values, processingJobs_values, ret.
  rewrite Hfinal, Hid, Hkey.
  fold (summary_of videoId). fold (job_of videoId).
  rewrite Hsum, Hjobs.
  erewrite find_set_found; eauto.
  - erewrite find_set_fresh; eauto.
    + split; [reflexivity|]. split; [assumption|].
      injection Hsteps as _ _ _ _ _ _ Hp _. injection Hstatus as _ _ _ _ _ _ Hst.
      repeat split; assumption.
    + unfold job_of. rewrite Hvid. apply String.eqb_refl.
  - unfold summary_of. cbn.
    destruct (find_values_In _ _ _ Hfind) as (_ & _ & Hp). exact Hp.
Qed.

End Invariant.

(** ** Identifiers are fresh when [randomUUID] never repeats itself *)

Section Minting.
Variable env : Env.

(** The keys of the next state are those of the state before, or were
    minted in between. *)
Lemma minted_step (w w' : World) :
  (consulted w <= consulted w')%nat ->
  (forall k,
     In k (JsMap.keys (videos w')) \/ In k (JsMap.keys (summaries w')) \/
     In k (JsMap.keys (processingJobs w')) ->
     (In k (JsMap.keys (videos w)) \/ In k (JsMap.keys (summaries w)) \/
      In k (JsMap.keys (processingJobs w))) \/
     exists n, (n < consulted w')%nat /\ k = uuid env n) ->
  minted env w -> minted env w'.
Proof.
  intros Hle Hkeys Hm k Hk. destruct (Hkeys k Hk) as [Hold|Hnew].
  - destruct (Hm k Hold) as (n & Hn & ->). exists n. split; [lia | reflexivity].
  - exact Hnew.
Qed.

Lemma minted_await (c : Capability) {A : Type} (f : nat -> Outcome A) :
  preserves (minted env) (await c f).
Proof.
  intros w H. rewrite await_run.
  eapply minted_step; [| |exact H];
    cbn [snd videos summaries processingJobs consulted]; [lia|].
  intros k Hk. now left.
Qed.

Lemma minted_log (ev : Event) : preserves (minted env) (log ev).
Proof. intros w H. exact H. Qed.

Lemma minted_updateVideo id updates :
  preserves (minted env) (updateVideo id updates).
Proof.
  intros w H. rewrite updateVideo_run.
  destruct (JsMap.get id (videos w)) as [video|] eqn:E; [|exact H].
  eapply minted_step; [| |exact H];
    cbn [snd videos summaries processingJobs consulted]; [lia|].
  intros k [Hk|Hk]; [|left; now right].
  left. left. erewrite keys_set_present in Hk; eauto.
Qed.

Lemma minted_updateSummary id updates :
  preserves (minted env) (updateSummary id updates).
Proof.
  intros w H. rewrite updateSummary_run.
  destruct (JsMap.get id (summaries w)) as [summary|] eqn:E; [|exact H].
  eapply minted_step; [| |exact H];
    cbn [snd videos summaries processingJobs consulted]; [lia|].
  intros k [Hk|[Hk|Hk]]; [left; now left| |left; right; now right].
  left. right. left. erewrite keys_set_present in Hk; eauto.
Qed.

Lemma minted_updateProcessingJob id updates :
  preserves (minted env) (updateProcessingJob env id updates).
Proof.
  intros w H. rewrite updateProcessingJob_run.
  destruct (JsMap.get id (processingJobs w)) as [job|] eqn:E; [|exact H].
  cbv zeta. eapply minted_step; [| |exact H];
    cbn [snd videos summaries processingJobs consulted]; [lia|].
  intros k [Hk|[Hk|Hk]]; [left; now left|left; right; now left|].
  left. right. right. erewrite keys_set_present in Hk; eauto.
Qed.

Lemma minted_createVideo draft : preserves (minted env) (createVideo env draft).
Proof.
  intros w H. rewrite createVideo_run. cbv zeta.
  eapply minted_step; [| |exact H];
    cbn [snd videos summaries processingJobs consulted]; [lia|].
  intros k [Hk|Hk]; [|left; now right].
  apply In_keys_set in Hk. destruct Hk as [->|Hk]; [|left; now left].
  right. exists (consulted w). split; [lia | reflexivity].
Qed.

Lemma minted_createSummary draft :
  preserves (minted env) (createSummary env draft).
Proof.
  intros w H. rewrite createSummary_run. cbv zeta.
  eapply minted_step; [| |exact H];
    cbn [snd videos summaries processingJobs consulted]; [lia|].
  intros k [Hk|[Hk|Hk]]; [left; now left| |left; right; now right].
  apply In_keys_set in Hk. destruct Hk as [->|Hk]; [|left; right; now left].
  right. exists (consulted w). split; [lia | reflexivity].
Qed.

Lemma minted_createProcessingJob draft :
  preserves (minted env) (createProcessingJob env draft).
Proof.
  intros w H. rewrite createProcessingJob_run. cbv zeta.
  eapply minted_step; [| |exact H];
    cbn [snd videos summaries processingJobs consulted]; [lia|].
  intros k [Hk|[Hk|Hk]]; [left; now left|left; right; now left|].
  apply In_keys_set in Hk. destruct Hk as [->|Hk]; [|left; right; now right].
  right. exists (consulted w). split; [lia | reflexivity].
Qed.

Lemma minted_read {A : Type} (f : World -> A) :
  preserves (minted env) (fun w => (Returned (f w), w)).
Proof. intros w H. exact H. Qed.

Ltac minted_steps :=
  repeat match goal with
    | |- preserves _ (bind _ _) => apply preserves_bind; [|intros ?]
    | |- preserves _ (ret _) => apply preserves_ret
    | |- preserves _ (throw _) => apply preserves_throw
    | |- preserves _ (log _) => apply minted_log
    | |- preserves _ (await _ _) => apply minted_await
    | |- preserves _ (createVideo _ _) => apply minted_createVideo
    | |- preserves _ (createSummary _ _) => apply minted_createSummary
    | |- preserves _ (createProcessingJob _ _) =>
        apply minted_createProcessingJob
    | |- preserves _ (updateVideo _ _) => apply minted_updateVideo
    | |- preserves _ (updateSummary _ _) => apply minted_updateSummary
    | |- preserves _ (updateProcessingJob _ _ _) =>
        apply minted_updateProcessingJob
    | |- preserves _ (match ?x with _ => _ end) => destruct x
    | |- preserves _ (fun w => (Returned _, w)) => apply minted_read
    end.

Lemma minted_processVideo videoId :
  preserves (minted env) (processVideo env videoId).
Proof.
  unfold processVideo, processVideo_try, processVideo_catch, summarize,
    acquireAudio, fetchOrCreateSummary, downloadYouTubeVideo, getVideoMetadata,
    extractAudioFromFile, readFile, transcribeAudio, analyzeVideoContent,
    generateSummary, generateSpeech, writeFile, console_error,
    setTimeout_cleanup, getVideo, getSummaryByVideoId,
    getProcessingJobByVideoId, videos_get, summaries_values,
    processingJobs_values.
  apply preserves_try_catch; [|intros e]; cbv zeta; minted_steps.
Qed.

Lemma minted_submit draft style targetDuration voiceId speechSpeed :
  preserves (minted env)
    (submit env draft style targetDuration voiceId speechSpeed).
Proof. unfold submit. minted_steps. Qed.

Lemma minted_get_video_route id : preserves (minted env) (get_video_route id).
Proof.
  unfold get_video_route, getVideo, getSummaryByVideoId,
    getProcessingJobByVideoId, videos_get, summaries_values,
    processingJobs_values.
  apply preserves_try_catch; [|intros e]; minted_steps.
Qed.

Lemma minted_patch_summary_route id content :
  preserves (minted env) (patch_summary_route env id content).
Proof.
  unfold patch_summary_route, summaryUpdateSchema_parse.
  apply preserves_try_catch; [|intros e]; minted_steps.
Qed.

Lemma minted_regenerate_audio_route id :
  preserves (minted env) (regenerate_audio_route env id).
Proof.
  unfold regenerate_audio_route, generateSpeech, writeFile, getSummary,
    summaries_get.
  apply preserves_try_catch; [|intros e]; cbv zeta; minted_steps.
Qed.

Lemma reachable_minted (w : World) : reachable env w -> minted env w.
Proof.
  induction 1 as [|w ? ? ? ? ? _ IH|w ? _ IH|w ? _ IH|w ? ? _ IH|w ? _ IH].
  - intros k [[]|[[]|[]]].
  - now apply minted_submit.
  - now apply minted_processVideo.
  - now apply minted_get_video_route.
  - now apply minted_patch_summary_route.
  - now apply minted_regenerate_audio_route.
Qed.

(** X2. In a reachable state, the identifier [randomUUID()] answers with next is
    a key of none of the three maps, provided the generator never gives the
    same answer twice. *)
Theorem reachable_fresh (w : World) :
  (forall n n', uuid env n = uuid env n' -> n = n') ->
  reachable env w ->
  JsMap.get (uuid env (consulted w)) (videos w) = None /\
  JsMap.get (uuid env (consulted w)) (summaries w) = None /\
  JsMap.get (uuid env (consulted w)) (processingJobs w) = None.
Proof.
  intros Hinj Hreach. pose proof (reachable_minted w Hreach) as Hm.
  repeat split; apply get_None_keys; intros Hin;
    [ destruct (Hm _ (or_introl Hin)) as (n & Hn & Heq)
    | destruct (Hm _ (or_intror (or_introl Hin))) as (n & Hn & Heq)
    | destruct (Hm _ (or_intror (or_intror Hin))) as (n & Hn & Heq) ];
    apply Hinj in Heq; lia.
Qed.

End Minting.

(** ** Which job a failing run marks *)

Section NewJob.
Variable env : Env.
Variable videoId : string.










End NewJob.

(** ** More on the record store *)

Section StoreMore.
Variable env : Env.

Lemma set_get_same {V : Type} k (v : V) (m : JsMap.t V) :
  JsMap.get k m = Some v -> JsMap.set k v m = m.
Proof.
  induction m as [|[k0 v0] m IH]; simpl; [discriminate|].
  destruct (String.eqb_spec k k0) as [->|Hne].
  - now intros [= ->].
  - intros H. now rewrite IH.
Qed.

Lemma find_values_split {V : Type} (p : V -> bool) (m : JsMap.t V) :
  match find p (JsMap.values m) with
  | Some v =>
      exists k before after,
        m = (before ++ (k, v) :: after)%list /\
        p v = true /\
        Forall (fun kv => p (snd kv) = false) before
  | None => Forall (fun kv => p (snd kv) = false) m
  end.
Proof.
  induction m as [|[k0 v0] m IH]; simpl; [constructor|].
  destruct (p v0) eqn:E.
  - exists k0, [], m. repeat split; [assumption | constructor].
  - destruct (find p (JsMap.values m)) as [v|].
    + destruct IH as (k & before & after & -> & Hp & Hall).
      exists k, ((k0, v0) :: before), after.
      repeat split; [assumption | constructor; assumption].
    + constructor; assumption.
Qed.

(** X3. [createSummary] files the record under the identifier [randomUUID()]
    answers with; when that identifier is not yet a key of the summary map
    the record is appended.  Whatever the draft says about [isEdited], the
    record starts unedited and without audio or final media; an absent or
    empty [speechSpeed] becomes ["1.0"]; [getSummary] on the returned
    identifier gives the returned record back. *)
Theorem createSummary_files_record (draft : InsertSummary.t) (w : World)
  (Hfresh : JsMap.get (uuid env (consulted w)) (summaries w) = None) :
  exists summary w',
    createSummary env draft w = (Returned summary, w') /\
    Summary.id summary = uuid env (consulted w) /\
    Summary.videoId summary = InsertSummary.videoId draft /\
    Summary.content summary = InsertSummary.content draft /\
    Summary.style summary = InsertSummary.style draft /\
    Summary.targetDuration summary = InsertSummary.targetDuration draft /\
    Summary.voiceId summary = InsertSummary.voiceId draft /\
    Summary.speechSpeed summary =
      match InsertSummary.speechSpeed draft with
      | Some s => if String.eqb s "" then "1.0" else s
      | None => "1.0"
      end /\
    Summary.audioUrl summary = None /\
    Summary.finalVideoUrl summary = None /\
    Summary.isEdited summary = Some false /\
    Summary.createdAt summary = Some (clock env (S (consulted w))) /\
    summaries w' = (summaries w ++ [(Summary.id summary, summary)])%list /\
    videos w' = videos w /\
    processingJobs w' = processingJobs w /\
    getSummary (Summary.id summary) w' = (Returned (Some summary), w').
Proof.
  rewrite createSummary_run. cbv zeta. do 2 eexists.
  split; [reflexivity|].
  cbn [Summary.id Summary.videoId Summary.content Summary.style
       Summary.targetDuration Summary.voiceId Summary.speechSpeed
       Summary.audioUrl Summary.finalVideoUrl Summary.isEdited
       Summary.createdAt videos summaries processingJobs].
  repeat (split; [reflexivity|]).
  split.
  { unfold or_default. destruct (InsertSummary.speechSpeed draft) as [[|? ?]|];
      reflexivity. }
  repeat (split; [reflexivity|]).
  split; [now apply set_absent|].
  repeat (split; [reflexivity|]).
  unfold getSummary, summaries_get. cbn [summaries]. now rewrite get_set_same.
Qed.

(** X4. The two lookups by owning item never throw and leave the state as it
    is.  They return the first record, in insertion order, whose [videoId]
    is the one asked for, and [undefined] exactly when no stored record has
    that [videoId]. *)
Theorem lookups_by_video_return_first (videoId : string) (w : World) :
  (exists r,
     getSummaryByVideoId videoId w = (Returned r, w) /\
     match r with
     | Some s =>
         exists k before after,
           summaries w = (before ++ (k, s) :: after)%list /\
           Summary.videoId s = videoId /\
           Forall (fun kv => Summary.videoId (snd kv) <> videoId) before
     | None =>
         Forall (fun kv => Summary.videoId (snd kv) <> videoId) (summaries w)
     end) /\
  (exists r,
     getProcessingJobByVideoId videoId w = (Returned r, w) /\
     match r with
     | Some j =>
         exists k before after,
           processingJobs w = (before ++ (k, j) :: after)%list /\
           ProcessingJob.videoId j = videoId /\
           Forall (fun kv => ProcessingJob.videoId (snd kv) <> videoId) before
     | None =>
         Forall (fun kv => ProcessingJob.videoId (snd kv) <> videoId)
           (processingJobs w)
     end).
Proof.
  split.
  - eexists. split; [reflexivity|].
    pose proof (find_values_split (summary_of videoId) (summaries w)) as H.
    fold (summary_of videoId).
    destruct (find (summary_of videoId) (JsMap.values (summaries w))) as [s|].
    + destruct H as (k & before & after & Hm & Hp & Hall).
      exists k, before, after. split; [exact Hm|].
      split; [now apply String.eqb_eq|].
      eapply Forall_impl; [|exact Hall]. intros kv Hkv.
      now apply String.eqb_neq.
    + eapply Forall_impl; [|exact H]. intros kv Hkv.
      now apply String.eqb_neq.
  - eexists. split; [reflexivity|].
    pose proof (find_values_split (job_of videoId) (processingJobs w)) as H.
    fold (job_of videoId).
    destruct (find (job_of videoId) (JsMap.values (processingJobs w)))
      as [j|].
    + destruct H as (k & before & after & Hm & Hp & Hall).
      exists k, before, after. split; [exact Hm|].
      split; [now apply String.eqb_eq|].
      eapply Forall_impl; [|exact Hall]. intros kv Hkv.
      now apply String.eqb_neq.
    + eapply Forall_impl; [|exact H]. intros kv Hkv.
      now apply String.eqb_neq.
Qed.

Lemma find_values_app {V : Type} (p : V -> bool) (m m' : JsMap.t V) :
  find p (JsMap.values (m ++ m')%list) =
  match find p (JsMap.values m) with
  | Some v => Some v
  | None => find p (JsMap.values m')
  end.
Proof.
  induction m as [|[k v] m IH]; simpl; [reflexivity|].
  destruct (p v); [reflexivity | exact IH].
Qed.

(** X5. A record created for an item that already has one is shadowed: after
    [createProcessingJob] (or [createSummary]) under a new identifier, the
    lookup by item still returns the older record; it returns the new one
    only when the item had none. *)
Theorem older_record_shadows_newer (jobDraft' : InsertProcessingJob.t)
  (summaryDraft : InsertSummary.t) (w : World)
  (Hfresh_job : JsMap.get (uuid env (consulted w)) (processingJobs w) = None)
  (Hfresh_summary : JsMap.get (uuid env (consulted w)) (summaries w) = None) :
  (exists job wj,
     createProcessingJob env jobDraft' w = (Returned job, wj) /\
     getProcessingJobByVideoId (InsertProcessingJob.videoId jobDraft') wj =
       (Returned
          (match fst (getProcessingJobByVideoId
                        (InsertProcessingJob.videoId jobDraft') w) with
           | Returned (Some older) => Some older
           | _ => Some job
           end), wj)) /\
  (exists summary ws,
     createSummary env summaryDraft w = (Returned summary, ws) /\
     getSummaryByVideoId (InsertSummary.videoId summaryDraft) ws =
       (Returned
          (match fst (getSummaryByVideoId
                        (InsertSummary.videoId summaryDraft) w) with
           | Returned (Some older) => Some older
           | _ => Some summary
           end), ws)).
Proof.
  split.
  - rewrite createProcessingJob_run. cbv zeta. do 2 eexists.
    split; [reflexivity|].
    unfold getProcessingJobByVideoId, bind, processingJobs_values, ret.
    cbn [fst processingJobs]. rewrite (set_absent _ _ _ Hfresh_job).
    rewrite find_values_app.
    destruct (find _ (JsMap.values (processingJobs w))); [reflexivity|].
    cbn. now rewrite String.eqb_refl.
  - rewrite createSummary_run. cbv zeta. do 2 eexists.
    split; [reflexivity|].
    unfold getSummaryByVideoId, bind, summaries_values, ret.
    cbn [fst summaries]. rewrite (set_absent _ _ _ Hfresh_summary).
    rewrite find_values_app.
    destruct (find _ (JsMap.values (summaries w))); [reflexivity|].
    cbn. now rewrite String.eqb_refl.
Qed.

Lemma spread_overlay {A : Type} (old : A) (u1 u2 : optional A) :
  spread (spread old u1) u2 = spread old (overlay u1 u2).
Proof. now destruct u2. Qed.

Lemma mergeVideo_overlay v u1 u2 :
  mergeVideo (mergeVideo v u1) u2 = mergeVideo v (overlayVideo u1 u2).
Proof.
  unfold mergeVideo, overlayVideo. cbn. now rewrite !spread_overlay.
Qed.

Lemma mergeSummary_overlay s u1 u2 :
  mergeSummary (mergeSummary s u1) u2 = mergeSummary s (overlaySummary u1 u2).
Proof.
  unfold mergeSummary, overlaySummary. cbn. now rewrite !spread_overlay.
Qed.

Lemma mergeJob_overlay j u1 u2 t1 t2 :
  mergeJob (mergeJob j u1 t1) u2 t2 = mergeJob j (overlayJob u1 u2) t2.
Proof.
  unfold mergeJob, overlayJob. cbn. now rewrite !spread_overlay.
Qed.

(** X6. Two updates of the same record in a row amount to one update with the
    second object spread over the first: same outcome, same maps.  For a job
    the only difference is the clock reading that [updatedAt] receives, the
    second one. *)
Theorem updates_in_a_row (id : string) (w : World)
  (v1 v2 : PartialVideo.t) (s1 s2 : PartialSummary.t)
  (j1 j2 : PartialProcessingJob.t) :
  (let twice := (updateVideo id v1 ;;; updateVideo id v2) w in
   let once := updateVideo id (overlayVideo v1 v2) w in
   fst twice = fst once /\ videos (snd twice) = videos (snd once) /\
   summaries (snd twice) = summaries (snd once) /\
   processingJobs (snd twice) = processingJobs (snd once)) /\
  (let twice := (updateSummary id s1 ;;; updateSummary id s2) w in
   let once := updateSummary id (overlaySummary s1 s2) w in
   fst twice = fst once /\ videos (snd twice) = videos (snd once) /\
   summaries (snd twice) = summaries (snd once) /\
   processingJobs (snd twice) = processingJobs (snd once)) /\
  (let twice :=
     (updateProcessingJob env id j1 ;;; updateProcessingJob env id j2) w in
   match JsMap.get id (processingJobs w) with
   | Some job =>
       let merged :=
         mergeJob job (overlayJob j1 j2) (clock env (S (consulted w))) in
       fst twice = Returned merged /\
       processingJobs (snd twice) = JsMap.set id merged (processingJobs w)
   | None =>
       twice = (Thrown (JsError "Processing job not found"), w)
   end).
Proof.
  cbv zeta. unfold bind.
  rewrite !updateVideo_run, !updateSummary_run, !updateProcessingJob_run.
  repeat split.
  - destruct (JsMap.get id (videos w)) as [v|]; [|reflexivity].
    rewrite updateVideo_run. cbn [videos]. rewrite get_set_same.
    cbn [fst]. now rewrite mergeVideo_overlay.
  - destruct (JsMap.get id (videos w)) as [v|]; [|reflexivity].
    rewrite updateVideo_run. cbn [videos]. rewrite get_set_same.
    cbn [snd videos]. now rewrite set_set_same, mergeVideo_overlay.
  - destruct (JsMap.get id (videos w)) as [v|]; [|reflexivity].
    rewrite updateVideo_run. cbn [videos]. now rewrite get_set_same.
  - destruct (JsMap.get id (videos w)) as [v|]; [|reflexivity].
    rewrite updateVideo_run. cbn [videos]. now rewrite get_set_same.
  - destruct (JsMap.get id (summaries w)) as [s|]; [|reflexivity].
    rewrite updateSummary_run. cbn [summaries]. rewrite get_set_same.
    cbn [fst]. now rewrite mergeSummary_overlay.
  - destruct (JsMap.get id (summaries w)) as [s|]; [|reflexivity].
    rewrite updateSummary_run. cbn [summaries]. now rewrite get_set_same.
  - destruct (JsMap.get id (summaries w)) as [s|]; [|reflexivity].
    rewrite updateSummary_run. cbn [summaries]. rewrite get_set_same.
    cbn [snd summaries]. now rewrite set_set_same, mergeSummary_overlay.
  - destruct (JsMap.get id (summaries w)) as [s|]; [|reflexivity].
    rewrite updateSummary_run. cbn [summaries]. now rewrite get_set_same.
  - destruct (JsMap.get id (processingJobs w)) as [j|]; [|reflexivity].
    cbv beta iota zeta. rewrite updateProcessingJob_run.
    cbn [processingJobs consulted]. rewrite get_set_same. cbv zeta.
    cbn [fst snd processingJobs].
    now rewrite set_set_same, mergeJob_overlay.
Qed.

(** X7. [createProcessingJob] files the record under the identifier
    [randomUUID()] answers with; when that identifier is not yet a key of
    the job map the record is appended.  [videoId] and [status] are the
    draft's; an absent [progress], [currentStep], [error] or [result]
    becomes [null], so [progress] does not default to 0; [createdAt] and
    [updatedAt] are two separate clock readings, in this order;
    [getProcessingJob] on the returned identifier gives the returned record
    back. *)
Theorem createProcessingJob_files_record (draft : InsertProcessingJob.t)
  (w : World)
  (Hfresh : JsMap.get (uuid env (consulted w)) (processingJobs w) = None) :
  exists job w',
    createProcessingJob env draft w = (Returned job, w') /\
    ProcessingJob.id job = uuid env (consulted w) /\
    ProcessingJob.videoId job = InsertProcessingJob.videoId draft /\
    ProcessingJob.status job = InsertProcessingJob.status draft /\
    ProcessingJob.progress job =
      match InsertProcessingJob.progress draft with
      | Some (Some progress) => Some progress
      | _ => None
      end /\
    ProcessingJob.currentStep job =
      match InsertProcessingJob.currentStep draft with
      | Some (Some step) => Some step
      | _ => None
      end /\
    ProcessingJob.error job =
      match InsertProcessingJob.error draft with
      | Some (Some message) => Some message
      | _ => None
      end /\
    ProcessingJob.result job =
      match InsertProcessingJob.result draft with
      | Some (Some result) => Some result
      | _ => None
      end /\
    ProcessingJob.createdAt job = Some (clock env (S (consulted w))) /\
    ProcessingJob.updatedAt job = Some (clock env (S (S (consulted w)))) /\
    processingJobs w' =
      (processingJobs w ++ [(ProcessingJob.id job, job)])%list /\
    videos w' = videos w /\
    summaries w' = summaries w /\
    getProcessingJob (ProcessingJob.id job) w' = (Returned (Some job), w').
Proof.
  rewrite createProcessingJob_run. cbv zeta. do 2 eexists.
  split; [reflexivity|].
  cbn [ProcessingJob.id ProcessingJob.videoId ProcessingJob.status
       ProcessingJob.progress ProcessingJob.currentStep ProcessingJob.error
       ProcessingJob.result ProcessingJob.createdAt ProcessingJob.updatedAt
       videos summaries processingJobs].
  repeat (split; [reflexivity|]).
  split; [now destruct (InsertProcessingJob.progress draft) as [[?|]|]|].
  split; [now destruct (InsertProcessingJob.currentStep draft) as [[?|]|]|].
  split; [now destruct (InsertProcessingJob.error draft) as [[?|]|]|].
  split; [now destruct (InsertProcessingJob.result draft) as [[?|]|]|].
  repeat (split; [reflexivity|]).
  split; [now apply set_absent|].
  repeat (split; [reflexivity|]).
  unfold getProcessingJob, processingJobs_get. cbn [processingJobs].
  now rewrite get_set_same.
Qed.

Lemma get_set_keep {V : Type} k (v : V) k' (m : JsMap.t V) :
  k' <> k -> JsMap.get k' (JsMap.set k v m) = JsMap.get k' m.
Proof. intros H. apply get_set_other. congruence. Qed.

(** X8. An update touches one entry only: whether it succeeds or throws, the
    keys of its map and their order are as before, and so is the record
    under every other key.  An update with no property at all leaves the
    video map, or the summary map, exactly as it was. *)
Theorem updates_touch_one_entry (id : string) (w : World)
  (uv : PartialVideo.t) (us : PartialSummary.t) (uj : PartialProcessingJob.t) :
  (JsMap.keys (videos (snd (updateVideo id uv w))) = JsMap.keys (videos w) /\
   (forall k, k <> id ->
      JsMap.get k (videos (snd (updateVideo id uv w))) =
      JsMap.get k (videos w)) /\
   videos (snd (updateVideo id PartialVideo.empty w)) = videos w) /\
  (JsMap.keys (summaries (snd (updateSummary id us w))) =
     JsMap.keys (summaries w) /\
   (forall k, k <> id ->
      JsMap.get k (summaries (snd (updateSummary id us w))) =
      JsMap.get k (summaries w)) /\
   summaries (snd (updateSummary id PartialSummary.empty w)) = summaries w) /\
  (JsMap.keys (processingJobs (snd (updateProcessingJob env id uj w))) =
     JsMap.keys (processingJobs w) /\
   (forall k, k <> id ->
      JsMap.get k (processingJobs (snd (updateProcessingJob env id uj w))) =
      JsMap.get k (processingJobs w))).
Proof.
  rewrite !updateVideo_run, !updateSummary_run, !updateProcessingJob_run.
  split; [|split].
  - destruct (JsMap.get id (videos w)) as [video|] eqn:E;
      [|repeat split; reflexivity].
    cbn [snd videos]. split; [eapply keys_set_present; eauto|].
    split; [intros k Hk; now apply get_set_keep|].
    apply set_get_same. rewrite E. now destruct video.
  - destruct (JsMap.get id (summaries w)) as [summary|] eqn:E;
      [|repeat split; reflexivity].
    cbn [snd summaries]. split; [eapply keys_set_present; eauto|].
    split; [intros k Hk; now apply get_set_keep|].
    apply set_get_same. rewrite E. now destruct summary.
  - destruct (JsMap.get id (processingJobs w)) as [job|] eqn:E;
      [|repeat split; reflexivity].
    cbv zeta. cbn [snd processingJobs].
    split; [eapply keys_set_present; eauto|].
    intros k Hk. now apply get_set_keep.
Qed.

End StoreMore.

(** ** Where the audio comes from *)

Section Sources.
Variable env : Env.

(** X9. The acquisition step on the stored item, outcome by outcome.  A
    non-empty [originalUrl] wins over any [fileName]: only the download is
    invoked; when it resolves, the step returns the [audioPath] of its
    metadata and the item gets [title], [duration] and [thumbnailUrl] from
    it; when it rejects, the step throws that rejection.  Without a URL, a
    non-empty [fileName] leads to the metadata probe on
    [path.join(cwd, "temp/uploads", fileName)]; when the probe rejects, the
    step throws that rejection and the extraction is not invoked; when it
    resolves, the extraction is invoked on the same path; when that rejects
    the step throws its rejection, and when it resolves the step returns
    the path it resolved to and the item gets the [duration] the probe
    found, and nothing else: the title the probe found is dropped.  With
    neither source the step throws at once, nothing having happened.  A
    step that throws leaves the video map as it was, and no step touches the
    other two maps. *)
Theorem acquireAudio_sources (videoId : string) (video : Video.t) (w : World)
  (Hstored : JsMap.get videoId (videos w) = Some video) :
  exists r w' evs,
    acquireAudio env videoId video w = (r, w') /\
    trace w' = (trace w ++ evs)%list /\
    summaries w' = summaries w /\
    processingJobs w' = processingJobs w /\
    match truthy_value (Video.originalUrl video) with
    | Some url =>
        calls evs = [DownloadYouTubeVideo] /\
        match downloadYouTubeVideo_oracle env (consulted w) url with
        | Returned metadata =>
            r = Returned (VideoMetadata.audioPath metadata) /\
            videos w' =
              JsMap.set videoId
                (Video.mk (Video.id video) (VideoMetadata.title metadata)
                   (Video.originalUrl video) (Video.fileName video)
                   (Some (VideoMetadata.duration metadata))
                   (Some (VideoMetadata.thumbnail metadata))
                   (Video.status video) (Video.createdAt video))
                (videos w)
        | Thrown e => r = Thrown e /\ videos w' = videos w
        end
    | None =>
        match truthy_value (Video.fileName video) with
        | Some fileName =>
            let filePath :=
              path_join env [cwd env; "temp/uploads"; fileName] in
            match getVideoMetadata_oracle env (consulted w) filePath with
            | Returned metadata =>
                calls evs = [GetVideoMetadata; ExtractAudioFromFile] /\
                match extractAudioFromFile_oracle env (S (consulted w))
                        filePath with
                | Returned audioPath =>
                    r = Returned audioPath /\
                    videos w' =
                      JsMap.set videoId
                        (Video.mk (Video.id video) (Video.title video)
                           (Video.originalUrl video) (Video.fileName video)
                           (Some (FileMetadata.duration metadata))
                           (Video.thumbnailUrl video) (Video.status video)
                           (Video.createdAt video))
                        (videos w)
                | Thrown e => r = Thrown e /\ videos w' = videos w
                end
            | Thrown e =>
                calls evs = [GetVideoMetadata] /\
                r = Thrown e /\ videos w' = videos w
            end
        | None =>
            evs = [] /\ w' = w /\
            r = Thrown (JsError "No video source available")
        end
    end.
Proof.
  unfold acquireAudio, downloadYouTubeVideo, getVideoMetadata,
    extractAudioFromFile.
  destruct (truthy_value (Video.originalUrl video)) as [url|].
  - rewrite bind_run, await_run.
    destruct (downloadYouTubeVideo_oracle env (consulted w) url)
      as [metadata|e].
    + rewrite bind_run, updateVideo_run. cbn [videos]. rewrite Hstored.
      cbv beta iota. do 2 eexists. eexists [_; _].
      split; [reflexivity|]. cbn [trace videos summaries processingJobs].
      split; [now rewrite <- app_assoc|].
      repeat (split; [reflexivity|]). reflexivity.
    + do 2 eexists. eexists [_]. split; [reflexivity|].
      cbn [trace videos summaries processingJobs].
      repeat (split; [reflexivity|]). reflexivity.
  - destruct (truthy_value (Video.fileName video)) as [fileName|].
    + cbv zeta. rewrite bind_run, await_run.
      destruct (getVideoMetadata_oracle env (consulted w) _) as [metadata|e].
      * rewrite bind_run, await_run. cbn [consulted].
        destruct (extractAudioFromFile_oracle env (S (consulted w)) _)
          as [audioPath|e].
        -- rewrite bind_run, updateVideo_run. cbn [videos]. rewrite Hstored.
           cbv beta iota. do 2 eexists. eexists [_; _; _].
           split; [reflexivity|]. cbn [trace videos summaries processingJobs].
           split; [now rewrite <- !app_assoc|].
           repeat (split; [reflexivity|]). reflexivity.
        -- do 2 eexists. eexists [_; _]. split; [reflexivity|].
           cbn [trace videos summaries processingJobs].
           split; [now rewrite <- !app_assoc|].
           repeat (split; [reflexivity|]). reflexivity.
      * do 2 eexists. eexists [_]. split; [reflexivity|].
        cbn [trace videos summaries processingJobs].
        repeat (split; [reflexivity|]). reflexivity.
    + exists (Thrown (JsError "No video source available")), w, [].
      rewrite app_nil_r. repeat split.
Qed.

End Sources.

(** ** Every way a run of the [try] block can end *)

Section TraceFacts2.

Lemma timers_app evs1 evs2 :
  timers (evs1 ++ evs2) = (timers evs1 ++ timers evs2)%list.
Proof.
  induction evs1 as [|ev evs1 IH]; [reflexivity|].
  destruct ev; simpl; now rewrite ?IH.
Qed.

Lemma summary_writes_app evs1 evs2 :
  summary_writes (evs1 ++ evs2) =
  (summary_writes evs1 ++ summary_writes evs2)%list.
Proof.
  induction evs1 as [|ev evs1 IH]; [reflexivity|].
  destruct ev; simpl; now rewrite ?IH.
Qed.

Lemma video_writes_app evs1 evs2 :
  video_writes (evs1 ++ evs2) = (video_writes evs1 ++ video_writes evs2)%list.
Proof.
  induction evs1 as [|ev evs1 IH]; [reflexivity|].
  destruct ev; simpl; now rewrite ?IH.
Qed.

End TraceFacts2.

Section Profile.
Variable env : Env.

Ltac tidy := cbn [videos summaries processingJobs consulted trace] in *.

Ltac fork H a w Hs e :=
  apply bind_inv in H; destruct H as [(a & w & Hs & H) | (e & Hs & ->)].

Ltac crunch :=
  repeat (progress
            (rewrite ?job_writes_app, ?calls_app, ?console_errors_app,
               ?timers_app, ?summary_writes_app;
             cbn [job_writes calls console_errors timers summary_writes app])).

(** The acquisition, however it ends: it writes no job and no summary, sets
    no timer, keeps the item in the store; when it throws, the job is
    still at its 10% checkpoint. *)
Lemma acquireAudio_cases videoId video w r w' stored :
  JsMap.get videoId (videos w) = Some stored ->
  acquireAudio env videoId video w = (r, w') ->
  exists evs,
    trace w' = (trace w ++ evs)%list /\
    job_writes evs = [] /\
    summary_writes evs = [] /\
    console_errors evs = [] /\
    timers evs = [] /\
    summaries w' = summaries w /\
    processingJobs w' = processingJobs w /\
    JsMap.get videoId (videos w') <> None /\
    match r with
    | Returned _ =>
        calls evs = [DownloadYouTubeVideo] \/
        calls evs = [GetVideoMetadata; ExtractAudioFromFile]
    | Thrown e =>
        exists cause,
          raised env cause e /\
          checkpoint_of cause = (Some 10, Some "analyzing") /\
          last_call evs = last_call_of cause /\
          forall before, summaries_at env videoId cause before before
    end.
Proof.
  intros Hstored. unfold acquireAudio, downloadYouTubeVideo, getVideoMetadata,
    extractAudioFromFile.
  destruct (truthy_value (Video.originalUrl video)) as [url|].
  - intros H. fork H metadata w1 H1 e.
    + apply await_inv in H1. destruct H1 as [_ ->].
      fork H v' w2 H2 e.
      * apply updateVideo_inv in H2. destruct H2 as (v0 & _ & -> & ->).
        injection H as <- <-. tidy.
        eexists [_; _]. rewrite <- app_assoc.
        repeat (split; [reflexivity|]).
        split; [rewrite get_set_same; discriminate|]. left. reflexivity.
      * rewrite updateVideo_run in H2. tidy. rewrite Hstored in H2.
        discriminate H2.
    + apply await_inv in H1. destruct H1 as [Hrej ->]. tidy.
      eexists [_]. repeat (split; [reflexivity|]).
      split; [rewrite Hstored; discriminate|].
      exists (Rejection DownloadYouTubeVideo).
      split; [cbn; eauto|]. repeat split.
  - destruct (truthy_value (Video.fileName video)) as [name|].
    + cbv zeta. intros H. fork H metadata w1 H1 e.
      * apply await_inv in H1. destruct H1 as [_ ->].
        fork H audioPath w2 H2 e.
        -- apply await_inv in H2. destruct H2 as [_ ->].
           fork H v' w3 H3 e.
           ++ apply updateVideo_inv in H3. destruct H3 as (v0 & _ & -> & ->).
              injection H as <- <-. tidy.
              eexists [_; _; _]. rewrite <- !app_assoc.
              repeat (split; [reflexivity|]).
              split; [rewrite get_set_same; discriminate|]. right. reflexivity.
           ++ rewrite updateVideo_run in H3. tidy. rewrite Hstored in H3.
              discriminate H3.
        -- apply await_inv in H2. destruct H2 as [Hrej ->]. tidy.
           eexists [_; _]. rewrite <- !app_assoc.
           repeat (split; [reflexivity|]).
           split; [rewrite Hstored; discriminate|].
           exists (Rejection ExtractAudioFromFile).
           split; [cbn; eauto|]. repeat split.
      * apply await_inv in H1. destruct H1 as [Hrej ->]. tidy.
        eexists [_]. repeat (split; [reflexivity|]).
        split; [rewrite Hstored; discriminate|].
        exists (Rejection GetVideoMetadata).
        split; [cbn; eauto|]. repeat split.
    + intros [= <- <-]. exists []. rewrite app_nil_r.
      repeat (split; [reflexivity|]).
      split; [rewrite Hstored; discriminate|].
      exists NoSource. repeat split.
Qed.

(** Fetching or creating the working summary never throws. *)
Lemma fetchOrCreateSummary_cases videoId w r w' :
  fetchOrCreateSummary env videoId w = (r, w') ->
  exists s evs,
    r = Returned s /\
    working_summary env videoId (summaries w) (consulted w) s (summaries w') /\
    videos w' = videos w /\
    processingJobs w' = processingJobs w /\
    trace w' = (trace w ++ evs)%list /\
    job_writes evs = [] /\ calls evs = [] /\ console_errors evs = [] /\
    timers evs = [].
Proof.
  unfold fetchOrCreateSummary, getSummaryByVideoId, bind, summaries_values, ret,
    working_summary.
  fold (summary_of videoId).
  destruct (find (summary_of videoId) (JsMap.values (summaries w))) as [s0|].
  - intros [= <- <-]. exists s0, []. rewrite app_nil_r. repeat split.
    left. auto.
  - rewrite createSummary_run. cbv zeta. intros [= <- <-].
    eexists. eexists [_]. cbn. repeat split. right. auto.
Qed.

End Profile.

Section Profile2.
Variable env : Env.

Ltac tidy := cbn [videos summaries processingJobs consulted trace] in *.

Ltac fork H a w Hs e :=
  apply bind_inv in H; destruct H as [(a & w & Hs & H) | (e & Hs & ->)].

(** A job update that finds its job. *)
Ltac job_fork H j w Hs Hjobs :=
  let e := fresh "e" in
  fork H j w Hs e;
  [ apply updateProcessingJob_inv in Hs;
    let j0 := fresh "j" in
    let Hj := fresh "Hj" in
    destruct Hs as (j0 & Hj & -> & ->); tidy;
    rewrite ?Hjobs, ?get_set_same in Hj; injection Hj as <-
  | rewrite updateProcessingJob_run in Hs; tidy;
    rewrite ?Hjobs, ?get_set_same in Hs; discriminate Hs ].

Ltac trace_facts H1 H2 H3 H4 :=
  repeat (progress
            (rewrite ?job_writes_app, ?calls_app, ?console_errors_app,
               ?timers_app, ?summary_writes_app, ?H1, ?H2, ?H3, ?H4;
             cbn [job_writes calls console_errors timers summary_writes app])).

Ltac stop_early cause :=
  match goal with
  | Ht3 : trace _ = (_ ++ ?evs3)%list,
    Hw3 : job_writes ?evs3 = [],
    Hsw3 : summary_writes ?evs3 = [],
    He3 : console_errors ?evs3 = [],
    Htm3 : timers ?evs3 = [],
    Hs3 : summaries ?w3 = summaries _,
    Hj3 : processingJobs ?w3 = _,
    Hv3 : JsMap.get _ (videos ?w3) <> None,
    Hc3 : calls ?evs3 = _ \/ calls ?evs3 = _ |- _ =>
      do 2 eexists; rewrite ?Ht3, ?Hj3, ?Hs3, ?set_set_same;
      split; [rewrite <- !app_assoc; reflexivity|];
      split; [trace_facts He3 He3 He3 He3; reflexivity|];
      split; [reflexivity|]; split; [reflexivity|]; split; [reflexivity|];
      split; [exact Hv3|];
      exists cause; split; [cbn; eauto 10|];
      split; [trace_facts Htm3 Htm3 Htm3 Htm3; reflexivity|];
      split; [unfold last_call; destruct Hc3 as [Hc3|Hc3];
              trace_facts Hc3 Hc3 Hc3 Hc3; reflexivity|];
      split; [reflexivity|]; split; [reflexivity|]
  end.

Ltac stop_late cause :=
  match goal with
  | Ht3 : trace _ = (_ ++ ?evs3)%list,
    He3 : console_errors ?evs3 = [],
    Htm3 : timers ?evs3 = [],
    Hj3 : processingJobs ?w3 = _,
    Hv3 : JsMap.get _ (videos ?w3) <> None,
    Hc3 : calls ?evs3 = _ \/ calls ?evs3 = _,
    Ht9 : trace ?w9 = (_ ++ ?evs9)%list,
    He9 : console_errors ?evs9 = [],
    Htm9 : timers ?evs9 = [],
    Hc9 : calls ?evs9 = [],
    Hj9 : processingJobs ?w9 = _,
    Hv9 : videos ?w9 = videos ?w3 |- _ =>
      do 2 eexists; rewrite ?Ht9, ?Ht3, ?Hj9, ?Hj3, ?Hv9, ?set_set_same;
      split; [rewrite <- !app_assoc; reflexivity|];
      split; [trace_facts He3 He9 He3 He9; reflexivity|];
      split; [reflexivity|]; split; [reflexivity|]; split; [reflexivity|];
      split; [exact Hv3|];
      exists cause; split; [cbn; eauto 10|];
      split; [trace_facts Htm3 Htm9 Htm3 Htm9; reflexivity|];
      split; [unfold last_call; destruct Hc3 as [Hc3|Hc3];
              trace_facts Hc3 Hc9 Hc3 Hc9; reflexivity|];
      split; [reflexivity|]; split; [reflexivity|]
  end.

(** What a run of the [try] block on a stored item has done, however it
    ended: all its job writes went to the job it created; when it returned,
    that job is completed and one clean-up timer of 24 hours is set; when it
    threw, no timer is set, the job is still [processing] at the checkpoint
    of the stage that failed, and the summary map is at the corresponding
    point. *)
Lemma processVideo_try_profile videoId w r w1 video :
  JsMap.get videoId (videos w) = Some video ->
  processVideo_try env videoId w = (r, w1) ->
  exists evs jlast,
    trace w1 = (trace w ++ evs)%list /\
    console_errors evs = [] /\
    processingJobs w1 =
      JsMap.set (uuid env (consulted w)) jlast (processingJobs w) /\
    ProcessingJob.id jlast = uuid env (consulted w) /\
    ProcessingJob.videoId jlast = videoId /\
    JsMap.get videoId (videos w1) <> None /\
    match r with
    | Returned _ =>
        ProcessingJob.status jlast = "completed" /\
        exists audioPath,
          timers evs =
            [([audioPath;
               path_join env [cwd env; "temp"; videoId ++ "_speech.mp3"]],
              86400000)]
    | Thrown e =>
        exists cause,
          raised env cause e /\
          timers evs = [] /\
          last_call evs = last_call_of cause /\
          ProcessingJob.status jlast = "processing" /\
          progress_step jlast = checkpoint_of cause /\
          summaries_at env videoId cause (summaries w) (summaries w1)
    end.
Proof.
  intros Hvideo H. unfold processVideo_try, getVideo in H.
  fork H found w0 Hget e0;
    [|unfold videos_get in Hget; discriminate Hget].
  unfold videos_get in Hget. injection Hget as <- <-. rewrite Hvideo in H.
  fork H job w2 Hjob e0;
    [|rewrite createProcessingJob_run in Hjob; discriminate Hjob].
  rewrite createProcessingJob_run in Hjob. cbv zeta in Hjob.
  injection Hjob as <- <-. cbn [ProcessingJob.id] in H.
  job_fork H j10 w3 H2 False.
  fork H audioPath w4 H3 e0.
  2: { apply (acquireAudio_cases env _ _ _ _ _ video) in H3; [|exact Hvideo].
       destruct H3 as (evs3 & Ht3 & Hw3 & Hsw3 & He3 & Htm3 & Hs3 & Hj3 & Hv3 &
                       cause & Hraised & Hcp & Hlast & Hsum).
       tidy. eexists. eexists. rewrite Ht3, Hj3, Hs3, set_set_same.
       split; [rewrite <- !app_assoc; reflexivity|].
       split; [trace_facts He3 He3 He3 He3; reflexivity|].
       split; [reflexivity|]. split; [reflexivity|]. split; [reflexivity|].
       split; [exact Hv3|].
       exists cause. split; [exact Hraised|].
       split; [trace_facts Htm3 Htm3 Htm3 Htm3; reflexivity|].
       split; [unfold last_call in *; trace_facts Hw3 Hw3 Hw3 Hw3;
               exact Hlast|].
       split; [reflexivity|]. split; [rewrite Hcp; reflexivity|].
       apply Hsum. }
  apply (acquireAudio_cases env _ _ _ _ _ video) in H3; [|exact Hvideo].
  destruct H3 as (evs3 & Ht3 & Hw3 & Hsw3 & He3 & Htm3 & Hs3 & Hj3 & Hv3 & Hc3).
  tidy. unfold summarize, readFile, transcribeAudio, analyzeVideoContent,
    generateSummary, generateSpeech, writeFile in H.
  cbn [ProcessingJob.id] in H.
  job_fork H j30 w5 H4 Hj3.
  fork H audioBuffer w6 H5 e0; apply await_inv in H5; destruct H5 as [H5 ->];
    tidy.
  2: { stop_early (Rejection ReadFile). reflexivity. }
  fork H transcript w7 H6 e0; apply await_inv in H6; destruct H6 as [H6 ->];
    tidy.
  2: { stop_early (Rejection TranscribeAudio). reflexivity. }
  job_fork H j50 w8 H7 Hj3.
  fork H analysis w9 H8 e0; apply await_inv in H8; destruct H8 as [H8 ->];
    tidy.
  2: { stop_early (Rejection AnalyzeVideoContent). reflexivity. }
  fork H s w10 H9 e0; apply fetchOrCreateSummary_cases in H9;
    destruct H9 as (s' & evs9 & Hr9 & Hws & Hv9 & Hj9 & Ht9 & Hw9 & Hc9 & He9 &
                    Htm9);
    [injection Hr9 as <-|discriminate Hr9].
  tidy. rewrite Hs3 in Hws.
  fork H res w11 H10 e0; apply await_inv in H10; destruct H10 as [H10 ->];
    tidy.
  2: { stop_late (Rejection GenerateSummary). cbn. eauto. }
  fork H s1 w12 H11 e0.
  2: { rewrite updateSummary_run in H11. tidy.
       destruct (JsMap.get (Summary.id s) (summaries w10)) eqn:Hnone;
         [discriminate H11|].
       injection H11 as <- <-. tidy.
       stop_late SummaryMissing. cbn. eauto. }
  apply updateSummary_inv in H11. destruct H11 as (x & Hx & -> & ->). tidy.
  job_fork H j70 w13 H12 Hj9.
  fork H speechBuffer w14 H13 e0; apply await_inv in H13;
    destruct H13 as [H13 ->]; tidy.
  2: { stop_late (Rejection GenerateSpeech). cbn. eauto 10. }
  cbv zeta in H.
  fork H written w15 H14 e0; apply await_inv in H14;
    destruct H14 as [H14 ->]; tidy.
  2: { stop_late (Rejection WriteFile). cbn. eauto 10. }
  job_fork H j90 w16 H15 Hj9.
  fork H s2 w17 H16 e0.
  2: { rewrite updateSummary_run in H16. tidy.
       rewrite get_set_same in H16. discriminate H16. }
  apply updateSummary_inv in H16. destruct H16 as (x2 & Hx2 & -> & ->). tidy.
  job_fork H j100 w18 H17 Hj9.
  fork H v' w19 H18 e0.
  2: { rewrite updateVideo_run in H18. tidy. rewrite Hv9 in H18.
       destruct (JsMap.get videoId (videos w4)); [discriminate H18|].
       now contradiction Hv3. }
  apply updateVideo_inv in H18. destruct H18 as (v & Hv & -> & ->). tidy.
  unfold setTimeout_cleanup, log in H. injection H as <- <-. tidy.
  do 2 eexists. rewrite ?Ht9, ?Ht3, ?Hj9, ?Hj3, ?set_set_same.
  split; [rewrite <- !app_assoc; reflexivity|].
  split; [trace_facts He3 He9 He3 He9; reflexivity|].
  split; [reflexivity|]. split; [reflexivity|]. split; [reflexivity|].
  split; [rewrite get_set_same; discriminate|].
  split; [reflexivity|].
  exists audioPath. trace_facts Htm3 Htm9 Htm3 Htm9. reflexivity.
Qed.

End Profile2.

(** ** What a failing run leaves behind *)

Section FailureTable.
Variable env : Env.
Variable videoId : string.



End FailureTable.

(** ** How every run on a stored item ends *)

Section Settles.
Variable env : Env.
Variable videoId : string.


(** X12. After a run of the [try] block that reached its end, the summary found
    for the item carries the generated text and, both as [audioUrl] and as
    [finalVideoUrl], the path of the synthesized speech: no other media is
    produced.  The completed job's [result] names that summary and that
    path. *)
Theorem completed_run_result (w w' : World)
  (Hfiled : filed Summary.id (summaries w))
  (Hrun : processVideo_try env videoId w = (Returned tt, w')) :
  let audioOutputPath :=
    path_join env [cwd env; "temp"; videoId ++ "_speech.mp3"] in
  exists summary job,
    getSummaryByVideoId videoId w' = (Returned (Some summary), w') /\
    Summary.audioUrl summary = Some audioOutputPath /\
    Summary.finalVideoUrl summary = Some audioOutputPath /\
    getProcessingJob (uuid env (consulted w)) w' = (Returned (Some job), w') /\
    ProcessingJob.status job = "completed" /\
    ProcessingJob.result job =
      Some (JobResult.mk (Summary.id summary) audioOutputPath).
Proof.
  pose proof (processVideo_try_inv env _ _ _ Hrun) as Hinv. cbv zeta in Hinv.
  destruct Hinv as (video & evs & j0 & j10 & j30 & j50 & j70 & j90 & j100 &
    s & x & res & n & n' & transcript & analysis & m & vfinal & Hvideo &
    Htrace & Hwrites & Hsteps & Hstatus & Hvid & Hresult & Hjobs & Hcalls &
    Herrors & Hws & Hx & Hres & Hsum & Hfinal & Hcompleted & Hid).
  destruct (working_summary_filed env _ _ _ _ _ Hfiled Hws)
    as (Hm & Hfind & Hget).
  rewrite Hget in Hx. injection Hx as <-.
  cbv zeta. do 2 eexists.
  split.
  { unfold getSummaryByVideoId, bind, summaries_values, ret.
    fold (summary_of videoId). rewrite Hsum.
    erewrite find_set_found; eauto.
    unfold summary_of. cbn.
    destruct (find_values_In _ _ _ Hfind) as (_ & _ & Hp). exact Hp. }
  split; [reflexivity|]. split; [reflexivity|].
  split.
  { unfold getProcessingJob, processingJobs_get. rewrite Hjobs.
    now rewrite get_set_same. }
  split; [now injection Hstatus | exact Hresult].
Qed.

End Settles.

(** ** How the three routes on stored records answer *)

Section Answers.
Variable env : Env.

(** X13. [GET /api/videos/:id] never answers 500 and never touches the state:
    it answers 404 with ["Video not found"] exactly when the identifier is
    not a key of the video map, and otherwise 200 with the stored item
    together with the first summary and the first job whose [videoId] is
    the item's [id], either of which may be missing. *)
Theorem get_video_route_answers (id : string) (w : World) :
  exists resp,
    get_video_route id w = (Returned resp, w) /\
    statusCode resp <> 500 /\
    (statusCode resp = 404 <-> JsMap.get id (videos w) = None) /\
    match JsMap.get id (videos w) with
    | None => json resp = JsonMessage "Video not found"
    | Some video =>
        resp =
          mkResponse 200
            (JsonStatus video
               (find (summary_of (Video.id video))
                  (JsMap.values (summaries w)))
               (find (job_of (Video.id video))
                  (JsMap.values (processingJobs w))))
    end.
Proof.
  unfold get_video_route, try_catch, getVideo, getSummaryByVideoId,
    getProcessingJobByVideoId, bind, videos_get, summaries_values,
    processingJobs_values, ret.
  destruct (JsMap.get id (videos w)) as [video|]; eexists;
    (split; [reflexivity|]); cbn [statusCode json].
  - split; [discriminate|]. split; [split; discriminate | reflexivity].
  - split; [discriminate|]. split; [split; reflexivity | reflexivity].
Qed.

(** X14. [PATCH /api/summaries/:id] always answers, with 200 or with 400.  It
    answers 200 exactly when [content] is a non-empty string and the
    identifier is a key of the summary map.  A 400 leaves the whole state
    untouched; its message is the validation message when [content] is
    missing or empty and ["Summary not found"] when the identifier is
    unknown: an unknown summary is a 400 here, not a 404.  No service is
    invoked and the other two maps stay as they are. *)
Theorem patch_summary_route_answers (id : string) (content : optional string)
  (w : World) :
  exists resp w' evs,
    patch_summary_route env id content w = (Returned resp, w') /\
    trace w' = (trace w ++ evs)%list /\ calls evs = [] /\
    videos w' = videos w /\ processingJobs w' = processingJobs w /\
    (statusCode resp = 200 \/ statusCode resp = 400) /\
    (statusCode resp = 200 <->
     exists s, content = Some s /\ s <> "" /\
               JsMap.get id (summaries w) <> None) /\
    (statusCode resp = 400 ->
     w' = w /\
     json resp =
       JsonMessage
         (match content with
          | Some (String _ _) => "Summary not found"
          | _ => zodError_message env content
          end)).
Proof.
  unfold patch_summary_route, try_catch, summaryUpdateSchema_parse.
  destruct content as [[|c s]|]; cbn [truthy].
  - exists (mkResponse 400 (JsonMessage (zodError_message env (Some "")))),
      w, [].
    rewrite app_nil_r. cbn [statusCode json].
    repeat (split; [reflexivity|]). split; [now right|].
    split; [|intros _; split; reflexivity].
    split; [discriminate|]. intros (s & [= <-] & Hs & _). now elim Hs.
  - rewrite bind_run. unfold ret at 1. rewrite bind_run, updateSummary_run.
    destruct (JsMap.get id (summaries w)) as [x|].
    + cbv zeta. do 2 eexists. eexists [_].
      split; [reflexivity|]. cbn [trace videos processingJobs statusCode json].
      repeat (split; [reflexivity|]). split; [now left|].
      split; [|discriminate].
      split; [|reflexivity]. intros _. exists (String c s).
      repeat split; discriminate.
    + exists (mkResponse 400 (JsonMessage "Summary not found")), w, [].
      rewrite app_nil_r. cbn [statusCode json].
      repeat (split; [reflexivity|]). split; [now right|].
      split; [|intros _; split; reflexivity].
      split; [discriminate|]. intros (s' & _ & _ & Hget). now elim Hget.
  - exists (mkResponse 400 (JsonMessage (zodError_message env None))), w, [].
    rewrite app_nil_r. cbn [statusCode json].
    repeat (split; [reflexivity|]). split; [now right|].
    split; [|intros _; split; reflexivity].
    split; [discriminate|]. intros (s & [=] & _).
Qed.

(** X15. [POST /api/summaries/:id/regenerate-audio] always answers, with 200, 404
    or 500.  It answers 404 exactly when the identifier is not a key of the
    summary map, and then nothing at all has happened.  Whenever the answer
    is not 200 the summary map is as before.  When the speech service
    rejects, the answer is 500 with the message of the rejection and the
    file is never written; a 200 means that the speech service and then
    the file write were each invoked once. *)
Theorem regenerate_audio_route_answers (id : string) (w : World) :
  exists resp w' evs,
    regenerate_audio_route env id w = (Returned resp, w') /\
    trace w' = (trace w ++ evs)%list /\
    videos w' = videos w /\ processingJobs w' = processingJobs w /\
    In (statusCode resp) [200; 404; 500] /\
    (statusCode resp = 404 <-> JsMap.get id (summaries w) = None) /\
    (statusCode resp = 404 -> w' = w) /\
    (statusCode resp <> 200 -> summaries w' = summaries w) /\
    (statusCode resp = 200 -> calls evs = [GenerateSpeech; WriteFile]) /\
    (forall s e,
       JsMap.get id (summaries w) = Some s ->
       generateSpeech_oracle env (consulted w) (Summary.content s)
         (Summary.voiceId s) (Summary.speechSpeed s) = Thrown e ->
       resp =
         mkResponse 500
           (JsonMessage (message_or "Failed to regenerate audio" e)) /\
       calls evs = [GenerateSpeech]).
Proof.
  unfold regenerate_audio_route, try_catch, getSummary. rewrite bind_run.
  unfold summaries_get at 1.
  destruct (JsMap.get id (summaries w)) as [s|].
  - unfold generateSpeech, writeFile. cbv zeta.
    rewrite bind_run, await_run.
    destruct (generateSpeech_oracle env (consulted w) _ _ _) as [speech|e]
      eqn:Hspeech.
    + rewrite bind_run, await_run. cbn [consulted].
      destruct (writeFile_oracle env _ _ _) as [[]|e'].
      * rewrite bind_run, updateSummary_run. cbn [summaries].
        destruct (JsMap.get (Summary.id s) (summaries w)) as [x|].
        -- cbv zeta. do 2 eexists. eexists [_; _; _].
           split; [reflexivity|].
           cbn [trace videos processingJobs summaries statusCode].
           split; [now rewrite <- !app_assoc|].
           repeat (split; [reflexivity|]).
           split; [cbn; tauto|].
           split; [split; discriminate|].
           split; [discriminate|].
           split; [intros H; now elim H|].
           split; [reflexivity|].
           intros s0 e [= <-] H. rewrite Hspeech in H. discriminate.
        -- do 2 eexists. eexists [_; _].
           split; [reflexivity|].
           cbn [trace videos processingJobs summaries statusCode].
           split; [now rewrite <- !app_assoc|].
           repeat (split; [reflexivity|]).
           split; [cbn; tauto|].
           split; [split; discriminate|].
           split; [discriminate|].
           split; [reflexivity|].
           split; [discriminate|].
           intros s0 e [= <-] H. rewrite Hspeech in H. discriminate.
      * do 2 eexists. eexists [_; _].
        split; [reflexivity|].
        cbn [trace videos processingJobs summaries statusCode].
        split; [now rewrite <- !app_assoc|].
        repeat (split; [reflexivity|]).
        split; [cbn; tauto|].
        split; [split; discriminate|].
        split; [discriminate|].
        split; [reflexivity|].
        split; [discriminate|].
        intros s0 e [= <-] H. rewrite Hspeech in H. discriminate.
    + do 2 eexists. eexists [_].
      split; [reflexivity|].
      cbn [trace videos processingJobs summaries statusCode].
      repeat (split; [reflexivity|]).
      split; [cbn; tauto|].
      split; [split; discriminate|].
      split; [discriminate|].
      split; [reflexivity|].
      split; [discriminate|].
      intros s0 e0 [= <-] H. rewrite Hspeech in H. injection H as <-.
      split; reflexivity.
  - exists (mkResponse 404 (JsonMessage "Summary not found")), w, [].
    rewrite app_nil_r. cbn [statusCode].
    repeat (split; [reflexivity|]).
    split; [cbn; tauto|].
    split; [split; reflexivity|].
    split; [reflexivity|].
    split; [reflexivity|].
    split; [discriminate|].
    intros s e [=].
Qed.

End Answers.

(** ** Ownership and job states in every reachable store *)

Section Soundness.
Variable env : Env.

Lemma Forall_set {V : Type} (P : string * V -> Prop) k v (m : JsMap.t V) :
  P (k, v) -> Forall P m -> Forall P (JsMap.set k v m).
Proof.
  intros Hkv. induction 1 as [|[k0 v0] m H0 Hm IH]; simpl.
  - constructor; [exact Hkv | constructor].
  - destruct (String.eqb k k0); constructor; assumption.
Qed.

Lemma Forall_get {V : Type} (P : string * V -> Prop) k v (m : JsMap.t V) :
  Forall P m -> JsMap.get k m = Some v -> P (k, v).
Proof.
  intros Hall Hget. rewrite Forall_forall in Hall.
  apply Hall. now apply get_Some_In.
Qed.

Lemma In_keys_set_mono {V : Type} k (v : V) k' (m : JsMap.t V) :
  In k' (JsMap.keys m) -> In k' (JsMap.keys (JsMap.set k v m)).
Proof.
  induction m as [|[k0 v0] m IH]; simpl; [tauto|].
  destruct (String.eqb_spec k k0) as [->|Hne]; simpl; tauto.
Qed.

Lemma In_keys_set_same {V : Type} k (v : V) (m : JsMap.t V) :
  In k (JsMap.keys (JsMap.set k v m)).
Proof.
  induction m as [|[k0 v0] m IH]; simpl; [now left|].
  destruct (String.eqb_spec k k0) as [->|Hne]; simpl; tauto.
Qed.

Lemma sound_set_video known w k v n t :
  sound known w ->
  sound known
    (mkWorld (JsMap.set k v (videos w)) (summaries w) (processingJobs w) n t).
Proof.
  intros ((Hs & Hj) & Hjs & Hk). split; [split|split]; cbn.
  - eapply Forall_impl; [|exact Hs]. intros kv. apply In_keys_set_mono.
  - eapply Forall_impl; [|exact Hj]. intros kv. apply In_keys_set_mono.
  - exact Hjs.
  - intros x Hx. apply In_keys_set_mono. now apply Hk.
Qed.

Lemma sound_set_summary known w k s n t :
  In (Summary.videoId s) (JsMap.keys (videos w)) ->
  sound known w ->
  sound known
    (mkWorld (videos w) (JsMap.set k s (summaries w)) (processingJobs w) n t).
Proof.
  intros Hin ((Hs & Hj) & Hjs & Hk). split; [split|split]; cbn;
    try assumption.
  now apply Forall_set.
Qed.

Lemma sound_set_job known w k j n t :
  In (ProcessingJob.videoId j) (JsMap.keys (videos w)) ->
  job_sound j ->
  sound known w ->
  sound known
    (mkWorld (videos w) (summaries w) (JsMap.set k j (processingJobs w)) n t).
Proof.
  intros Hin Hsound ((Hs & Hj) & Hjs & Hk). split; [split|split]; cbn;
    try assumption.
  - now apply Forall_set.
  - now apply Forall_set.
Qed.

Lemma sound_await known (c : Capability) {A : Type} (f : nat -> Outcome A) :
  preserves (sound known) (await c f).
Proof. intros w H. rewrite await_run. exact H. Qed.

Lemma sound_log known (ev : Event) : preserves (sound known) (log ev).
Proof. intros w H. exact H. Qed.

Lemma sound_updateVideo known id updates :
  preserves (sound known) (updateVideo id updates).
Proof.
  intros w H. rewrite updateVideo_run.
  destruct (JsMap.get id (videos w)) as [video|]; [|exact H].
  now apply sound_set_video.
Qed.

Lemma sound_updateSummary known id updates :
  PartialSummary.videoId updates = None ->
  preserves (sound known) (updateSummary id updates).
Proof.
  intros Hvid w H. rewrite updateSummary_run.
  destruct (JsMap.get id (summaries w)) as [summary|] eqn:E; [|exact H].
  apply sound_set_summary; [|exact H].
  unfold mergeSummary. cbn. rewrite Hvid. cbn.
  destruct H as ((Hs & _) & _).
  exact (Forall_get _ _ _ _ Hs E).
Qed.

Lemma sound_updateProcessingJob known id updates :
  job_update_sound updates ->
  preserves (sound known) (updateProcessingJob env id updates).
Proof.
  intros (Hvid & Hstatus & Hstep) w H. rewrite updateProcessingJob_run.
  destruct (JsMap.get id (processingJobs w)) as [job|] eqn:E; [|exact H].
  cbv zeta. pose proof H as ((_ & Hj) & Hjs & _).
  pose proof (Forall_get _ _ _ _ Hj E) as Hin.
  pose proof (Forall_get _ _ _ _ Hjs E) as (Hst & Hcp).
  cbn [snd] in Hin, Hst, Hcp.
  apply sound_set_job; [| |exact H].
  - unfold mergeJob. cbn. rewrite Hvid. exact Hin.
  - unfold job_sound, progress_step, mergeJob. cbn.
    unfold progress_step in Hcp. split.
    + destruct (PartialProcessingJob.status updates); assumption.
    + destruct (PartialProcessingJob.progress updates),
        (PartialProcessingJob.currentStep updates); cbn; tauto.
Qed.

Lemma sound_createVideo known draft :
  preserves (sound known) (createVideo env draft).
Proof.
  intros w H. rewrite createVideo_run. cbv zeta. now apply sound_set_video.
Qed.

(** A summary or a job may be created for a known item. *)
Lemma sound_createSummary known draft :
  In (InsertSummary.videoId draft) known ->
  preserves (sound known) (createSummary env draft).
Proof.
  intros Hin w H. rewrite createSummary_run. cbv zeta.
  apply sound_set_summary; [|exact H]. cbn.
  destruct H as (_ & _ & Hk). now apply Hk.
Qed.

Lemma sound_createProcessingJob known videoId :
  In videoId known ->
  preserves (sound known) (createProcessingJob env (jobDraft videoId)).
Proof.
  intros Hin w H. rewrite createProcessingJob_run. cbv zeta.
  apply sound_set_job; [| |exact H]; cbn.
  - destruct H as (_ & _ & Hk). now apply Hk.
  - split; cbn; tauto.
Qed.

Lemma sound_getVideo known id : preserves (sound known) (getVideo id).
Proof. intros w H. exact H. Qed.

Lemma sound_getSummary known id : preserves (sound known) (getSummary id).
Proof. intros w H. exact H. Qed.

Lemma sound_getSummaryByVideoId known videoId :
  preserves (sound known) (getSummaryByVideoId videoId).
Proof. intros w H. exact H. Qed.

Lemma sound_getProcessingJobByVideoId known videoId :
  preserves (sound known) (getProcessingJobByVideoId videoId).
Proof. intros w H. exact H. Qed.

Lemma sound_forget known w : sound known w -> sound [] w.
Proof.
  intros (Ho & Hj & _). split; [exact Ho|]. split; [exact Hj|].
  intros x [].
Qed.

Lemma sound_learn w k v :
  sound [] w -> JsMap.get k (videos w) = Some v -> sound [k] w.
Proof.
  intros (Ho & Hj & _) Hget. split; [exact Ho|]. split; [exact Hj|].
  intros x [<-|[]]. eapply In_keys. eapply get_Some_In. exact Hget.
Qed.

Ltac sound_steps :=
  repeat match goal with
    | |- preserves _ (bind _ _) => apply preserves_bind; [|intros ?]
    | |- preserves _ (ret _) => apply preserves_ret
    | |- preserves _ (throw _) => apply preserves_throw
    | |- preserves _ (log _) => apply sound_log
    | |- preserves _ (await _ _) => apply sound_await
    | |- preserves _ (getVideo _) => apply sound_getVideo
    | |- preserves _ (getSummary _) => apply sound_getSummary
    | |- preserves _ (getSummaryByVideoId _) =>
        apply sound_getSummaryByVideoId
    | |- preserves _ (getProcessingJobByVideoId _) =>
        apply sound_getProcessingJobByVideoId
    | |- preserves _ (createSummary _ _) =>
        apply sound_createSummary; now left
    | |- preserves _ (createProcessingJob _ _) =>
        apply sound_createProcessingJob; now left
    | |- preserves _ (updateVideo _ _) => apply sound_updateVideo
    | |- preserves _ (updateSummary _ _) =>
        apply sound_updateSummary; reflexivity
    | |- preserves _ (updateProcessingJob _ _ _) =>
        apply sound_updateProcessingJob;
        (split; [reflexivity | split; cbn; tauto])
    | |- preserves _ (match ?x with _ => _ end) => destruct x
    end.

Lemma sound_processVideo_try videoId :
  preserves (sound []) (processVideo_try env videoId).
Proof.
  intros w H. unfold processVideo_try, getVideo. rewrite bind_run.
  unfold videos_get at 1.
  destruct (JsMap.get videoId (videos w)) as [video|] eqn:E; [|exact H].
  apply (sound_forget [videoId]).
  pose proof (sound_learn w videoId video H E) as Hk. revert Hk.
  match goal with
  | |- _ -> sound _ (snd (?m w)) =>
      cut (preserves (sound [videoId]) m); [intros Hp; apply Hp|]
  end.
  unfold acquireAudio, summarize, fetchOrCreateSummary, downloadYouTubeVideo,
    getVideoMetadata, extractAudioFromFile, readFile, transcribeAudio,
    analyzeVideoContent, generateSummary, generateSpeech, writeFile,
    setTimeout_cleanup, defaultSummaryDraft.
  cbv zeta. sound_steps.
Qed.

Lemma sound_processVideo videoId :
  preserves (sound []) (processVideo env videoId).
Proof.
  unfold processVideo. apply preserves_try_catch.
  - apply sound_processVideo_try.
  - intros e. unfold processVideo_catch, console_error. sound_steps.
Qed.

Lemma sound_submit draft style targetDuration voiceId speechSpeed :
  preserves (sound [])
    (submit env draft style targetDuration voiceId speechSpeed).
Proof.
  intros w H. unfold submit. rewrite bind_run, createVideo_run.
  cbv beta iota zeta. rewrite bind_run, createSummary_run.
  cbv beta iota zeta. cbn [snd Video.id].
  apply sound_set_summary.
  - cbn. apply In_keys_set_same.
  - now apply sound_set_video.
Qed.

Lemma sound_get_video_route id : preserves (sound []) (get_video_route id).
Proof.
  unfold get_video_route. apply preserves_try_catch; [|intros e]; sound_steps.
Qed.

Lemma sound_patch_summary_route id content :
  preserves (sound []) (patch_summary_route env id content).
Proof.
  unfold patch_summary_route, summaryUpdateSchema_parse.
  apply preserves_try_catch; [|intros e]; sound_steps.
Qed.

Lemma sound_regenerate_audio_route id :
  preserves (sound []) (regenerate_audio_route env id).
Proof.
  unfold regenerate_audio_route, generateSpeech, writeFile.
  apply preserves_try_catch; [|intros e]; cbv zeta; sound_steps.
Qed.

Lemma reachable_sound (w : World) : reachable env w -> sound [] w.
Proof.
  induction 1 as [|w ? ? ? ? ? _ IH|w ? _ IH|w ? _ IH|w ? ? _ IH|w ? _ IH].
  - split; [split; constructor|]. split; [constructor|]. intros x [].
  - now apply sound_submit.
  - now apply sound_processVideo.
  - now apply sound_get_video_route.
  - now apply sound_patch_summary_route.
  - now apply sound_regenerate_audio_route.
Qed.

(** X16. Whatever requests were served and whatever the services answered, every
    summary and every job of the store belongs to a stored item: the
    [videoId] of each one is a key of the video map, so [getVideo] on it
    finds an item. *)
Theorem reachable_owned (w : World) (Hreach : reachable env w) :
  (forall key summary,
     JsMap.get key (summaries w) = Some summary ->
     exists video,
       getVideo (Summary.videoId summary) w = (Returned (Some video), w)) /\
  (forall key job,
     JsMap.get key (processingJobs w) = Some job ->
     exists video,
       getVideo (ProcessingJob.videoId job) w = (Returned (Some video), w)).
Proof.
  destruct (reachable_sound w Hreach) as ((Hs & Hj) & _).
  unfold getVideo, videos_get. split.
  - intros key summary Hget.
    pose proof (Forall_get _ _ _ _ Hs Hget) as Hin. cbn in Hin.
    destruct (JsMap.get (Summary.videoId summary) (videos w)) as [video|] eqn:E;
      [eauto|].
    apply get_None_keys in E. contradiction.
  - intros key job Hget.
    pose proof (Forall_get _ _ _ _ Hj Hget) as Hin. cbn in Hin.
    destruct (JsMap.get (ProcessingJob.videoId job) (videos w))
      as [video|] eqn:E; [eauto|].
    apply get_None_keys in E. contradiction.
Qed.

(** X17. Whatever requests were served and whatever the services answered, the
    status of every stored job is ["processing"], ["completed"] or
    ["failed"], never ["pending"], and its [progress] and [currentStep] are
    one of the seven checkpoints of the pipeline. *)
Theorem reachable_job_states (w : World) (Hreach : reachable env w)
  (key : string) (job : ProcessingJob.t)
  (Hstored : JsMap.get key (processingJobs w) = Some job) :
  In (ProcessingJob.status job) ["processing"; "completed"; "failed"] /\
  ProcessingJob.status job <> "pending" /\
  In (progress_step job) checkpoints.
Proof.
  destruct (reachable_sound w Hreach) as (_ & Hjs & _).
  destruct (Forall_get _ _ _ _ Hjs Hstored) as (Hst & Hcp).
  split; [exact Hst|]. split; [|exact Hcp].
  intros Heq. cbn [snd] in Hst. rewrite Heq in Hst.
  cbn in Hst. intuition discriminate.
Qed.

(** X18. In every reachable state, [GET /api/videos/:id] on a stored item
    answers 200 with records that agree with one another: the item shown
    has the identifier asked for, the summary and the job shown, if any,
    have it as their [videoId], and each of them is the record that
    [getSummary], or [getProcessingJob], returns for its own [id], so the
    identifiers shown can be used with the routes on summaries. *)
Theorem reachable_status_consistent (w : World) (id : string)
  (video : Video.t)
  (Hreach : reachable env w)
  (Hstored : JsMap.get id (videos w) = Some video) :
  exists summary job,
    get_video_route id w =
      (Returned (mkResponse 200 (JsonStatus video summary job)), w) /\
    Video.id video = id /\
    (forall s, summary = Some s ->
       Summary.videoId s = id /\
       getSummary (Summary.id s) w = (Returned (Some s), w)) /\
    (forall j, job = Some j ->
       ProcessingJob.videoId j = id /\
       getProcessingJob (ProcessingJob.id j) w = (Returned (Some j), w)).
Proof.
  destruct (reachable_wf env w Hreach) as (Hfv & Hfs & Hfj).
  pose proof (filed_get _ _ _ _ Hfv Hstored) as Hkey.
  do 2 eexists. split.
  { unfold get_video_route, try_catch, getVideo, getSummaryByVideoId,
      getProcessingJobByVideoId.
    unfold bind, videos_get, summaries_values, processingJobs_values, ret.
    rewrite Hstored, Hkey. reflexivity. }
  split; [exact Hkey|]. split.
  - intros s Hs. fold (summary_of id) in Hs.
    destruct (find_values_In _ _ _ Hs) as (_ & _ & Hp).
    split; [now apply String.eqb_eq|].
    unfold getSummary, summaries_get.
    now rewrite (find_filed_get _ _ _ _ Hfs Hs).
  - intros j Hj. fold (job_of id) in Hj.
    destruct (find_values_In _ _ _ Hj) as (_ & _ & Hp).
    split; [now apply String.eqb_eq|].
    unfold getProcessingJob, processingJobs_get.
    now rewrite (find_filed_get _ _ _ _ Hfj Hj).
Qed.

End Soundness.

(** ** The YouTube creation route *)

Section Youtube.
Variable env : Env.
Variable isUrl : string -> bool.
Variable urlInputError : UrlInputBody.t -> string.

Lemma enum_In allowed s : enum allowed s = true -> In s allowed.
Proof.
  unfold enum. rewrite existsb_exists. intros (x & Hin & Heq).
  apply String.eqb_eq in Heq. now subst.
Qed.

Lemma urlInputSchema_data_inv body data :
  urlInputSchema_data isUrl body = Some data ->
  UrlInputBody.url body = Some (UrlInputRequest.url data) /\
  isUrl (UrlInputRequest.url data) = true /\
  UrlInputBody.style body = Some (UrlInputRequest.style data) /\
  In (UrlInputRequest.style data)
    ["informative"; "entertaining"; "educational"] /\
  UrlInputBody.voiceId body = Some (UrlInputRequest.voiceId data) /\
  UrlInputBody.speechSpeed body = Some (UrlInputRequest.speechSpeed data) /\
  In (UrlInputRequest.speechSpeed data) ["0.9"; "1.0"; "1.1"] /\
  exists text,
    UrlInputBody.targetDuration body = Some text /\
    In (text, parseInt (UrlInputRequest.targetDuration data))
      [("30", 30); ("60", 60); ("90", 90)].
Proof.
  unfold urlInputSchema_data.
  destruct body as [[url|] [style|] [td|] [voiceId|] [speed|]];
    cbn [UrlInputBody.url UrlInputBody.style UrlInputBody.targetDuration
         UrlInputBody.voiceId UrlInputBody.speechSpeed];
    try discriminate.
  destruct (targetDuration_enum td) as [d|] eqn:Hd; [|discriminate].
  destruct (isUrl url) eqn:Hurl; [|discriminate].
  destruct (enum ["informative"; "entertaining"; "educational"] style)
    eqn:Hstyle; [|discriminate].
  destruct (enum ["0.9"; "1.0"; "1.1"] speed) eqn:Hspeed; [|discriminate].
  cbn [andb]. intros [= <-].
  cbn [UrlInputRequest.url UrlInputRequest.style
       UrlInputRequest.targetDuration UrlInputRequest.voiceId
       UrlInputRequest.speechSpeed].
  repeat (split; [first [reflexivity | assumption | now apply enum_In]|]).
  exists td. split; [reflexivity|].
  unfold targetDuration_enum in Hd.
  destruct (String.eqb_spec td "30") as [->|_];
    [injection Hd as <-; cbn; tauto|].
  destruct (String.eqb_spec td "60") as [->|_];
    [injection Hd as <-; cbn; tauto|].
  destruct (String.eqb_spec td "90") as [->|_];
    [injection Hd as <-; cbn; tauto|].
  discriminate.
Qed.

Lemma submit_run draft style targetDuration voiceId speechSpeed w :
  submit env draft style targetDuration voiceId speechSpeed w =
  let videoId := uuid env (consulted w) in
  let summaryId := uuid env (S (S (consulted w))) in
  let video :=
    Video.mk videoId (InsertVideo.title draft)
      (nullish_null (InsertVideo.originalUrl draft))
      (nullish_null (InsertVideo.fileName draft))
      (nullish_null (InsertVideo.duration draft))
      (nullish_null (InsertVideo.thumbnailUrl draft))
      (or_default (InsertVideo.status draft) "uploading")
      (Some (clock env (S (consulted w)))) in
  let summary :=
    Summary.mk summaryId videoId "" style targetDuration voiceId
      (or_default speechSpeed "1.0") None None (Some false)
      (Some (clock env (S (S (S (consulted w)))))) in
  (Returned (videoId, summaryId),
   mkWorld (JsMap.set videoId video (videos w))
     (JsMap.set summaryId summary (summaries w)) (processingJobs w)
     (S (S (S (S (consulted w)))))
     (trace w ++ [EvSetVideo videoId video; EvSetSummary summaryId summary])).
Proof.
  unfold submit. rewrite bind_run, createVideo_run. cbv beta iota zeta.
  rewrite bind_run, createSummary_run. cbv beta iota zeta.
  cbn [Video.id Summary.id videos summaries processingJobs consulted trace].
  unfold ret. now rewrite <- app_assoc.
Qed.

(** X19. [POST /api/videos/youtube] always answers.  A body the schema rejects is
    answered 400 with the validation message: nothing is stored and no
    pipeline is started.  A body it accepts always leads to the answer
    [{ videoId, summaryId }] with the two identifiers just drawn, and to a
    pipeline started on that [videoId]; the item stored has the title
    ["Processing..."], the status ["processing"] and the given URL; the
    summary stored for it is empty and unedited and carries the requested
    settings, the target duration being 30, 60 or 90 and the speech speed
    one of the three allowed strings. *)
Theorem youtube_route_answers (body : UrlInputBody.t) (w : World) :
  exists reply w',
    youtube_route env isUrl urlInputError body w = (Returned reply, w') /\
    processingJobs w' = processingJobs w /\
    match urlInputSchema_data isUrl body with
    | None => reply = (Refused 400 (urlInputError body), None) /\ w' = w
    | Some data =>
        let videoId := uuid env (consulted w) in
        let summaryId := uuid env (S (S (consulted w))) in
        reply = (Created videoId summaryId, Some videoId) /\
        videos w' =
          JsMap.set videoId
            (Video.mk videoId "Processing..."
               (Some (UrlInputRequest.url data)) None None None "processing"
               (Some (clock env (S (consulted w)))))
            (videos w) /\
        summaries w' =
          JsMap.set summaryId
            (Summary.mk summaryId videoId "" (UrlInputRequest.style data)
               (parseInt (UrlInputRequest.targetDuration data))
               (UrlInputRequest.voiceId data)
               (UrlInputRequest.speechSpeed data) None None (Some false)
               (Some (clock env (S (S (S (consulted w)))))))
            (summaries w) /\
        In (parseInt (UrlInputRequest.targetDuration data)) [30; 60; 90] /\
        In (UrlInputRequest.speechSpeed data) ["0.9"; "1.0"; "1.1"] /\
        In (UrlInputRequest.style data)
          ["informative"; "entertaining"; "educational"]
    end.
Proof.
  unfold youtube_route, try_catch, urlInputSchema_parse.
  destruct (urlInputSchema_data isUrl body) as [data|] eqn:Hdata.
  - destruct (urlInputSchema_data_inv _ _ Hdata)
      as (_ & _ & _ & Hstyle & _ & _ & Hspeed & text & _ & Htd).
    rewrite bind_run. unfold ret at 1. cbv beta iota.
    rewrite bind_run, submit_run. cbv beta iota zeta.
    do 2 eexists. split; [reflexivity|]. cbn [processingJobs videos summaries].
    split; [reflexivity|]. cbn [fst snd].
    split; [reflexivity|]. split; [reflexivity|].
    split.
    { f_equal. f_equal. cbn in Hspeed.
      destruct Hspeed as [<-|[<-|[<-|[]]]]; reflexivity. }
    split; [|split; assumption].
    cbn in Htd. cbn.
    destruct Htd as [[= _ <-]|[[= _ <-]|[[= _ <-]|[]]]]; tauto.
  - do 2 eexists. split; [reflexivity|]. split; [reflexivity|].
    split; reflexivity.
Qed.

End Youtube.

(** ** A request and the run it starts *)

Section RequestAndRun.
Variable env : Env.
Variable isUrl : string -> bool.
Variable urlInputError : UrlInputBody.t -> string.

(** However the [try] block ends, the summary the item had before is still
    the summary found for it, with its identifier and its settings; its
    [audioUrl] is the synthesized speech after a run that reached its end,
    and untouched otherwise. *)
Lemma try_keeps_settings videoId w r w1 video s0 :
  filed Summary.id (summaries w) ->
  JsMap.get videoId (videos w) = Some video ->
  find (summary_of videoId) (JsMap.values (summaries w)) = Some s0 ->
  processVideo_try env videoId w = (r, w1) ->
  exists s',
    find (summary_of videoId) (JsMap.values (summaries w1)) = Some s' /\
    Summary.id s' = Summary.id s0 /\
    Summary.videoId s' = Summary.videoId s0 /\
    Summary.style s' = Summary.style s0 /\
    Summary.targetDuration s' = Summary.targetDuration s0 /\
    Summary.voiceId s' = Summary.voiceId s0 /\
    Summary.speechSpeed s' = Summary.speechSpeed s0 /\
    Summary.isEdited s' = Summary.isEdited s0 /\
    Summary.audioUrl s' =
      match r with
      | Returned _ =>
          Some (path_join env [cwd env; "temp"; videoId ++ "_speech.mp3"])
      | Thrown _ => Summary.audioUrl s0
      end.
Proof.
  intros Hf Hvideo Hfind Hrun.
  assert (Hp : summary_of videoId s0 = true).
  { destruct (find_values_In _ _ _ Hfind) as (_ & _ & Hp). exact Hp. }
  assert (Hws : forall n s m,
            working_summary env videoId (summaries w) n s m ->
            s = s0 /\ m = summaries w).
  { intros n s m [[Hfind' ->]|(Hnone & _)]; [|congruence].
    split; [congruence | reflexivity]. }
  pose proof (find_filed_get _ _ _ _ Hf Hfind) as Hget.
  destruct r as [[]|e].
  - pose proof (processVideo_try_inv env _ _ _ Hrun) as Hinv.
    cbv zeta in Hinv.
    destruct Hinv as (_ & _ & _ & _ & _ & _ & _ & _ & _ & s & x & res & n &
      _ & _ & _ & m & _ & _ & _ & _ & _ & _ & _ & _ & _ & _ & _ & Hw & Hx &
      _ & Hsum & _).
    destruct (Hws _ _ _ Hw) as (-> & ->).
    rewrite Hget in Hx. injection Hx as <-.
    eexists. split.
    { rewrite Hsum. eapply find_set_found; eauto. }
    repeat split.
  - destruct (processVideo_try_profile env _ _ _ _ _ Hvideo Hrun)
      as (_ & _ & _ & _ & _ & _ & _ & _ & cause & _ & _ & _ & _ & _ & Hsum).
    assert (Hsame : summaries w1 = summaries w ->
              exists s',
                find (summary_of videoId) (JsMap.values (summaries w1)) =
                  Some s' /\ s' = s0).
    { intros ->. eauto. }
    assert (Hdone : (exists s', find (summary_of videoId)
                                  (JsMap.values (summaries w1)) = Some s' /\
                                s' = s0) ->
              exists s',
                find (summary_of videoId) (JsMap.values (summaries w1)) =
                  Some s' /\
                Summary.id s' = Summary.id s0 /\
                Summary.videoId s' = Summary.videoId s0 /\
                Summary.style s' = Summary.style s0 /\
                Summary.targetDuration s' = Summary.targetDuration s0 /\
                Summary.voiceId s' = Summary.voiceId s0 /\
                Summary.speechSpeed s' = Summary.speechSpeed s0 /\
                Summary.isEdited s' = Summary.isEdited s0 /\
                Summary.audioUrl s' = Summary.audioUrl s0).
    { intros (s' & Hs' & ->). exists s0. repeat split. exact Hs'. }
    assert (Hspoken :
              (exists n s m x content,
                 working_summary env videoId (summaries w) n s m /\
                 JsMap.get (Summary.id s) m = Some x /\
                 summaries w1 =
                   JsMap.set (Summary.id s)
                     (mergeSummary x (contentUpdate content)) m) ->
              exists s',
                find (summary_of videoId) (JsMap.values (summaries w1)) =
                  Some s' /\
                Summary.id s' = Summary.id s0 /\
                Summary.videoId s' = Summary.videoId s0 /\
                Summary.style s' = Summary.style s0 /\
                Summary.targetDuration s' = Summary.targetDuration s0 /\
                Summary.voiceId s' = Summary.voiceId s0 /\
                Summary.speechSpeed s' = Summary.speechSpeed s0 /\
                Summary.isEdited s' = Summary.isEdited s0 /\
                Summary.audioUrl s' = Summary.audioUrl s0).
    { intros (n & s & m & x & content & Hw & Hx & ->).
      destruct (Hws _ _ _ Hw) as (-> & ->).
      rewrite Hget in Hx. injection Hx as <-.
      eexists. split; [eapply find_set_found; eauto|].
      repeat split. }
    destruct cause as [| |[]]; cbn [summaries_at] in Hsum;
      try (apply Hdone, Hsame; exact Hsum);
      try (apply Hspoken; exact Hsum).
    + destruct Hsum as (n & s & Hw & _).
      destruct (Hws _ _ _ Hw) as (_ & Heq). apply Hdone, Hsame. exact Heq.
    + destruct Hsum as (n & s & Hw).
      destruct (Hws _ _ _ Hw) as (_ & Heq). apply Hdone, Hsame. exact Heq.
Qed.

(** In a store where every record belongs to a stored item, an identifier
    that is not a key of the video map has neither summary nor job. *)
Lemma fresh_item_has_nothing w videoId :
  sound [] w ->
  JsMap.get videoId (videos w) = None ->
  find (summary_of videoId) (JsMap.values (summaries w)) = None /\
  find (job_of videoId) (JsMap.values (processingJobs w)) = None.
Proof.
  intros ((Hs & Hj) & _) Hnone. apply get_None_keys in Hnone.
  rewrite Forall_forall in Hs, Hj. split.
  - destruct (find _ _) as [s|] eqn:E; [|reflexivity]. exfalso.
    destruct (find_values_In _ _ _ E) as (k & Hin & Hp).
    apply Hnone. apply String.eqb_eq in Hp. rewrite <- Hp.
    exact (Hs _ Hin).
  - destruct (find _ _) as [j|] eqn:E; [|reflexivity]. exfalso.
    destruct (find_values_In _ _ _ E) as (k & Hin & Hp).
    apply Hnone. apply String.eqb_eq in Hp. rewrite <- Hp.
    exact (Hj _ Hin).
Qed.

(** X20. A valid request to [POST /api/videos/youtube] in any reachable state,
    followed by the run of [processVideo] it starts, when [randomUUID] never
    repeats itself and the [try] block of that run comes to an end, by
    returning or by throwing (a download or any other awaited call that
    never settles leaves the run suspended, and no such run is described
    here).  The run then returns normally, and [GET /api/videos/:id] on the
    identifier answered shows the item, the summary of the request (same
    identifier, same settings) and the job of the run: when the block
    returned, the item and the job are both [completed] and the summary's
    [audioUrl] is the speech; when it threw, they are both [failed], the
    job's [error] is the message of the value thrown and the summary has no
    audio. *)
Theorem youtube_request_ended_run (body : UrlInputBody.t)
  (data : UrlInputRequest.t) (w wend : World) (r : Outcome unit)
  (Hinj : forall n n', uuid env n = uuid env n' -> n = n')
  (Hreach : reachable env w)
  (Hvalid : urlInputSchema_data isUrl body = Some data)
  (Hends : processVideo_try env (uuid env (consulted w))
             (snd (youtube_route env isUrl urlInputError body w)) =
           (r, wend)) :
  exists videoId summaryId w1 w2 video summary job,
    youtube_route env isUrl urlInputError body w =
      (Returned (Created videoId summaryId, Some videoId), w1) /\
    processVideo env videoId w1 = (Returned tt, w2) /\
    get_video_route videoId w2 =
      (Returned (mkResponse 200 (JsonStatus video (Some summary) (Some job))),
       w2) /\
    Video.id video = videoId /\
    Summary.id summary = summaryId /\
    Summary.videoId summary = videoId /\
    Summary.style summary = UrlInputRequest.style data /\
    Summary.targetDuration summary =
      parseInt (UrlInputRequest.targetDuration data) /\
    Summary.voiceId summary = UrlInputRequest.voiceId data /\
    Summary.speechSpeed summary = UrlInputRequest.speechSpeed data /\
    ProcessingJob.videoId job = videoId /\
    match r with
    | Returned _ =>
        Video.status video = "completed" /\
        ProcessingJob.status job = "completed" /\
        Summary.audioUrl summary =
          Some (path_join env [cwd env; "temp"; videoId ++ "_speech.mp3"])
    | Thrown e =>
        Video.status video = "failed" /\
        ProcessingJob.status job = "failed" /\
        ProcessingJob.error job = Some (message_or "Unknown error" e) /\
        Summary.audioUrl summary = None
    end.
Proof.
  pose proof (reachable_wf env w Hreach) as Hwf.
  pose proof (reachable_minted env w Hreach) as Hminted.
  pose proof (reachable_sound env w Hreach) as Hsound.
  destruct (urlInputSchema_data_inv _ _ _ Hvalid)
    as (_ & _ & _ & _ & _ & _ & Hspeed & _).
  set (videoId := uuid env (consulted w)).
  set (summaryId := uuid env (S (S (consulted w)))).
  assert (Hfresh : JsMap.get videoId (videos w) = None).
  { apply get_None_keys. intros Hin.
    destruct (Hminted _ (or_introl Hin)) as (n & Hn & Heq).
    apply Hinj in Heq. lia. }
  destruct (fresh_item_has_nothing w videoId Hsound Hfresh)
    as (Hnosummary & Hnojob).
  (* the route *)
  pose proof (wf_submit env (youtubeVideoDraft (UrlInputRequest.url data))
                (UrlInputRequest.style data)
                (parseInt (UrlInputRequest.targetDuration data))
                (UrlInputRequest.voiceId data)
                (Some (UrlInputRequest.speechSpeed data)) w Hwf) as Hwf1.
  rewrite submit_run in Hwf1. cbv zeta in Hwf1. cbn [snd] in Hwf1.
  fold videoId summaryId in Hwf1.
  match type of Hwf1 with wf_store ?w1' => set (w1 := w1') in * end.
  assert (Hroute : youtube_route env isUrl urlInputError body w =
                   (Returned (Created videoId summaryId, Some videoId), w1)).
  { unfold youtube_route, try_catch, urlInputSchema_parse. rewrite Hvalid.
    rewrite bind_run. unfold ret at 1. cbv beta iota.
    rewrite bind_run, submit_run. reflexivity. }
  set (s0 := Summary.mk summaryId videoId "" (UrlInputRequest.style data)
               (parseInt (UrlInputRequest.targetDuration data))
               (UrlInputRequest.voiceId data)
               (or_default (Some (UrlInputRequest.speechSpeed data)) "1.0")
               None None (Some false)
               (Some (clock env (S (S (S (consulted w))))))) in *.
  assert (Hspeed0 : Summary.speechSpeed s0 = UrlInputRequest.speechSpeed data).
  { unfold s0. cbn [Summary.speechSpeed]. cbn in Hspeed.
    destruct Hspeed as [H|[H|[H|[]]]]; rewrite <- H; reflexivity. }
  assert (Hfind0 : find (summary_of videoId) (JsMap.values (summaries w1)) =
                   Some s0).
  { apply find_set_fresh; [exact Hnosummary|].
    unfold summary_of. cbn. apply String.eqb_refl. }
  assert (Hvideo1 : exists v0, JsMap.get videoId (videos w1) = Some v0).
  { eexists. cbn [w1 videos]. apply get_set_same. }
  destruct Hvideo1 as (v0 & Hvideo1).
  assert (Hnojob1 : find (job_of videoId) (JsMap.values (processingJobs w1)) =
                    None) by exact Hnojob.
  destruct Hwf1 as (Hfv1 & Hfs1 & Hfj1).
  (* the run *)
  pose proof (wf_processVideo env videoId w1 (conj Hfv1 (conj Hfs1 Hfj1)))
    as Hwf2.
  rewrite Hroute in Hends. cbn [snd] in Hends.
  assert (Htry : processVideo_try env videoId w1 = (r, wend)) by exact Hends.
  clear Hends. revert Htry. generalize wend as w1'. intros w1' Htry.
  destruct (try_keeps_settings _ _ _ _ _ _ Hfs1 Hvideo1 Hfind0 Htry)
    as (s' & Hfind' & Hid' & Hvid' & Hstyle' & Htd' & Hvoice' & Hspeed' & _ &
        Haudio').
  destruct (processVideo_try_profile env _ _ _ _ _ Hvideo1 Htry)
    as (evs & jlast & _ & _ & Hjobs & Hjid & Hjvid & _ & Hcase).
  assert (Hjfind : find (job_of videoId) (JsMap.values (processingJobs w1')) =
                   Some jlast).
  { rewrite Hjobs. apply find_set_fresh; [exact Hnojob1|].
    unfold job_of. rewrite Hjvid. apply String.eqb_refl. }
  destruct r as [[]|e].
  - (* completed *)
    assert (Hrun : processVideo env videoId w1 = (Returned tt, w1')).
    { unfold processVideo, try_catch. now rewrite Htry. }
    rewrite Hrun in Hwf2. cbn [snd] in Hwf2.
    destruct Hwf2 as (Hfv2 & _ & _).
    pose proof (processVideo_try_inv env _ _ _ Htry) as Hinv.
    cbv zeta in Hinv.
    destruct Hinv as (_ & _ & _ & _ & _ & _ & _ & _ & _ & _ & _ & _ & _ & _ &
      _ & _ & _ & vfinal & _ & _ & _ & _ & _ & _ & _ & _ & _ & _ & _ & _ & _ &
      _ & Hfinal & Hcompleted & _).
    destruct Hcase as (Hjstatus & _).
    exists videoId, summaryId, w1, w1', vfinal, s', jlast.
    pose proof (filed_get _ _ _ _ Hfv2 Hfinal) as Hkey.
    split; [exact Hroute|]. split; [exact Hrun|].
    split.
    { unfold get_video_route, try_catch, getVideo, getSummaryByVideoId,
        getProcessingJobByVideoId.
      unfold bind, videos_get, summaries_values, processingJobs_values, ret.
      rewrite Hfinal, Hkey.
      fold (summary_of videoId). fold (job_of videoId).
      now rewrite Hfind', Hjfind. }
    split; [exact Hkey|]. split; [exact Hid'|]. split; [exact Hvid'|].
    split; [exact Hstyle'|]. split; [exact Htd'|]. split; [exact Hvoice'|].
    split; [now rewrite Hspeed'|]. split; [exact Hjvid|].
    split; [exact Hcompleted|]. split; [exact Hjstatus | exact Haudio'].
  - (* failed *)
    pose proof (ready_after_try env videoId w1 v0 Hfj1 Hvideo1) as Hready.
    rewrite Htry in Hready. cbn [snd] in Hready.
    destruct (processVideo_catch_run env videoId e w1' Hready)
      as (job & video1 & Hfind & Hget & Hvideo1' & Hcatch).
    cbv zeta in Hcatch.
    rewrite Hjfind in Hfind. injection Hfind as <-.
    assert (Hrun : processVideo env videoId w1 =
                   (Returned tt, snd (processVideo_catch env videoId e w1'))).
    { unfold processVideo, try_catch. rewrite Htry.
      rewrite Hcatch. reflexivity. }
    rewrite Hrun in Hwf2. cbn [snd] in Hwf2.
    rewrite Hcatch in Hrun, Hwf2. cbn [snd] in Hrun, Hwf2.
    match type of Hwf2 with wf_store ?w2' => set (w2 := w2') in * end.
    destruct Hwf2 as (Hfv2 & _ & _).
    destruct Hready as (_ & Hfj1' & _).
    set (video' := mergeVideo video1 (statusUpdate "failed")) in *.
    set (job' := mergeJob jlast (failedUpdate (message_or "Unknown error" e))
                   (clock env (consulted w1'))) in *.
    assert (Hfinal : JsMap.get videoId (videos w2) = Some video').
    { cbn [w2 videos]. apply get_set_same. }
    pose proof (filed_get _ _ _ _ Hfv2 Hfinal) as Hkey.
    exists videoId, summaryId, w1, w2, video', s', job'.
    split; [exact Hroute|]. split; [exact Hrun|].
    split.
    { unfold get_video_route, try_catch, getVideo, getSummaryByVideoId,
        getProcessingJobByVideoId.
      unfold bind, videos_get, summaries_values, processingJobs_values, ret.
      rewrite Hfinal, Hkey.
      fold (summary_of videoId). fold (job_of videoId).
      cbn [w2 summaries processingJobs]. rewrite Hfind'.
      erewrite find_set_found; eauto.
      unfold job_of, job', mergeJob. cbn. rewrite Hjvid.
      apply String.eqb_refl. }
    split; [exact Hkey|]. split; [exact Hid'|]. split; [exact Hvid'|].
    split; [exact Hstyle'|]. split; [exact Htd'|]. split; [exact Hvoice'|].
    split; [now rewrite Hspeed'|]. split; [exact Hjvid|].
    split; [reflexivity|]. split; [reflexivity|].
    split; [reflexivity | exact Haudio'].
Qed.

End RequestAndRun.

(** ** Failures of the OpenAI services carry their stage *)

Section Labelled.
Variable env : Env.
Variable videoId : string.




End Labelled.

(** ** The clean-up of temporary files *)

Section CleanupFacts.
Variable unlink : nat -> string -> Outcome unit.

Lemma unlink_each_resolves i filePaths :
  exists values,
    promise_all (map fst (unlink_each unlink i filePaths)) = Returned values /\
    length values = length filePaths.
Proof.
  revert i. induction filePaths as [|filePath rest IH]; intros i; cbn.
  - exists []. split; reflexivity.
  - destruct (IH (S i)) as (values & -> & Hlen).
    unfold promise_catch, console_warn.
    destruct (unlink i filePath) as [[]|err]; cbn;
      exists (tt :: values); cbn; now rewrite Hlen.
Qed.

Lemma unlink_each_warnings i filePaths warning :
  In warning (flat_map snd (unlink_each unlink i filePaths)) ->
  exists k filePath err,
    nth_error filePaths k = Some filePath /\
    unlink (i + k) filePath = Thrown err /\
    warning = WarnCleanup filePath err.
Proof.
  revert i. induction filePaths as [|filePath rest IH]; intros i; cbn;
    [intros []|].
  rewrite in_app_iff. intros [Hin|Hin].
  - unfold promise_catch, console_warn in Hin.
    destruct (unlink i filePath) as [[]|err] eqn:E; cbn in Hin;
      [contradiction|].
    destruct Hin as [<-|[]]. exists 0%nat, filePath, err.
    rewrite Nat.add_0_r. repeat split. exact E.
  - destruct (IH (S i) Hin) as (k & p & err & Hnth & Hu & ->).
    exists (S k), p, err. rewrite Nat.add_succ_r. repeat split; assumption.
Qed.

Lemma unlink_each_complete i filePaths k filePath err :
  nth_error filePaths k = Some filePath ->
  unlink (i + k) filePath = Thrown err ->
  In (WarnCleanup filePath err) (flat_map snd (unlink_each unlink i filePaths)).
Proof.
  revert i k. induction filePaths as [|p rest IH]; intros i k Hnth Hu.
  - destruct k; discriminate.
  - cbn [unlink_each flat_map]. apply in_or_app. destruct k as [|k].
    + left. injection Hnth as ->. rewrite Nat.add_0_r in Hu.
      unfold promise_catch, console_warn. rewrite Hu. now left.
    + right. apply (IH (S i) k); [exact Hnth|].
      now rewrite Nat.add_succ_r in Hu.
Qed.

Lemma unlink_each_bound i filePaths :
  (length (flat_map snd (unlink_each unlink i filePaths)) <=
   length filePaths)%nat.
Proof.
  revert i. induction filePaths as [|p rest IH]; intros i; [apply le_n|].
  cbn [unlink_each flat_map length]. rewrite length_app.
  specialize (IH (S i)). unfold promise_catch, console_warn.
  destruct (unlink i p) as [[]|err]; cbn [snd length]; lia.
Qed.

(** X22. [cleanupTempFiles] never rejects, whatever [fs.unlink] does, so the
    timer callback of [processVideo] that starts it without awaiting it
    cannot leave an unhandled rejection.  The [catch] around [Promise.all]
    is never entered: every warning is that of a single path of the list
    whose [unlink] failed, with the error of that failure; every failed
    [unlink] is warned about; and there are at most as many warnings as
    paths. *)
Theorem cleanupTempFiles_never_rejects (filePaths : list string) :
  fst (cleanupTempFiles unlink filePaths) = Returned tt /\
  (forall warning,
     In warning (snd (cleanupTempFiles unlink filePaths)) ->
     exists k filePath err,
       nth_error filePaths k = Some filePath /\
       unlink k filePath = Thrown err /\
       warning = WarnCleanup filePath err) /\
  (forall k filePath err,
     nth_error filePaths k = Some filePath ->
     unlink k filePath = Thrown err ->
     In (WarnCleanup filePath err) (snd (cleanupTempFiles unlink filePaths))) /\
  (length (snd (cleanupTempFiles unlink filePaths)) <= length filePaths)%nat.
Proof.
  unfold cleanupTempFiles. cbv zeta.
  destruct (unlink_each_resolves 0 filePaths) as (values & -> & _).
  cbn [fst snd]. split; [reflexivity|].
  split; [intros warning Hin; exact (unlink_each_warnings 0 _ _ Hin)|].
  split; [|exact (unlink_each_bound 0 filePaths)].
  intros k filePath err Hnth Hu. now apply (unlink_each_complete 0 _ k).
Qed.

End CleanupFacts.

(** ** The properties above on the example deployment *)

Lemma scenario_uuid_injective content failing n n' :
  uuid (Scenario.env content failing) n =
  uuid (Scenario.env content failing) n' -> n = n'.
Proof.
  cbn [uuid Scenario.env]. intros H.
  assert (Hd : Scenario.decimal n = Scenario.decimal n').
  { cbn in H. now injection H. }
  unfold Scenario.decimal in Hd.
  apply (f_equal DecimalString.NilEmpty.uint_of_string) in Hd.
  rewrite !DecimalString.NilEmpty.usu in Hd. injection Hd as Hd.
  now apply DecimalNat.Unsigned.to_uint_inj.
Qed.

Lemma submitted_reachable content failing :
  reachable (Scenario.env content failing)
    (snd (submit (Scenario.env content failing)
            (youtubeVideoDraft "https://youtu.be/abc") "educational" 30 "nova"
            (Some "1.1") initial)).
Proof. apply reach_submit, reach_initial. Qed.

(** A draft that claims to be edited and has an empty speed. *)
Lemma createSummary_files_record_witness :
  exists summary w',
    createSummary (Scenario.env "text" None)
      (InsertSummary.mk "id0" "" "informative" 60 "alloy" (Some "")
         (Some (Some true))) initial = (Returned summary, w') /\
    Summary.speechSpeed summary = "1.0" /\
    Summary.isEdited summary = Some false.
Proof.
  destruct (createSummary_files_record (Scenario.env "text" None)
              (InsertSummary.mk "id0" "" "informative" 60 "alloy" (Some "")
                 (Some (Some true))) initial eq_refl)
    as (summary & w' & Hrun & _ & _ & _ & _ & _ & _ & Hspeed & _ & _ &
        Hedited & _).
  exists summary, w'. split; [exact Hrun|]. split; assumption.
Defined.

(** A job drafted without progress. *)
Lemma createProcessingJob_files_record_witness :
  exists job w',
    createProcessingJob (Scenario.env "text" None)
      (InsertProcessingJob.mk "id0" "pending" None None None None) initial =
      (Returned job, w') /\
    ProcessingJob.progress job = None /\
    ProcessingJob.createdAt job = Some 1700000000001 /\
    ProcessingJob.updatedAt job = Some 1700000000002.
Proof.
  destruct (createProcessingJob_files_record (Scenario.env "text" None)
              (InsertProcessingJob.mk "id0" "pending" None None None None)
              initial eq_refl)
    as (job & w' & Hrun & _ & _ & _ & Hprogress & _ & _ & _ & Hcreated &
        Hupdated & _).
  exists job, w'. split; [exact Hrun|].
  split; [exact Hprogress|]. split; assumption.
Defined.

(** A second summary and a first job for the submitted item. *)
Lemma older_record_shadows_newer_witness :
  let env := Scenario.env "text" None in
  (exists job wj,
     createProcessingJob env (jobDraft "id0") Scenario.submitted =
       (Returned job, wj) /\
     getProcessingJobByVideoId "id0" wj = (Returned (Some job), wj)) /\
  (exists summary ws,
     createSummary env (defaultSummaryDraft "id0") Scenario.submitted =
       (Returned summary, ws) /\
     option_map Summary.id
       (find (summary_of "id0") (JsMap.values (summaries ws))) = Some "id2").
Proof.
  cbv zeta.
  destruct (older_record_shadows_newer (Scenario.env "text" None)
              (jobDraft "id0") (defaultSummaryDraft "id0") Scenario.submitted
              ltac:(vm_compute; reflexivity) ltac:(vm_compute; reflexivity))
    as ((job & wj & Hjob & Hjl) & (summary & ws & Hsum & Hsl)).
  split.
  - exists job, wj. split; [exact Hjob | exact Hjl].
  - exists summary, ws. split; [exact Hsum|].
    apply (f_equal fst) in Hsl. cbn [fst] in Hsl.
    unfold getSummaryByVideoId, bind, summaries_values, ret in Hsl.
    cbn [fst] in Hsl. injection Hsl as Hsl.
    fold (summary_of "id0") in Hsl. rewrite Hsl. vm_compute. reflexivity.
Defined.



Lemma completed_run_result_witness :
  let env := Scenario.env "A short summary." None in
  let w' := snd (processVideo_try env "id0" Scenario.submitted) in
  exists summary job,
    getSummaryByVideoId "id0" w' = (Returned (Some summary), w') /\
    Summary.audioUrl summary = Some "/app/temp/id0_speech.mp3" /\
    Summary.finalVideoUrl summary = Some "/app/temp/id0_speech.mp3" /\
    getProcessingJob "id4" w' = (Returned (Some job), w') /\
    ProcessingJob.status job = "completed".
Proof.
  cbv zeta.
  destruct (completed_run_result (Scenario.env "A short summary." None) "id0"
              Scenario.submitted
              (snd (processVideo_try (Scenario.env "A short summary." None)
                      "id0" Scenario.submitted))
              ltac:(concrete_filed) ltac:(vm_compute; reflexivity))
    as (summary & job & Hsum & Haudio & Hfinal & Hjob & Hstatus & _).
  exists summary, job.
  split; [exact Hsum|]. split; [exact Haudio|]. split; [exact Hfinal|].
  split; [exact Hjob | exact Hstatus].
Defined.

Lemma completed_run_status_route_witness :
  let env := Scenario.env "A short summary." None in
  let w' := snd (processVideo_try env "id0" Scenario.submitted) in
  exists video summary job,
    get_video_route "id0" w' =
      (Returned (mkResponse 200 (JsonStatus video (Some summary) (Some job))),
       w') /\
    Video.status video = "completed" /\
    ProcessingJob.progress job = Some 100.
Proof.
  cbv zeta.
  destruct (completed_run_status_route (Scenario.env "A short summary." None)
              "id0" Scenario.submitted
              (snd (processVideo_try (Scenario.env "A short summary." None)
                      "id0" Scenario.submitted))
              submitted_wf ltac:(vm_compute; reflexivity)
              ltac:(vm_compute; reflexivity))
    as (video & summary & job & Hroute & Hstatus & _ & Hprogress & _).
  exists video, summary, job.
  split; [exact Hroute|]. split; assumption.
Defined.

(** The summary of the submission belongs to the submitted item. *)
Lemma reachable_owned_witness :
  exists video,
    getVideo "id0" Scenario.submitted =
      (Returned (Some video), Scenario.submitted).
Proof.
  exact (proj1 (reachable_owned (Scenario.env "" None) Scenario.submitted
                  (submitted_reachable "" None))
           "id2"
           (Summary.mk "id2" "id0" "" "educational" 30 "nova" "1.1" None None
              (Some false) (Some 1700000000003))
           ltac:(vm_compute; reflexivity)).
Defined.

(** The job of a failed run after a submission. *)
Lemma reachable_job_states_witness :
  let env := Scenario.env "text" (Some ReadFile) in
  let w :=
    snd (processVideo env "id0"
           (snd (submit env (youtubeVideoDraft "https://youtu.be/abc")
                   "educational" 30 "nova" (Some "1.1") initial))) in
  exists job,
    JsMap.get "id4" (processingJobs w) = Some job /\
    ProcessingJob.status job <> "pending" /\
    In (progress_step job) checkpoints.
Proof.
  cbv zeta. eexists. split; [vm_compute; reflexivity|].
  refine (proj2 (reachable_job_states (Scenario.env "text" (Some ReadFile)) _
                   (reach_processVideo _ _ "id0"
                      (submitted_reachable "text" (Some ReadFile)))
                   "id4" _ _)).
  vm_compute. reflexivity.
Defined.

(** The next identifier after the submission is [id4], and it is free. *)
Lemma reachable_fresh_witness :
  JsMap.get "id4" (videos Scenario.submitted) = None /\
  JsMap.get "id4" (summaries Scenario.submitted) = None /\
  JsMap.get "id4" (processingJobs Scenario.submitted) = None.
Proof.
  exact (reachable_fresh (Scenario.env "" None) Scenario.submitted
           (scenario_uuid_injective "" None) (submitted_reachable "" None)).
Defined.

Lemma reachable_status_consistent_witness :
  exists summary job,
    get_video_route "id0" Scenario.submitted =
      (Returned
         (mkResponse 200
            (JsonStatus
               (Video.mk "id0" "Processing..." (Some "https://youtu.be/abc")
                  None None None "processing" (Some 1700000000001))
               summary job)),
       Scenario.submitted).
Proof.
  destruct (reachable_status_consistent (Scenario.env "" None)
              Scenario.submitted "id0"
              (Video.mk "id0" "Processing..." (Some "https://youtu.be/abc")
                 None None None "processing" (Some 1700000000001))
              (submitted_reachable "" None) ltac:(vm_compute; reflexivity))
    as (summary & job & Hroute & _).
  exists summary, job. exact Hroute.
Defined.

(** The submitted item has a URL: the download answers, and its audio path
    is what the step returns. *)
Lemma acquireAudio_sources_witness :
  let env := Scenario.env "text" None in
  exists w' evs,
    acquireAudio env "id0"
      (Video.mk "id0" "Processing..." (Some "https://youtu.be/abc") None None
         None "processing" (Some 1700000000001)) Scenario.submitted =
      (Returned "/app/temp/x.mp3", w') /\
    calls evs = [DownloadYouTubeVideo].
Proof.
  cbv zeta.
  destruct (acquireAudio_sources (Scenario.env "text" None) "id0"
              (Video.mk "id0" "Processing..." (Some "https://youtu.be/abc")
                 None None None "processing" (Some 1700000000001))
              Scenario.submitted ltac:(vm_compute; reflexivity))
    as (r & w' & evs & Hrun & _ & _ & _ & Hcase).
  cbn in Hcase. destruct Hcase as (Hcalls & -> & _).
  exists w', evs. split; [exact Hrun | exact Hcalls].
Defined.

(** A valid request to an idle server, and the run it starts, all services
    answering. *)
Lemma youtube_request_ended_run_witness :
  let env := Scenario.env "A short summary." None in
  let isUrl := String.prefix "http" in
  let urlInputError := fun _ : UrlInputBody.t => "Invalid input" in
  let body :=
    UrlInputBody.mk (Some "https://youtu.be/abc") (Some "educational")
      (Some "30") (Some "nova") (Some "1.1") in
  exists videoId summaryId w1 w2 video summary job,
    youtube_route env isUrl urlInputError body initial =
      (Returned (Created videoId summaryId, Some videoId), w1) /\
    processVideo env videoId w1 = (Returned tt, w2) /\
    get_video_route videoId w2 =
      (Returned (mkResponse 200 (JsonStatus video (Some summary) (Some job))),
       w2) /\
    Video.status video = "completed".
Proof.
  cbv zeta.
  destruct (youtube_request_ended_run (Scenario.env "A short summary." None)
              (String.prefix "http") (fun _ => "Invalid input")
              (UrlInputBody.mk (Some "https://youtu.be/abc")
                 (Some "educational") (Some "30") (Some "nova") (Some "1.1"))
              (UrlInputRequest.mk "https://youtu.be/abc" "educational"
                 Seconds30 "nova" "1.1")
              initial
              (snd (processVideo_try (Scenario.env "A short summary." None)
                      "id0"
                      (snd (youtube_route
                              (Scenario.env "A short summary." None)
                              (String.prefix "http") (fun _ => "Invalid input")
                              (UrlInputBody.mk (Some "https://youtu.be/abc")
                                 (Some "educational") (Some "30") (Some "nova")
                                 (Some "1.1"))
                              initial))))
              (Returned tt)
              (scenario_uuid_injective "A short summary." None)
              (reach_initial _) ltac:(vm_compute; reflexivity)
              ltac:(vm_compute; reflexivity))
    as (videoId & summaryId & w1 & w2 & video & summary & job & Hroute &
        Hrun & Hget & _ & _ & _ & _ & _ & _ & _ & _ & Hstatus & _).
  exists videoId, summaryId, w1, w2, video, summary, job.
  split; [exact Hroute|]. split; [exact Hrun|]. split; assumption.
Defined.

